(** * CL_helper: odds-to-fixture reconciliation, verified against its description

    A shallow embedding of the parts of the dashboard (app/streamlit_app.py)
    and of the odds client (footballdata/extract/odds_api.py) that the
    description of the system makes statements about:

    - [_normalize_team_name], the join-key normaliser;
    - [get_upcoming_cl_matches], the selection of the next round;
    - [build_moneyline_summary] and [build_totals_table], the reconcilers;
    - [_get], [fetch_champions_league_odds] and [get_cl_odds_data], the
      HTTP layer with its retries and the 422 fallback;
    - the two reconcilers once more on frames that live in a store, where
      an assignment to a column changes a frame and a copy is a new one.

    Around them, the code they call and the code that uses them:

    - [fetch_champions_league_odds] with all its arguments, the odds
      section of the page with its session cache, [_build_odds_overview];
    - the football-data client (footballdata/extract/football_data_api.py):
      [_chunk_date_range] and [fetch_matches_since];
    - the ingestion watermarks (footballdata/utils/idempotency.py);
    - the export script (scripts/fetch_champions_league_2025.py): [http_get],
      the four flatten functions, [write_csv] and [main].

    Python [str] values that the program inspects character by character
    are lists of Unicode code points; strings that are only compared or
    concatenated are Rocq strings. *)

From Stdlib Require Import ZArith NArith QArith Bool Lia Lqa.
From Stdlib Require Import Strings.String Strings.Ascii.
From stdpp Require Import gmap strings list sorting pretty.
From Equations.Prop Require Import Equations Logic.

Unset Default Proof Using.
Local Open Scope N_scope.

(* ===================================================================== *)
(** * Python strings as code points *)
(* ===================================================================== *)

Definition codepoint := N.
Definition pystr := list codepoint.

(** A string literal of the source, as its code points (ASCII only). *)
Definition py (s : string) : pystr :=
  List.map N_of_ascii (list_ascii_of_string s).

Definition SP : codepoint := 32.

Definition is_ascii (c : codepoint) : bool := c <? 128.
Definition is_digit (c : codepoint) : bool := (48 <=? c) && (c <=? 57).
Definition is_az (c : codepoint) : bool := (97 <=? c) && (c <=? 122).
Definition is_AZ (c : codepoint) : bool := (65 <=? c) && (c <=? 90).

(** The character class [a-z0-9] of the second substitution. *)
Definition is_az09 (c : codepoint) : bool := is_az c || is_digit c.

(** [\w] restricted to ASCII: letters, digits and the underscore. *)
Definition ascii_word (c : codepoint) : bool :=
  is_az c || is_AZ c || is_digit c || (c =? 95).

Definition ascii_lower (c : codepoint) : codepoint :=
  if is_AZ c then c + 32 else c.

Definition ascii_upper (c : codepoint) : codepoint :=
  if is_az c then c - 32 else c.

(** [str.title] on ASCII text: the first letter of every run of letters is
    upper-cased, the others lower-cased. *)
Fixpoint ascii_title_from (prev_cased : bool) (s : pystr) : pystr :=
  match s with
  | [] => []
  | c :: r =>
      if is_az c || is_AZ c
      then (if prev_cased then ascii_lower c else ascii_upper c)
             :: ascii_title_from true r
      else c :: ascii_title_from false r
  end.

Definition ascii_title (s : pystr) : pystr := ascii_title_from false s.

(** [str.isspace] / [\s]: the white-space code points of Python 3. *)
Definition isspace (c : codepoint) : bool :=
  ((9 <=? c) && (c <=? 13)) || ((28 <=? c) && (c <=? 32))
  || (c =? 133) || (c =? 160) || (c =? 5760)
  || ((8192 <=? c) && (c <=? 8202))
  || (c =? 8232) || (c =? 8233) || (c =? 8239) || (c =? 8287) || (c =? 12288).

(** The part of the Unicode character database the program consults,
    through [unicodedata], [str.lower], [str.title] and the [re] module.
    The database itself is not part of the repository; the laws fix what it
    does on ASCII text, which is all the proofs rely on. *)
Class Unicodedata := {
  nfkd : pystr -> pystr;          (* unicodedata.normalize("NFKD", s) *)
  combining : codepoint -> N;     (* unicodedata.combining(ch) *)
  lower : pystr -> pystr;         (* s.lower() *)
  title : pystr -> pystr;         (* s.title() *)
  isword : codepoint -> bool;     (* \w on str patterns *)
  nfkd_ascii : forall s, forallb is_ascii s = true -> nfkd s = s;
  combining_ascii : forall c, is_ascii c = true -> combining c = 0;
  lower_ascii : forall s, forallb is_ascii s = true -> lower s = List.map ascii_lower s;
  title_ascii : forall s, forallb is_ascii s = true -> title s = ascii_title s;
  isword_ascii : forall c, is_ascii c = true -> isword c = ascii_word c
}.

(* ===================================================================== *)
(** * The [re] substitutions of the normaliser *)
(* ===================================================================== *)

Section Regex.
Context `{U : Unicodedata}.

Definition isword_opt (c : option codepoint) : bool :=
  match c with Some c => isword c | None => false end.

(** [\b] between two neighbouring positions: exactly one side is a word
    character (the outside of the string counts as a non-word). *)
Definition boundary (before after : option codepoint) : bool :=
  xorb (isword_opt before) (isword_opt after).

(** [strip_prefix t s] is [Some r] when [s = t ++ r]. *)
Fixpoint strip_prefix (t s : pystr) : option pystr :=
  match t, s with
  | [], _ => Some s
  | a :: t', b :: s' => if a =? b then strip_prefix t' s' else None
  | _ :: _, [] => None
  end.

(** The alternation [(fc|cf|ac|club|the)], in the order of the pattern. *)
Definition tokens : list pystr :=
  [py "fc"; py "cf"; py "ac"; py "club"; py "the"].

(** Try the alternatives in order at the current position, each followed
    by the closing [\b]; the length of the match is returned. *)
Fixpoint match_alt (alts : list pystr) (s : pystr) : option nat :=
  match alts with
  | [] => None
  | t :: alts' =>
      match strip_prefix t s with
      | Some rest =>
          if boundary (last t) (head rest) then Some (length t)
          else match_alt alts' s
      | None => match_alt alts' s
      end
  end.

(** [\b(fc|cf|ac|club|the)\b] at a position whose left neighbour is [prev]. *)
Definition match_token (prev : option codepoint) (s : pystr) : option nat :=
  if boundary prev (head s) then match_alt tokens s else None.

(** [re.sub(r"\b(fc|cf|ac|club|the)\b", " ", text)]: a left-to-right scan;
    [skip] counts the characters of the current match still to be consumed. *)
Fixpoint sub_tokens (prev : option codepoint) (skip : nat) (s : pystr) : pystr :=
  match s with
  | [] => []
  | c :: r =>
      match skip with
      | S k => sub_tokens (Some c) k r
      | O =>
          match match_token prev s with
          | Some n => SP :: sub_tokens (Some c) (pred n) r
          | None => c :: sub_tokens (Some c) 0 r
          end
      end
  end.

End Regex.

(** The complement of [a-z0-9], the class of the second substitution. *)
Definition non_az09 (c : codepoint) : bool := negb (is_az09 c).

(** [re.sub(cls + "+", " ", text)]: every maximal run of characters of the
    class becomes one space. *)
Fixpoint sub_plus (cls : codepoint -> bool) (in_run : bool) (s : pystr) : pystr :=
  match s with
  | [] => []
  | c :: r =>
      if cls c
      then (if in_run then sub_plus cls true r else SP :: sub_plus cls true r)
      else c :: sub_plus cls false r
  end.

Fixpoint lstrip (s : pystr) : pystr :=
  match s with
  | c :: r => if isspace c then lstrip r else s
  | [] => []
  end.

Definition rstrip (s : pystr) : pystr := rev (lstrip (rev s)).

(** [s.strip()] *)
Definition strip (s : pystr) : pystr := rstrip (lstrip s).

(* ===================================================================== *)
(** * The team-name normaliser *)
(* ===================================================================== *)

Section Normalizer.
Context `{U : Unicodedata}.

(** [_normalize_team_name(name)]; [None] is Python's [None]. *)
Definition _normalize_team_name (name : option pystr) : pystr :=
  match name with
  | None => []
  | Some [] => []
  | Some name =>
      let text := nfkd name in
      let text := List.filter (fun ch => combining ch =? 0) text in
      let text := lower text in
      let text := sub_tokens None 0 text in
      let text := sub_plus non_az09 false text in
      strip (sub_plus isspace false text)
  end.

End Normalizer.

(* ===================================================================== *)
(** * The normaliser as the description words it *)
(* ===================================================================== *)

Section NormalizerSpec.
Context `{U : Unicodedata}.

(** A whole word is a maximal run of word characters; it is dropped when
    it is one of the five tokens. [cur] is the word read so far. *)
Definition flush_word (cur : pystr) : pystr :=
  if bool_decide (cur ∈ tokens) then [] else cur.

Fixpoint remove_whole_words (cur : pystr) (s : pystr) : pystr :=
  match s with
  | [] => flush_word cur
  | c :: r =>
      if isword c then remove_whole_words (cur ++ [c]) r
      else flush_word cur ++ c :: remove_whole_words [] r
  end.

(** Every run of characters outside [a-z0-9] becomes a single space (the
    space is written where the run ends). *)
Fixpoint collapse (s : pystr) : pystr :=
  match s with
  | [] => []
  | c :: r =>
      if is_az09 c then c :: collapse r
      else match r with
           | [] => [SP]
           | d :: _ => if is_az09 d then SP :: collapse r else collapse r
           end
  end.

Fixpoint ltrim (s : pystr) : pystr :=
  match s with
  | c :: r => if c =? SP then ltrim r else s
  | [] => []
  end.

Definition rtrim (s : pystr) : pystr := rev (ltrim (rev s)).

Definition trim (s : pystr) : pystr := rtrim (ltrim s).

Definition strip_marks (s : pystr) : pystr :=
  List.filter (fun ch => combining ch =? 0) s.

(** Decompose and strip marks, lowercase, remove the whole-word tokens,
    collapse the non-alphanumeric runs, trim; nothing for null or empty. *)
Definition spec_normalize (name : option pystr) : pystr :=
  match name with
  | None => []
  | Some s =>
      if bool_decide (s = []) then []
      else trim (collapse (remove_whole_words [] (lower (strip_marks (nfkd s)))))
  end.

End NormalizerSpec.

(** The canonical form of a join key: words over [a-z0-9], one space
    between two words, nothing before the first or after the last. *)
Fixpoint canonical_from (after_alnum : bool) (s : pystr) : bool :=
  match s with
  | [] => after_alnum
  | c :: r =>
      if is_az09 c then canonical_from true r
      else (c =? SP) && after_alnum && canonical_from false r
  end.

Definition canonical (s : pystr) : bool :=
  match s with
  | [] => true
  | _ => canonical_from false s
  end.

(** The same form, as a list of words joined by single spaces. *)
Definition join_words (ws : list pystr) : pystr :=
  match ws with
  | [] => []
  | w :: ws' => w ++ List.flat_map (cons SP) ws'
  end.

Definition is_word (w : pystr) : Prop := w <> [] /\ forallb is_az09 w = true.

(** The key as a three-state transducer over the text: the words over
    [a-z0-9] are copied, and a separator is written only once the next word
    starts. Both the program and its description are compared with it. *)
Inductive nf_state := NfStart | NfWord | NfGap.

Definition nf_sep (st : nf_state) : nf_state :=
  match st with NfStart => NfStart | _ => NfGap end.

Fixpoint nf (st : nf_state) (s : pystr) : pystr :=
  match s with
  | [] => []
  | c :: r =>
      if is_az09 c
      then match st with
           | NfGap => SP :: c :: nf NfWord r
           | _ => c :: nf NfWord r
           end
      else nf (nf_sep st) r
  end.

(** The longest prefix of word characters, and what follows it. *)
Fixpoint word_prefix `{U : Unicodedata} (s : pystr) : pystr :=
  match s with
  | c :: r => if isword c then c :: word_prefix r else []
  | [] => []
  end.

Fixpoint word_suffix `{U : Unicodedata} (s : pystr) : pystr :=
  match s with
  | c :: r => if isword c then word_suffix r else s
  | [] => []
  end.

(* ===================================================================== *)
(** * A small character database: ASCII and the accented Latin-1 letters *)
(* ===================================================================== *)

Module Latin1.

(** Canonical decompositions of U+00C0..U+00FF: base letter and mark. *)
Definition decomposition (c : codepoint) : option (codepoint * codepoint) :=
  let up := if (224 <=? c) then c - 32 else c in
  let lo := if (224 <=? c) then 32 else 0 in
  if (c =? 255) then Some (121, 776)
  else if (192 <=? up) && (up <=? 197) then
    Some (65 + lo, List.nth (N.to_nat (up - 192)) [768; 769; 770; 771; 776; 778] 0)
  else if (up =? 199) then Some (67 + lo, 807)
  else if (200 <=? up) && (up <=? 203) then
    Some (69 + lo, List.nth (N.to_nat (up - 200)) [768; 769; 770; 776] 0)
  else if (204 <=? up) && (up <=? 207) then
    Some (73 + lo, List.nth (N.to_nat (up - 204)) [768; 769; 770; 776] 0)
  else if (up =? 209) then Some (78 + lo, 771)
  else if (210 <=? up) && (up <=? 214) then
    Some (79 + lo, List.nth (N.to_nat (up - 210)) [768; 769; 770; 771; 776] 0)
  else if (217 <=? up) && (up <=? 220) then
    Some (85 + lo, List.nth (N.to_nat (up - 217)) [768; 769; 770; 776] 0)
  else if (up =? 221) then Some (89 + lo, 769)
  else None.

Definition nfkd_char (c : codepoint) : pystr :=
  match decomposition c with
  | Some (b, m) => [b; m]
  | None => [c]
  end.

Definition decompose (s : pystr) : pystr := List.flat_map nfkd_char s.

(** Combining class of the marks U+0300..U+036F (cedilla and ogonek attach
    below, the others above); every other character is a starter. *)
Definition combining_class (c : codepoint) : N :=
  if (c =? 807) || (c =? 808) then 202
  else if (768 <=? c) && (c <=? 788) then 230
  else 0.

Definition lower_char (c : codepoint) : codepoint :=
  if is_AZ c then c + 32
  else if (192 <=? c) && (c <=? 222) && negb (c =? 215) then c + 32
  else c.

Definition to_lower (s : pystr) : pystr := List.map lower_char s.

Definition word_char (c : codepoint) : bool :=
  if is_ascii c then ascii_word c
  else ((192 <=? c) && (c <=? 255) && negb (c =? 215) && negb (c =? 247)).

End Latin1.

(* ===================================================================== *)
(** * Rows of the data frames *)
(* ===================================================================== *)

(** Timestamps are instants on the UTC time line; [None] is pandas' NaT.
    Missing values of the other columns (None, NaN) are [None] as well.
    Prices and goal lines are rationals, compared with [Qeq]: the rounding
    of the binary floats is not modelled. *)
Definition timestamp := Z.

(** A row of the fixtures frame, with the columns
    [get_upcoming_cl_matches] returns. *)
Record Fixture := {
  matchday : option Z;
  kickoff_local : option string;
  utcDate : option timestamp;
  home_team_id : option Z;
  home_team : option pystr;
  away_team_id : option Z;
  away_team : option pystr;
  stage : option string
}.

(** A row of the odds frame, one per outcome, as
    [fetch_champions_league_odds] flattens the payload. The columns
    home_team and away_team of that frame are [odds_home_team] and
    [odds_away_team] here. *)
Record OddsQuote := {
  event_id : option string;
  sport_key : option string;
  commence_time : option timestamp;
  odds_home_team : option pystr;
  odds_away_team : option pystr;
  bookmaker_key : option string;
  bookmaker_title : option string;
  bookmaker_last_update : option timestamp;
  market_key : string;
  outcome_name : option pystr;
  outcome_price : option Q;
  outcome_point : option Q;
  outcome_description : option string
}.

Definition notna {A} (x : option A) : bool :=
  match x with Some _ => true | None => false end.

(** Series.max() and Series.min(): missing values are skipped, and the
    result is missing when nothing is left. *)
Definition series_max (l : list Z) : option Z :=
  match l with
  | [] => None
  | x :: r => Some (fold_right Z.max x r)
  end.


(** The order [sort_values] sorts a timestamp column by: ascending, the
    missing values last. *)
Definition ts_le (a b : option timestamp) : bool :=
  match a, b with
  | Some x, Some y => (x <=? y)%Z
  | _, None => true
  | None, Some _ => false
  end.

Definition by_utcDate (a b : Fixture) : Prop := ts_le (utcDate a) (utcDate b) = true.

(* ===================================================================== *)
(** * Selection of the next round *)
(* ===================================================================== *)

Section Selection.

(** [strftime tz fmt t]: the instant [t], converted to the zone [tz] and
    printed with the format [fmt]. *)
Variable strftime : string -> string -> timestamp -> string.

(** [df.sort_values("utcDate")]. pandas sorts with an unstable quicksort
    by default, so the order among equal kick-off times is left open: the
    statements below hold for every function that returns its argument
    sorted. *)
Variable sort_values : list Fixture -> list Fixture.





End Selection.



#[global] Instance by_utcDate_dec (a b : Fixture) : Decision (by_utcDate a b) :=
  bool_eq_dec (ts_le (utcDate a) (utcDate b)) true.


(* ===================================================================== *)
(** * Exceptions and results *)
(* ===================================================================== *)

(** The exceptions the modelled code raises. [OddsAPIHTTPError] is a
    subclass of [OddsAPIError] ([is_OddsAPIError] below). *)
Inductive PyExn :=
| KeyError (msg : string)
| IndexError (msg : string)
| JSONDecodeError (doc : string)
| OddsAPIError (msg : string)
| OddsAPIHTTPError (msg : string) (status_code : option Z).

Inductive PyResult (A : Type) :=
| Returned (a : A)
| Raised (e : PyExn).
Arguments Returned {A} a.
Arguments Raised {A} e.

(* ===================================================================== *)
(** * Series helpers: sorting, distinct values, median *)
(* ===================================================================== *)

Fixpoint insert_by {A} (leb : A -> A -> bool) (x : A) (l : list A) : list A :=
  match l with
  | [] => [x]
  | y :: r => if leb x y then x :: l else y :: insert_by leb x r
  end.

Definition sort_by {A} (leb : A -> A -> bool) (l : list A) : list A :=
  fold_right (insert_by leb) [] l.

(** The distinct values, in order of first appearance. *)
Fixpoint nub_by {A} (eqb : A -> A -> bool) (l : list A) : list A :=
  match l with
  | [] => []
  | x :: r => x :: List.filter (fun y => negb (eqb x y)) (nub_by eqb r)
  end.

(** [Series.nunique()]: the number of distinct values, missing ones aside. *)
Definition nunique (l : list (option string)) : nat :=
  length (remove_dups (omap id l)).

(** Lexicographic order of two strings by code point. *)
Fixpoint pystr_leb (a b : pystr) : bool :=
  match a, b with
  | [], _ => true
  | _ :: _, [] => false
  | x :: a', y :: b' => (x <? y) || ((x =? y) && pystr_leb a' b')
  end.

Local Open Scope Q_scope.

(** [Series.median()] over the values present: the middle value of the
    sorted values, or the mean of the two middle ones; missing when there
    is no value. *)
Definition median (xs : list Q) : option Q :=
  let s := sort_by Qle_bool xs in
  let n := length s in
  match n with
  | O => None
  | _ =>
      if Nat.odd n then Some (nth (n / 2) s 0)
      else Some ((nth (n / 2 - 1) s 0 + nth (n / 2) s 0) / (2 # 1))
  end.


Local Close Scope Q_scope.

(** [df.groupby(key)[value].median()] as the list of its entries, and
    [Series.get]; a group without a value present has a missing median. *)
Definition groupby_median {R} (key : R -> string) (value : R -> option Q)
    (rows : list R) : list (string * option Q) :=
  List.map
    (fun k => (k, median (omap value (List.filter (fun r => bool_decide (key r = k)) rows))))
    (remove_dups (List.map key rows)).

Definition series_get (k : string) (s : list (string * option Q)) : option Q :=
  match List.find (fun p => bool_decide (p.1 = k)) s with
  | Some (_, v) => v
  | None => None
  end.

(* ===================================================================== *)
(** * The reconcilers *)
(* ===================================================================== *)

(** A row together with the two columns home_norm and away_norm. *)
Record Keyed (A : Type) := {
  row : A;
  home_norm : pystr;
  away_norm : pystr
}.
Arguments row {A} k.
Arguments home_norm {A} k.
Arguments away_norm {A} k.

(** A row of [merged]: the odds row with its keys, and the columns of the
    fixture it joined. *)
Definition Merged : Type := Keyed OddsQuote * Fixture.

(** The one row of the moneyline summary. A label without a median (no
    group, or no price in it) is [None]. *)
Record MoneylineRow := {
  Rodada : option Z;
  Fase : option string;
  Data_BR : option string;
  Partida : pystr;
  Casas_consideradas : nat;
  Atualizado_UTC : string;
  Mandante : option Q;
  Empate : option Q;
  Visitante : option Q
}.

(** A row of the totals table. [Over] and [Under] hold the cells of the
    columns so labelled, in column order: one column each unless several
    outcome names title-case to the same label. *)
Record TotalsRow := {
  tRodada : option Z;
  tFase : option string;
  tData_BR : option string;
  tPartida : pystr;
  Linha_gols : Q;
  Over : list (option Q);
  Under : list (option Q);
  tCasas_consideradas : nat;
  tAtualizado_UTC : string
}.

Section Reconciler.
Context `{U : Unicodedata}.
Variable strftime : string -> string -> timestamp -> string.

Definition with_norms {A} (home away : A -> option pystr) (r : A) : Keyed A :=
  {| row := r;
     home_norm := _normalize_team_name (home r);
     away_norm := _normalize_team_name (away r) |}.

Definition same_keys {A B} (a : Keyed A) (b : Keyed B) : bool :=
  bool_decide (home_norm a = home_norm b) && bool_decide (away_norm a = away_norm b).

(** [odds.merge(fixtures_subset, on=["home_norm", "away_norm"], how="inner")]:
    every odds row, in order, with every fixture row of the same keys. *)
Definition merge (odds : list (Keyed OddsQuote)) (fixtures : list (Keyed Fixture))
    : list Merged :=
  List.flat_map
    (fun o => List.map (fun f => (o, row f)) (List.filter (same_keys o) fixtures))
    odds.

Definition is_market (m : string) (q : OddsQuote) : bool :=
  bool_decide (market_key q = m).

(** [_map_outcome(row)] *)
Definition _map_outcome (r : Merged) : option string :=
  let outcome_norm := _normalize_team_name (outcome_name (row r.1)) in
  if bool_decide (outcome_norm = home_norm r.1) then Some "Mandante"
  else if bool_decide (outcome_norm = away_norm r.1) then Some "Visitante"
  else if bool_decide (outcome_norm ∈ [py "draw"; py "empate"]) then Some "Empate"
  else None.

(** [str(x)] inside the f-string of the column Partida. *)
Definition str_of_team (t : option pystr) : pystr :=
  match t with Some s => s | None => py "None" end.

Definition partida (f : Fixture) : pystr :=
  str_of_team (home_team f) ++ py " x " ++ str_of_team (away_team f).

Definition update_display (last_update : option timestamp) : string :=
  match last_update with
  | Some t => strftime "UTC" "%d/%m %H:%M" t
  | None => "-"
  end.

(** The rows of [merged] that got a label, with the label. *)
Definition labelled (merged : list Merged) : list (Merged * string) :=
  omap (fun r => pair r <$> _map_outcome r) merged.

(** The rows of [merged] for one market: the quotes of the market joined
    to the fixtures on the two keys. *)
Definition joined (market : string) (fixtures_df : list Fixture)
    (odds_df : list OddsQuote) : list Merged :=
  merge (List.map (with_norms odds_home_team odds_away_team)
           (List.filter (is_market market) odds_df))
        (List.map (with_norms home_team away_team) fixtures_df).

(** The dictionary [summary]: [merged] holds the labelled rows, and
    [match_info] is the first of them. *)
Definition summary (merged : list (Merged * string)) (match_info : Merged * string)
    : MoneylineRow :=
  let grouped := groupby_median snd (fun r => outcome_price (row r.1.1)) merged in
  let bookmaker_count := nunique (List.map (fun r => bookmaker_key (row r.1.1)) merged) in
  let last_update :=
    series_max (omap (fun r => bookmaker_last_update (row r.1.1)) merged) in
  {| Rodada := matchday match_info.1.2;
     Fase := stage match_info.1.2;
     Data_BR := kickoff_local match_info.1.2;
     Partida := partida match_info.1.2;
     Casas_consideradas := bookmaker_count;
     Atualizado_UTC := update_display last_update;
     Mandante := series_get "Mandante" grouped;
     Empate := series_get "Empate" grouped;
     Visitante := series_get "Visitante" grouped |}.

(** [build_moneyline_summary(fixtures_df, odds_df)] *)
Definition build_moneyline_summary (fixtures_df : list Fixture)
    (odds_df : list OddsQuote) : list MoneylineRow :=
  match fixtures_df, odds_df with
  | [], _ | _, [] => []
  | _, _ =>
      let fixtures := List.map (with_norms home_team away_team) fixtures_df in
      let odds := List.filter (is_market "h2h") odds_df in
      match odds with
      | [] => []
      | _ =>
          let odds := List.map (with_norms odds_home_team odds_away_team) odds in
          let merged := merge odds fixtures in
          match merged with
          | [] => []
          | _ =>
              let merged := labelled merged in
              match merged with
              | [] => []
              | match_info :: _ => [summary merged match_info]
              end
          end
      end
  end.

(** The rows of [merged] that enter the pivot: goal line and outcome name
    both present. *)
Definition point_and_name (r : Merged) : option (Q * pystr * Merged) :=
  match outcome_point (row r.1), outcome_name (row r.1) with
  | Some p, Some n => Some (p, n, r)
  | _, _ => None
  end.

Definition at_point (p : Q) (r : Merged) : bool :=
  match outcome_point (row r.1) with
  | Some p' => Qeq_bool p' p
  | None => false
  end.

(** A cell of the pivot: the median of the prices of the group, missing
    when the group does not exist or holds no price. *)
Definition pivot_cell (keyed : list (Q * pystr * Merged)) (p : Q) (n : pystr) : option Q :=
  median
    (omap (fun k => outcome_price (row k.2.1))
       (List.filter (fun k => Qeq_bool k.1.1 p && bool_decide (k.1.2 = n)) keyed)).

(** The goal lines of the pivot, ascending, and its outcome columns,
    sorted by name. *)
Definition pivot_lines (keyed : list (Q * pystr * Merged)) : list Q :=
  sort_by Qle_bool (nub_by Qeq_bool (List.map (fun k => k.1.1) keyed)).

Definition pivot_names (keyed : list (Q * pystr * Merged)) : list pystr :=
  sort_by pystr_leb (remove_dups (List.map (fun k => k.1.2) keyed)).

(** The columns of the pivot that carry the label after the renaming. *)
Definition titled (label : string) (names : list pystr) : list pystr :=
  List.filter (fun n => bool_decide (title n = py label)) names.

(** The row of [ordered] for the goal line [p]. *)
Definition totals_row (merged : list Merged) (match_row : Merged) (p : Q) : TotalsRow :=
  let keyed := omap point_and_name merged in
  let names := pivot_names keyed in
  let counts :=
    nunique (List.map (fun r => bookmaker_key (row r.1))
               (List.filter (at_point p) merged)) in
  let last_update :=
    series_max (omap (fun r => bookmaker_last_update (row r.1))
                  (List.filter (at_point p) merged)) in
  {| tRodada := matchday match_row.2;
     tFase := stage match_row.2;
     tData_BR := kickoff_local match_row.2;
     tPartida := partida match_row.2;
     Linha_gols := p;
     Over := List.map (pivot_cell keyed p) (titled "Over" names);
     Under := List.map (pivot_cell keyed p) (titled "Under" names);
     tCasas_consideradas := counts;
     tAtualizado_UTC := update_display last_update |}.

Definition by_line (a b : TotalsRow) : bool := Qle_bool (Linha_gols a) (Linha_gols b).

(** [build_totals_table(fixtures_df, odds_df)]; selecting a column that the
    pivot does not have raises [KeyError]. *)
Definition build_totals_table (fixtures_df : list Fixture)
    (odds_df : list OddsQuote) : PyResult (list TotalsRow) :=
  match fixtures_df, odds_df with
  | [], _ | _, [] => Returned []
  | _, _ =>
      let fixtures := List.map (with_norms home_team away_team) fixtures_df in
      let odds := List.filter (is_market "totals") odds_df in
      match odds with
      | [] => Returned []
      | _ =>
          let odds := List.map (with_norms odds_home_team odds_away_team) odds in
          let merged := merge odds fixtures in
          match merged with
          | [] => Returned []
          | match_row :: _ =>
              let keyed := omap point_and_name merged in
              let lines := pivot_lines keyed in
              let names := pivot_names keyed in
              match lines with
              | [] => Returned []
              | _ =>
                  match titled "Over" names, titled "Under" names with
                  | [], [] => Raised (KeyError "['Over', 'Under'] not in index")
                  | [], _ => Raised (KeyError "['Over'] not in index")
                  | _, [] => Raised (KeyError "['Under'] not in index")
                  | _, _ =>
                      let ordered := List.map (totals_row merged match_row) lines in
                      Returned (sort_by by_line ordered)
                  end
              end
          end
      end
  end.

End Reconciler.

(** ** Frames whose names are ASCII text *)

Definition ascii_name (n : option pystr) : bool :=
  match n with Some s => forallb is_ascii s | None => true end.

Definition ascii_fixture (f : Fixture) : bool :=
  ascii_name (home_team f) && ascii_name (away_team f).

Definition ascii_quote (q : OddsQuote) : bool :=
  ascii_name (odds_home_team q) && ascii_name (odds_away_team q)
  && ascii_name (outcome_name q).

(** The part of [build_totals_table] after the join. *)
Definition totals_table_of `{U : Unicodedata}
    (strftime : string -> string -> timestamp -> string)
    (merged : list Merged) : PyResult (list TotalsRow) :=
  match merged with
  | [] => Returned []
  | match_row :: _ =>
      let keyed := omap point_and_name merged in
      match pivot_lines keyed with
      | [] => Returned []
      | _ =>
          match titled "Over" (pivot_names keyed), titled "Under" (pivot_names keyed) with
          | [], [] => Raised (KeyError "['Over', 'Under'] not in index")
          | [], _ => Raised (KeyError "['Over'] not in index")
          | _, [] => Raised (KeyError "['Under'] not in index")
          | _, _ =>
              Returned
                (sort_by by_line
                   (List.map (totals_row strftime merged match_row) (pivot_lines keyed)))
          end
      end
  end.


(* ===================================================================== *)
(** * Sample frames *)
(* ===================================================================== *)

(** A clock for the examples: an instant is printed as its count. *)
Definition strftime_count (tz fmt : string) (t : timestamp) : string := pretty t.

(** An odds row of the event "Barcelona" against "Milan". *)
Definition quote (bookmaker : string) (updated : Z) (market name : string)
    (price : Q) (point : option Q) : OddsQuote :=
  {| event_id := Some "e1";
     sport_key := Some "soccer_uefa_champions_league";
     commence_time := Some 1000%Z;
     odds_home_team := Some (py "Barcelona");
     odds_away_team := Some (py "Milan");
     bookmaker_key := Some bookmaker;
     bookmaker_title := Some bookmaker;
     bookmaker_last_update := Some updated;
     market_key := market;
     outcome_name := Some (py name);
     outcome_price := Some price;
     outcome_point := point;
     outcome_description := None |}.

(** The same row as the provider would report it with the sides reversed. *)
Definition swap_sides (q : OddsQuote) : OddsQuote :=
  {| event_id := event_id q;
     sport_key := sport_key q;
     commence_time := commence_time q;
     odds_home_team := odds_away_team q;
     odds_away_team := odds_home_team q;
     bookmaker_key := bookmaker_key q;
     bookmaker_title := bookmaker_title q;
     bookmaker_last_update := bookmaker_last_update q;
     market_key := market_key q;
     outcome_name := outcome_name q;
     outcome_price := outcome_price q;
     outcome_point := outcome_point q;
     outcome_description := outcome_description q |}.

Definition barcelona_milan : Fixture :=
  {| matchday := Some 2%Z; kickoff_local := Some "01/10 16:00"; utcDate := Some 1000%Z;
     home_team_id := Some 81%Z; home_team := Some (py "FC Barcelona");
     away_team_id := Some 98%Z; away_team := Some (py "AC Milan");
     stage := Some "LEAGUE_STAGE" |}.

(** Three bookmakers on the moneyline; the home win is at 1.80, 1.90, 2.00. *)
Definition three_bookmakers : list OddsQuote :=
  [ quote "pinnacle" 500 "h2h" "Barcelona" (180 # 100)%Q None;
    quote "pinnacle" 500 "h2h" "Milan" (420 # 100)%Q None;
    quote "pinnacle" 500 "h2h" "Draw" (350 # 100)%Q None;
    quote "betfair" 700 "h2h" "Barcelona" (200 # 100)%Q None;
    quote "betfair" 700 "h2h" "Milan" (400 # 100)%Q None;
    quote "betfair" 700 "h2h" "Draw" (360 # 100)%Q None;
    quote "unibet" 600 "h2h" "Barcelona" (190 # 100)%Q None;
    quote "unibet" 600 "h2h" "Milan" (410 # 100)%Q None;
    quote "unibet" 600 "h2h" "Over" (190 # 100)%Q None ].

(** Totals at the goal lines 3.5 and 2.5, Over and Under at each. *)
Definition two_lines : list OddsQuote :=
  [ quote "pinnacle" 500 "totals" "Over" (260 # 100)%Q (Some (35 # 10)%Q);
    quote "pinnacle" 500 "totals" "Under" (150 # 100)%Q (Some (35 # 10)%Q);
    quote "pinnacle" 500 "totals" "Over" (185 # 100)%Q (Some (25 # 10)%Q);
    quote "pinnacle" 500 "totals" "Under" (195 # 100)%Q (Some (25 # 10)%Q);
    quote "betfair" 700 "totals" "Over" (187 # 100)%Q (Some (25 # 10)%Q);
    quote "betfair" 700 "totals" "Under" (193 # 100)%Q (Some (25 # 10)%Q) ].

(** A single totals quote: only the Over side of the line 2.5. *)
Definition over_only : list OddsQuote :=
  [ quote "pinnacle" 500 "totals" "Over" (185 # 100)%Q (Some (25 # 10)%Q) ].

(* ===================================================================== *)
(** * The debug view of the odds matching *)
(* ===================================================================== *)

(** A row of the per-event overview. *)
Record OverviewRow := {
  ov_event_id : string;
  ov_commence_time : option timestamp;
  ov_home_team : option pystr;
  ov_away_team : option pystr;
  ov_markets : string;
  ov_bookmakers : nat;
  ov_home_norm : pystr;
  ov_away_norm : pystr
}.

(** What the debug panel shows for the selected fixture. *)
Inductive DebugView :=
| SwappedFound (rows : list OverviewRow)
| NoCoverage
| ExactFound (rows : list OverviewRow).

(** GroupBy.first(): the first value present in the group. *)
Definition first_notna {A} (l : list (option A)) : option A := head (omap id l).

Section Overview.
Context `{U : Unicodedata}.

Definition of_event (e : string) (q : OddsQuote) : bool :=
  bool_decide (event_id q = Some e).

(** [_build_odds_overview(odds_df)]: one row per event id. *)
Definition _build_odds_overview (odds_df : list OddsQuote) : list OverviewRow :=
  match odds_df with
  | [] => []
  | _ =>
      List.map
        (fun e =>
           let x := List.filter (of_event e) odds_df in
           let home := first_notna (List.map odds_home_team x) in
           let away := first_notna (List.map odds_away_team x) in
           {| ov_event_id := e;
              ov_commence_time := series_max (omap commence_time x);
              ov_home_team := home;
              ov_away_team := away;
              ov_markets :=
                String.concat ", " (sort_by String.leb (remove_dups (List.map market_key x)));
              ov_bookmakers := nunique (List.map bookmaker_key x);
              ov_home_norm := _normalize_team_name home;
              ov_away_norm := _normalize_team_name away |})
        (sort_by String.leb (remove_dups (omap event_id odds_df)))
  end.

(** The two look-ups of the debug block: the overview rows with the keys
    of the fixture, and those with the keys reversed. *)
Definition exact_lookup (fixture_row : Fixture) (odds_overview : list OverviewRow)
    : list OverviewRow :=
  let fixture_home := _normalize_team_name (home_team fixture_row) in
  let fixture_away := _normalize_team_name (away_team fixture_row) in
  List.filter
    (fun r => bool_decide (ov_home_norm r = fixture_home)
              && bool_decide (ov_away_norm r = fixture_away))
    odds_overview.

Definition swapped_lookup (fixture_row : Fixture) (odds_overview : list OverviewRow)
    : list OverviewRow :=
  let fixture_home := _normalize_team_name (home_team fixture_row) in
  let fixture_away := _normalize_team_name (away_team fixture_row) in
  List.filter
    (fun r => bool_decide (ov_home_norm r = fixture_away)
              && bool_decide (ov_away_norm r = fixture_home))
    odds_overview.

(** The block under [if DEBUG_ODDS and not odds_overview.empty]. *)
Definition debug_odds_matching (fixture_row : Fixture)
    (odds_overview : list OverviewRow) : option DebugView :=
  match odds_overview with
  | [] => None
  | _ =>
      let exact := exact_lookup fixture_row odds_overview in
      let swapped := swapped_lookup fixture_row odds_overview in
      Some match exact, swapped with
           | [], _ :: _ => SwappedFound swapped
           | [], [] => NoCoverage
           | _ :: _, _ => ExactFound exact
           end
  end.

(** A quote names the sides of the fixture in the same order. *)
Definition exact_match (f : Fixture) (q : OddsQuote) : bool :=
  bool_decide (_normalize_team_name (odds_home_team q) = _normalize_team_name (home_team f))
  && bool_decide (_normalize_team_name (odds_away_team q) = _normalize_team_name (away_team f)).

(** A quote names the sides of the fixture in the reverse order. *)
Definition swapped_match (f : Fixture) (q : OddsQuote) : bool :=
  bool_decide (_normalize_team_name (odds_home_team q) = _normalize_team_name (away_team f))
  && bool_decide (_normalize_team_name (odds_away_team q) = _normalize_team_name (home_team f)).

End Overview.

(** A quote that names the sides of the fixture only in the reverse order. *)
Definition swapped_only `{U : Unicodedata} (f : Fixture) (q : OddsQuote) : bool :=
  swapped_match f q && negb (exact_match f q).

(* ===================================================================== *)
(** * The odds client: requests, retries and the 422 fallback *)
(* ===================================================================== *)

Definition is_OddsAPIError (e : PyExn) : bool :=
  match e with
  | OddsAPIError _ | OddsAPIHTTPError _ _ => true
  | _ => false
  end.

(** The text of an exception, [str(exc)]. *)
Definition message (e : PyExn) : string :=
  match e with
  | KeyError m | IndexError m | JSONDecodeError m | OddsAPIError m | OddsAPIHTTPError m _ => m
  end.

(** The payload of the odds endpoint, decoded; the time stamps are already
    parsed ([pd.to_datetime] with errors="coerce"). *)
Record OutcomeJson := {
  o_name : option pystr;
  o_price : option Q;
  o_point : option Q;
  o_description : option string
}.

Record MarketJson := {
  m_key : option string;
  m_outcomes : list OutcomeJson
}.

Record BookmakerJson := {
  b_key : option string;
  b_title : option string;
  b_last_update : option timestamp;
  b_markets : list MarketJson
}.

Record EventJson := {
  e_id : option string;
  e_sport_key : option string;
  e_commence_time : option timestamp;
  e_home_team : option pystr;
  e_away_team : option pystr;
  e_bookmakers : list BookmakerJson
}.

(** What [response.json()] gives. For an object, [j_message] and [j_error]
    are its "message" and "error" entries as text (empty when absent or
    falsy) and [j_str] is [str(payload)]. *)
Inductive JsonBody :=
| JObject (j_message j_error j_str : string)
| JArray (payload : list EventJson)
| JScalar (j_str : string)
| JInvalid.

Record Response := {
  status_code : Z;
  text : string;
  json : JsonBody;
  (** [str()] of the [HTTPError] that [raise_for_status] builds *)
  error_line : string;
  x_requests_remaining : option string;
  x_requests_used : option string;
  x_requests_last : option string
}.

(** What one [requests.get] leads to. *)
Inductive HttpOutcome :=
| Responded (r : Response)
| HTTPErrorWithoutResponse (str_exc : string)
| RequestException (str_exc : string).

Record OddsAPIMeta := {
  requests_remaining : option Z;
  requests_used : option Z;
  requests_last : option Z
}.

Record Settings := {
  ODDS_API_KEY : string;
  ODDS_API_BASE_URL : string;
  ODDS_API_SPORT_KEY : string
}.

(** What the program does to the outside, in order. [CallFetch] marks an
    entry into [fetch_champions_league_odds]. *)
Inductive IOEvent :=
| CallFetch (markets : list string)
| HttpGet (url : string) (params : gmap string string)
| Sleep (seconds : Z).

(** Computations that act on a state and may raise: the state goes in, the
    result or the exception comes out with the state as the computation
    left it. *)
Definition Eff (S A : Type) : Type := S -> PyResult A * S.

Definition ret {S A} (a : A) : Eff S A := fun s => (Returned a, s).
Definition raise {S A} (e : PyExn) : Eff S A := fun s => (Raised e, s).

Definition bind {S A B} (c : Eff S A) (k : A -> Eff S B) : Eff S B :=
  fun s =>
    match c s with
    | (Returned a, s') => k a s'
    | (Raised e, s') => (Raised e, s')
    end.

(** [try: c except: handler]; the handler re-raises what it does not take. *)
Definition try_except {S A} (c : Eff S A) (handler : PyExn -> Eff S A) : Eff S A :=
  fun s =>
    match c s with
    | (Returned a, s') => (Returned a, s')
    | (Raised e, s') => handler e s'
    end.

(** Computations that act on the outside: the state is the trace so far. *)
Definition IO (A : Type) : Type := Eff (list IOEvent) A.

Definition emit (ev : IOEvent) : IO unit := fun tr => (Returned tt, tr ++ [ev]).

Declare Scope io_scope.
Delimit Scope io_scope with io.
Notation "x <- c ;; k" := (bind c (fun x => k))
  (at level 100, c at next level, right associativity) : io_scope.
Notation "c ;;; k" := (bind c (fun _ => k))
  (at level 100, right associativity) : io_scope.

Definition MAX_RETRIES : nat := 3.
Definition RETRY_DELAY_SECONDS : Z := 2.

Definition is_request (ev : IOEvent) : bool :=
  match ev with HttpGet _ _ => true | _ => false end.

Definition is_fetch (ev : IOEvent) : bool :=
  match ev with CallFetch _ => true | _ => false end.

Definition is_sleep (ev : IOEvent) : bool :=
  match ev with Sleep _ => true | _ => false end.

(** The number of requests sent so far. *)
Definition requests_made (tr : list IOEvent) : nat := length (List.filter is_request tr).

(** [x or y] on strings. *)
Definition str_or (x y : string) : string :=
  if bool_decide (x = "") then y else x.

(** [s.rstrip("/")] *)
Fixpoint rstrip_slash (s : string) : string :=
  match s with
  | EmptyString => EmptyString
  | String c r =>
      match rstrip_slash r with
      | EmptyString => if bool_decide (c = "/"%char) then EmptyString else String c EmptyString
      | r' => String c r'
      end
  end.

(** What a loop iteration ends with: [continue], or the end of the call. *)
Inductive Step (A : Type) :=
| Continue
| Done (a : A).
Arguments Continue {A}.
Arguments Done {A} a.

Section OddsApi.

(** [int(value)] of Python, [None] when it raises ValueError. *)
Variable py_int : string -> option Z.

Variable settings : Settings.

(** The network: the outcome of the request number [n] (from 0). *)
Variable net : nat -> string -> gmap string string -> HttpOutcome.

Definition BASE_URL : string := rstrip_slash (ODDS_API_BASE_URL settings).

Definition _safe_int (value : option string) : option Z :=
  match value with
  | None => None
  | Some v => py_int v
  end.

Definition _build_meta (r : Response) : OddsAPIMeta :=
  {| requests_remaining := _safe_int (x_requests_remaining r);
     requests_used := _safe_int (x_requests_used r);
     requests_last := _safe_int (x_requests_last r) |}.

Definition _error_detail (response : option Response) : string :=
  match response with
  | None => ""
  | Some r =>
      match json r with
      | JObject m e s => str_or m (str_or e s)
      | _ => text r
      end
  end.

(** [requests.get(url, params=merged_params, timeout=30)] *)
Definition requests_get (url : string) (params : gmap string string) : IO HttpOutcome :=
  fun tr => (Returned (net (requests_made tr) url params), tr ++ [HttpGet url params]).

Definition sleep (seconds : Z) : IO unit := emit (Sleep seconds).

Definition retried_status (status : option Z) : bool :=
  bool_decide (status ∈ [Some 429; Some 500; Some 502; Some 503; Some 504]%Z).

(** The exception the [except requests.HTTPError] clause raises when it
    does not retry. *)
Definition http_error (response : option Response) (str_exc : string) : PyExn :=
  let status := status_code <$> response in
  let detail := _error_detail response in
  if bool_decide (status = Some 404%Z) then
    OddsAPIHTTPError
      "Esporte n?o encontrado (404). Verifique se ODDS_API_SPORT_KEY est? correto ou ativo na Odds API."
      status
  else if bool_decide (status = Some 422%Z) then
    OddsAPIHTTPError ("Par?metros inv?lidos (422) ao consultar a Odds API: " ++ detail) status
  else
    OddsAPIHTTPError ("Falha ao consultar a Odds API: " ++ str_or detail str_exc) status.

(** The [except requests.HTTPError] clause. *)
Definition on_HTTPError (attempts : nat) (response : option Response) (str_exc : string)
    : IO (Step (list EventJson * OddsAPIMeta)) :=
  let status := status_code <$> response in
  if retried_status status && (attempts <=? MAX_RETRIES)%nat then
    (sleep (RETRY_DELAY_SECONDS * Z.of_nat attempts) ;;; ret Continue)%io
  else raise (http_error response str_exc).

(** One pass through the body of [while True], [attempts] already
    incremented. *)
Definition attempt (url : string) (merged_params : gmap string string) (attempts : nat)
    : IO (Step (list EventJson * OddsAPIMeta)) :=
  (outcome <- requests_get url merged_params ;;
   match outcome with
   | Responded resp =>
       if ((400 <=? status_code resp) && (status_code resp <? 600))%Z then
         on_HTTPError attempts (Some resp) (error_line resp)
       else
         match json resp with
         | JInvalid => raise (JSONDecodeError (text resp))
         | JArray payload => ret (Done (payload, _build_meta resp))
         | JObject _ _ s | JScalar s =>
             raise (OddsAPIError ("Resposta inesperada da Odds API: " ++ s))
         end
   | HTTPErrorWithoutResponse str_exc => on_HTTPError attempts None str_exc
   | RequestException str_exc =>
       if (attempts <=? MAX_RETRIES)%nat then
         sleep (RETRY_DELAY_SECONDS * Z.of_nat attempts) ;;; ret Continue
       else raise (OddsAPIError ("Falha ao consultar a Odds API: " ++ str_exc))
   end)%io.

(** A pass continues only while [attempts <= MAX_RETRIES]. *)
Lemma on_HTTPError_continues attempts response str_exc tr tr' :
  on_HTTPError attempts response str_exc tr = (Returned Continue, tr') ->
  (attempts <= MAX_RETRIES)%nat.
Proof.
  unfold on_HTTPError.
  destruct (retried_status (status_code <$> response)); cbn [andb]; [|discriminate].
  destruct (Nat.leb_spec attempts MAX_RETRIES) as [H|H]; [auto | discriminate].
Qed.

Lemma attempt_continues url merged_params attempts tr tr' :
  attempt url merged_params attempts tr = (Returned Continue, tr') ->
  (attempts <= MAX_RETRIES)%nat.
Proof.
  unfold attempt, bind, requests_get.
  destruct (net _ url merged_params) as [resp|str_exc|str_exc].
  - destruct ((400 <=? status_code resp)%Z && (status_code resp <? 600)%Z).
    + apply on_HTTPError_continues.
    + destruct (json resp); discriminate.
  - apply on_HTTPError_continues.
  - destruct (Nat.leb_spec attempts MAX_RETRIES) as [H|H]; [auto | discriminate].
Qed.

(** The [while True] loop, from the state in which [attempts] passes have
    been made. It ends because a pass continues only while
    [attempts <= MAX_RETRIES]. *)
Equations? _get_loop (url : string) (merged_params : gmap string string)
    (attempts : nat) (tr : list IOEvent)
    : PyResult (list EventJson * OddsAPIMeta) * list IOEvent
    by wf (S MAX_RETRIES - attempts)%nat lt :=
_get_loop url merged_params attempts tr
    with inspect (attempt url merged_params (S attempts) tr) := {
  | exist _ (Returned Continue, tr') H => _get_loop url merged_params (S attempts) tr';
  | exist _ (Returned (Done r), tr') H => (Returned r, tr');
  | exist _ (Raised e, tr') H => (Raised e, tr') }.
Proof. apply attempt_continues in H. unfold MAX_RETRIES in *. lia. Qed.

(** [merged_params]: the parameters with the key added. *)
Definition with_api_key (params : gmap string string) : gmap string string :=
  <["apiKey" := ODDS_API_KEY settings]> params.

(** [_get(path, params)] *)
Definition _get (path : string) (params : gmap string string)
    : IO (list EventJson * OddsAPIMeta) :=
  if bool_decide (ODDS_API_KEY settings = "") then
    raise (OddsAPIError "ODDS_API_KEY n?o configurada. Atualize o arquivo .env.")
  else
    let url := (BASE_URL ++ path)%string in
    let merged_params := with_api_key params in
    _get_loop url merged_params 0.

(** ** The loop in closed form *)

(** An outcome after which a pass continues, while retries are left. *)
Definition transient (o : HttpOutcome) : bool :=
  match o with
  | Responded r =>
      ((400 <=? status_code r) && (status_code r <? 600))%Z
      && retried_status (Some (status_code r))
  | HTTPErrorWithoutResponse _ => false
  | RequestException _ => true
  end.

(** What the last pass of a call ends with. *)
Definition final (o : HttpOutcome) : PyResult (list EventJson * OddsAPIMeta) :=
  match o with
  | Responded resp =>
      if ((400 <=? status_code resp) && (status_code resp <? 600))%Z then
        Raised (http_error (Some resp) (error_line resp))
      else
        match json resp with
        | JInvalid => Raised (JSONDecodeError (text resp))
        | JArray payload => Returned (payload, _build_meta resp)
        | JObject _ _ s | JScalar s =>
            Raised (OddsAPIError ("Resposta inesperada da Odds API: " ++ s))
        end
  | HTTPErrorWithoutResponse str_exc => Raised (http_error None str_exc)
  | RequestException str_exc =>
      Raised (OddsAPIError ("Falha ao consultar a Odds API: " ++ str_exc))
  end.

(** The number of retries of a call whose first request is the request
    number [n]: the transient outcomes in a row from there, [budget] at most. *)
Fixpoint retries (url : string) (merged_params : gmap string string)
    (budget : nat) (n : nat) : nat :=
  match budget with
  | O => O
  | S b =>
      if transient (net n url merged_params)
      then S (retries url merged_params b (S n))
      else O
  end.

End OddsApi.

(** The requests and sleeps of [k] retries after [attempts] passes: the
    sleep after the pass number [i] lasts [RETRY_DELAY_SECONDS * i]. *)
Fixpoint retries_trace (url : string) (merged_params : gmap string string)
    (attempts k : nat) : list IOEvent :=
  match k with
  | O => []
  | S k' =>
      HttpGet url merged_params
        :: Sleep (RETRY_DELAY_SECONDS * Z.of_nat (S attempts))
        :: retries_trace url merged_params (S attempts) k'
  end.

(** The text [needle] occurs in [s]. *)
Definition occurs_in (needle s : string) : bool :=
  match String.index 0 needle s with Some _ => true | None => false end.

(* ===================================================================== *)
(** * The odds loader and the totals section of the page *)
(* ===================================================================== *)

Section OddsLoader.
Variable py_int : string -> option Z.
Variable settings : Settings.
Variable net : nat -> string -> gmap string string -> HttpOutcome.

(** The rows appended to [records] for one event of the payload. *)
Definition records_of_event (event : EventJson) : list OddsQuote :=
  bookmaker ← e_bookmakers event;
  market ← b_markets bookmaker;
  match m_key market with
  | None => []
  | Some market_key =>
      (fun outcome =>
         {| event_id := e_id event;
            sport_key := e_sport_key event;
            commence_time := e_commence_time event;
            odds_home_team := e_home_team event;
            odds_away_team := e_away_team event;
            bookmaker_key := b_key bookmaker;
            bookmaker_title := b_title bookmaker;
            bookmaker_last_update := b_last_update bookmaker;
            market_key := market_key;
            outcome_name := o_name outcome;
            outcome_price := o_price outcome;
            outcome_point := o_point outcome;
            outcome_description := o_description outcome |})
      <$> m_outcomes market
  end.

(** The dictionary [params] of the odds request. *)
Definition odds_params (regions : string) (markets : list string) : gmap string string :=
  let markets_param :=
    match markets with
    | [] => "h2h"
    | _ => String.concat "," markets
    end in
  <["dateFormat" := "iso"]> (<["oddsFormat" := "decimal"]>
    (<["markets" := markets_param]> (<["regions" := regions]> ∅))).

Definition odds_path : string :=
  ("/sports/" ++ ODDS_API_SPORT_KEY settings ++ "/odds/")%string.

(** [fetch_champions_league_odds(regions=regions, markets=markets)], the
    other arguments at their defaults; no markets is [[]]. *)
Definition fetch_champions_league_odds (regions : string) (markets : list string)
    : IO (list OddsQuote * OddsAPIMeta) :=
  (emit (CallFetch markets) ;;;
   r <- _get py_int settings net odds_path (odds_params regions markets) ;;
   ret (payload ← r.1; records_of_event payload, r.2))%io.

(** [get_cl_odds_data()] (the cache decorator aside). *)
Definition get_cl_odds_data : IO (list OddsQuote * OddsAPIMeta * list string) :=
  let requested_markets := ["h2h"; "totals"] in
  try_except
    (r <- fetch_champions_league_odds "eu" requested_markets ;;
     ret (r.1, r.2, requested_markets))%io
    (fun exc =>
       match exc with
       | OddsAPIHTTPError _ status_code =>
           if bool_decide (status_code = Some 422%Z) && (1 <? length requested_markets)%nat
           then
             let fallback_markets := ["h2h"] in
             (r <- fetch_champions_league_odds "eu" fallback_markets ;;
              ret (r.1, r.2, fallback_markets))%io
           else raise exc
       | _ => raise exc
       end).

End OddsLoader.

(** What the section "Totais de gols" of the page shows. *)
Inductive TotalsSection :=
| MarketUnavailable
| NoLinesYet
| TotalsTable (rows : list TotalsRow).

(** The section of the page under [totals_enabled]. *)
Definition totals_section `{U : Unicodedata}
    (strftime : string -> string -> timestamp -> string)
    (used_markets : list string) (selected_fixture_df : list Fixture)
    (odds_raw_df : list OddsQuote) : PyResult TotalsSection :=
  let totals_enabled := bool_decide ("totals" ∈ used_markets) in
  if negb totals_enabled then Returned MarketUnavailable
  else
    match build_totals_table strftime selected_fixture_df odds_raw_df with
    | Raised e => Raised e
    | Returned [] => Returned NoLinesYet
    | Returned rows => Returned (TotalsTable rows)
    end.

(** ** A sample server *)

Definition sample_settings : Settings :=
  {| ODDS_API_KEY := "k3y";
     ODDS_API_BASE_URL := "https://api.the-odds-api.com/v4/";
     ODDS_API_SPORT_KEY := "soccer_uefa_champions_league" |}.

Definition error_response (status : Z) (detail : string) : Response :=
  {| status_code := status;
     text := "{...}";
     json := JObject detail "" "{...}";
     error_line := "HTTP error";
     x_requests_remaining := None;
     x_requests_used := None;
     x_requests_last := None |}.

Definition ok_response (payload : list EventJson) : Response :=
  {| status_code := 200;
     text := "[...]";
     json := JArray payload;
     error_line := "";
     x_requests_remaining := Some "499";
     x_requests_used := Some "1";
     x_requests_last := Some "1" |}.

(** A server that answers the first request with the status and detail
    given, and every later one with an empty list of events. *)
Definition fails_once (status : Z) (detail : string)
    (n : nat) (url : string) (params : gmap string string) : HttpOutcome :=
  match n with
  | O => Responded (error_response status detail)
  | S _ => Responded (ok_response [])
  end.

(** A server that refuses the totals market: 422 whenever the markets
    parameter is not "h2h". *)
Definition rejects_totals (n : nat) (url : string) (params : gmap string string)
    : HttpOutcome :=
  if bool_decide (params !! "markets" = Some "h2h")
  then Responded (ok_response [])
  else Responded (error_response 422 "Invalid market").

Definition no_int (s : string) : option Z := None.

(* ===================================================================== *)
(** * The reconcilers on frames that live in a store *)
(* ===================================================================== *)

(** The pure functions above take the rows of their frames. In the source
    the frames are objects: [df[c] = v] changes the object [df] for everyone
    who holds it, while [copy], a boolean mask, a selection of columns,
    [rename], [drop], [merge] and [sort_values] build a new object. Here the
    frames live in a store, the functions take and return locations, and each
    statement of the source is one operation on the store. *)

(** A column a frame may or may not have. *)
Definition Column (A : Type) : Type := option (list A).

(** The columns assigned to the pivot of the totals table; a scalar fills
    its column. *)
Record PivotColumns := {
  cRodada : option (option Z);
  cFase : option (option string);
  cData_BR : option (option string);
  cPartida : option pystr;
  cCasas_consideradas : Column nat;
  cAtualizado_UTC : Column string
}.

Definition not_assigned : PivotColumns :=
  {| cRodada := None; cFase := None; cData_BR := None; cPartida := None;
     cCasas_consideradas := None; cAtualizado_UTC := None |}.

(** The frames the two reconcilers meet, by their columns. A frame of
    fixtures or of quotes may have got its two key columns. The subset of the
    fixtures and the quotes without their team columns have both keys; the
    rows of the subset keep the fields that the selection leaves out, which
    nothing reads from then on. The pivot has a row for each goal line, with
    the cells of its outcome columns in the order of [columns]. *)
Inductive DataFrame :=
| NoColumns
| Fixtures (rows : list Fixture) (home_norm away_norm : Column pystr)
| Quotes (rows : list OddsQuote) (home_norm away_norm : Column pystr)
| FixturesSubset (rows : list (Keyed Fixture))
| KeyedQuotes (rows : list (Keyed OddsQuote))
| MergedFrame (rows : list Merged) (outcome_label : Column (option string))
| SummaryFrame (rows : list MoneylineRow)
| Pivot (columns : list pystr) (rows : list (Q * list (option Q)))
        (assigned : PivotColumns)
| Ordered (rows : list TotalsRow).

Definition loc := nat.
Definition Store := list DataFrame.

Definition is_nil {A} (l : list A) : bool :=
  match l with [] => true | _ => false end.

(** [df.empty] *)
Definition is_empty (f : DataFrame) : bool :=
  match f with
  | NoColumns => true
  | Fixtures rows _ _ => is_nil rows
  | Quotes rows _ _ => is_nil rows
  | FixturesSubset rows => is_nil rows
  | KeyedQuotes rows => is_nil rows
  | MergedFrame rows _ => is_nil rows
  | SummaryFrame rows => is_nil rows
  | Pivot columns rows _ => is_nil columns || is_nil rows
  | Ordered rows => is_nil rows
  end.

(** The rows that a boolean mask keeps. *)
Fixpoint mask {A} (keep : list bool) (l : list A) : list A :=
  match keep, l with
  | b :: keep, x :: l => if b then x :: mask keep l else mask keep l
  | _, _ => []
  end.

Definition keyed_rows {A} (rows : list A) (home away : list pystr) : list (Keyed A) :=
  zip_with (fun r k => {| row := r; home_norm := k.1; away_norm := k.2 |})
    rows (zip home away).

(** The [KeyError] of a selection that names columns the frame lacks. *)
Definition not_in_index (missing : list string) : PyExn :=
  KeyError ("[" ++ String.concat ", " (List.map (fun c => "'" ++ c ++ "'") missing)
              ++ "] not in index")%string.

Definition with_Rodada (v : option Z) (a : PivotColumns) : PivotColumns :=
  {| cRodada := Some v; cFase := cFase a; cData_BR := cData_BR a;
     cPartida := cPartida a; cCasas_consideradas := cCasas_consideradas a;
     cAtualizado_UTC := cAtualizado_UTC a |}.

Definition with_Fase (v : option string) (a : PivotColumns) : PivotColumns :=
  {| cRodada := cRodada a; cFase := Some v; cData_BR := cData_BR a;
     cPartida := cPartida a; cCasas_consideradas := cCasas_consideradas a;
     cAtualizado_UTC := cAtualizado_UTC a |}.

Definition with_Data_BR (v : option string) (a : PivotColumns) : PivotColumns :=
  {| cRodada := cRodada a; cFase := cFase a; cData_BR := Some v;
     cPartida := cPartida a; cCasas_consideradas := cCasas_consideradas a;
     cAtualizado_UTC := cAtualizado_UTC a |}.

Definition with_Partida (v : pystr) (a : PivotColumns) : PivotColumns :=
  {| cRodada := cRodada a; cFase := cFase a; cData_BR := cData_BR a;
     cPartida := Some v; cCasas_consideradas := cCasas_consideradas a;
     cAtualizado_UTC := cAtualizado_UTC a |}.

Definition with_Casas_consideradas (v : list nat) (a : PivotColumns) : PivotColumns :=
  {| cRodada := cRodada a; cFase := cFase a; cData_BR := cData_BR a;
     cPartida := cPartida a; cCasas_consideradas := Some v;
     cAtualizado_UTC := cAtualizado_UTC a |}.

Definition with_Atualizado_UTC (v : list string) (a : PivotColumns) : PivotColumns :=
  {| cRodada := cRodada a; cFase := cFase a; cData_BR := cData_BR a;
     cPartida := cPartida a; cCasas_consideradas := cCasas_consideradas a;
     cAtualizado_UTC := Some v |}.

(** The nine columns of [ordered] that the pivot lacks. *)
Definition missing_columns (columns : list pystr) (a : PivotColumns) : list string :=
  List.map fst
    (List.filter (fun c => negb c.2)
       [("Rodada", bool_decide (is_Some (cRodada a)));
        ("Fase", bool_decide (is_Some (cFase a)));
        ("Data (BR)", bool_decide (is_Some (cData_BR a)));
        ("Partida", bool_decide (is_Some (cPartida a)));
        ("Linha (gols)", true);
        ("Over", bool_decide (py "Over" ∈ columns));
        ("Under", bool_decide (py "Under" ∈ columns));
        ("Casas consideradas", bool_decide (is_Some (cCasas_consideradas a)));
        ("Atualizado (UTC)", bool_decide (is_Some (cAtualizado_UTC a)))]).

(** The cells of a row of the pivot under the columns of one label. *)
Definition cells_of (label : string) (columns : list pystr) (cells : list (option Q))
    : list (option Q) :=
  mask (List.map (fun c => bool_decide (c = py label)) columns) cells.

Module InStore.

(** ** The store *)

Definition new_frame (f : DataFrame) : Eff Store loc :=
  fun σ => (Returned (length σ), σ ++ [f]).

(** The frame at a location. Python has no name without an object; the
    model raises at a location outside the store. *)
Definition frame (l : loc) : Eff Store DataFrame :=
  fun σ =>
    match σ !! l with
    | Some f => (Returned f, σ)
    | None => (Raised (KeyError "no such frame"), σ)
    end.

Definition assign (l : loc) (f : DataFrame) : Eff Store unit :=
  fun σ => (Returned tt, <[l := f]> σ).

(** ** The operations of pandas the reconcilers use

    Each is given on the kinds of frame on which the two functions call
    it. On another kind it raises [KeyError], as pandas does where the
    column it reads is missing. *)

Section Operations.
Context `{U : Unicodedata}.
Variable strftime : string -> string -> timestamp -> string.

Definition empty (l : loc) : Eff Store bool :=
  (f <- frame l ;; ret (is_empty f))%io.

(** [df.copy()] *)
Definition copy (l : loc) : Eff Store loc :=
  (f <- frame l ;; new_frame f)%io.

(** [df["home_norm"] = df["home_team"].apply(_normalize_team_name)]: the
    frame at [l] changes. *)
Definition set_home_norm (l : loc) : Eff Store unit :=
  (f <- frame l ;;
   match f with
   | Fixtures rows _ away =>
       assign l (Fixtures rows
                   (Some (List.map (fun r => _normalize_team_name (home_team r)) rows)) away)
   | Quotes rows _ away =>
       assign l (Quotes rows
                   (Some (List.map (fun r => _normalize_team_name (odds_home_team r)) rows))
                   away)
   | _ => raise (KeyError "home_team")
   end)%io.

(** [df["away_norm"] = df["away_team"].apply(_normalize_team_name)] *)
Definition set_away_norm (l : loc) : Eff Store unit :=
  (f <- frame l ;;
   match f with
   | Fixtures rows home _ =>
       assign l (Fixtures rows home
                   (Some (List.map (fun r => _normalize_team_name (away_team r)) rows)))
   | Quotes rows home _ =>
       assign l (Quotes rows home
                   (Some (List.map (fun r => _normalize_team_name (odds_away_team r)) rows)))
   | _ => raise (KeyError "away_team")
   end)%io.

(** [odds[odds["market_key"] == market]]: a new frame. *)
Definition where_market (market : string) (l : loc) : Eff Store loc :=
  (f <- frame l ;;
   match f with
   | Quotes rows home away =>
       let keep := List.map (is_market market) rows in
       new_frame (Quotes (mask keep rows) (option_map (mask keep) home)
                    (option_map (mask keep) away))
   | KeyedQuotes rows =>
       new_frame (KeyedQuotes (List.filter (fun r => is_market market (row r)) rows))
   | MergedFrame rows label =>
       let keep := List.map (fun r => is_market market (row r.1)) rows in
       new_frame (MergedFrame (mask keep rows) (option_map (mask keep) label))
   | _ => raise (KeyError "market_key")
   end)%io.

(** [fixtures[[...]].rename(columns={...})]: the selection needs the two
    key columns. *)
Definition fixtures_subset_of (l : loc) : Eff Store loc :=
  (f <- frame l ;;
   match f with
   | Fixtures rows (Some home) (Some away) =>
       new_frame (FixturesSubset (keyed_rows rows home away))
   | Fixtures rows None (Some _) => raise (not_in_index ["home_norm"])
   | Fixtures rows (Some _) None => raise (not_in_index ["away_norm"])
   | Fixtures rows None None => raise (not_in_index ["home_norm"; "away_norm"])
   | _ => raise (KeyError "matchday")
   end)%io.

(** [odds.drop(columns=["home_team", "away_team"], errors="ignore")]: a new
    frame; a frame without these columns is copied. Quotes that lack a key
    column and fixtures would lose their team columns to become frames of a
    kind that the model does not have. *)
Definition drop_teams (l : loc) : Eff Store loc :=
  (f <- frame l ;;
   match f with
   | Quotes rows (Some home) (Some away) =>
       new_frame (KeyedQuotes (keyed_rows rows home away))
   | Quotes _ _ _ | Fixtures _ _ _ => raise (KeyError "home_norm")
   | _ => new_frame f
   end)%io.

(** [odds.merge(fixtures_subset, on=["home_norm", "away_norm"], how="inner")] *)
Definition merge_frames (odds fixtures_subset : loc) : Eff Store loc :=
  (o <- frame odds ;;
   f <- frame fixtures_subset ;;
   match o, f with
   | KeyedQuotes orows, FixturesSubset frows => new_frame (MergedFrame (merge orows frows) None)
   | _, _ => raise (KeyError "home_norm")
   end)%io.

(** [merged["outcome_label"] = merged.apply(_map_outcome, axis=1)]: the
    frame at [l] changes. *)
Definition set_outcome_label (l : loc) : Eff Store unit :=
  (f <- frame l ;;
   match f with
   | MergedFrame rows _ => assign l (MergedFrame rows (Some (List.map _map_outcome rows)))
   | _ => raise (KeyError "outcome_name")
   end)%io.

(** [merged[merged["outcome_label"].notna()]]: a new frame. *)
Definition where_label_notna (l : loc) : Eff Store loc :=
  (f <- frame l ;;
   match f with
   | MergedFrame rows (Some label) =>
       let keep := List.map (fun v => bool_decide (is_Some v)) label in
       new_frame (MergedFrame (mask keep rows) (Some (mask keep label)))
   | _ => raise (KeyError "outcome_label")
   end)%io.

(** The statements from [grouped = ...] to [df = pd.DataFrame([summary])]:
    they read [merged], whose rows all have their label after the filter,
    and build the frame of one row. *)
Definition summary_frame (l : loc) : Eff Store loc :=
  (f <- frame l ;;
   match f with
   | MergedFrame rows (Some label) =>
       let merged := omap (fun r => pair r.1 <$> r.2) (zip rows label) in
       match merged with
       | [] => raise (IndexError "single positional indexer is out-of-bounds")
       | match_info :: _ => new_frame (SummaryFrame [summary strftime merged match_info])
       end
   | _ => raise (KeyError "outcome_label")
   end)%io.

(** [merged.groupby(["outcome_point", "outcome_name"])["outcome_price"]
    .median().unstack().rename(columns=lambda c: c.title())] *)
Definition pivot_of (l : loc) : Eff Store loc :=
  (f <- frame l ;;
   match f with
   | MergedFrame rows _ =>
       let keyed := omap point_and_name rows in
       let names := pivot_names keyed in
       new_frame
         (Pivot (List.map title names)
            (List.map (fun p => (p, List.map (pivot_cell keyed p) names)) (pivot_lines keyed))
            not_assigned)
   | _ => raise (KeyError "outcome_point")
   end)%io.

(** The rows of [merged], for the two series [counts] and [last_update]
    and for [merged.iloc[0]]. *)
Definition merged_rows (l : loc) : Eff Store (list Merged) :=
  (f <- frame l ;;
   match f with
   | MergedFrame rows _ => ret rows
   | _ => raise (KeyError "outcome_point")
   end)%io.

Definition iloc_0 (rows : list Merged) : Eff Store Merged :=
  match rows with
  | r :: _ => ret r
  | [] => raise (IndexError "single positional indexer is out-of-bounds")
  end.

(** [pivot.reset_index().rename(columns={"outcome_point": "Linha (gols)"})]:
    a new frame; the goal line is the first component of a row before and
    after. *)
Definition reset_index (l : loc) : Eff Store loc :=
  (f <- frame l ;; new_frame f)%io.

(** [pivot[c] = v]: the frame at [l] changes. The new column may depend on
    the column of the goal lines. *)
Definition set_column (l : loc) (update : list Q -> PivotColumns -> PivotColumns)
    : Eff Store unit :=
  (f <- frame l ;;
   match f with
   | Pivot columns rows a => assign l (Pivot columns rows (update (List.map fst rows) a))
   | _ => raise (KeyError "Linha (gols)")
   end)%io.

(** [pivot[["Rodada", ..., "Atualizado (UTC)"]]]: a new frame, or the
    [KeyError] that names the columns missing. *)
Definition ordered_of (l : loc) : Eff Store loc :=
  (f <- frame l ;;
   match f with
   | Pivot columns rows a =>
       match missing_columns columns a, a with
       | [], {| cRodada := Some rodada; cFase := Some fase; cData_BR := Some data_br;
                cPartida := Some partida; cCasas_consideradas := Some casas;
                cAtualizado_UTC := Some atualizado |} =>
           new_frame
             (Ordered
                (zip_with
                   (fun r c =>
                      {| tRodada := rodada; tFase := fase; tData_BR := data_br;
                         tPartida := partida; Linha_gols := r.1;
                         Over := cells_of "Over" columns r.2;
                         Under := cells_of "Under" columns r.2;
                         tCasas_consideradas := c.1; tAtualizado_UTC := c.2 |})
                   rows (zip casas atualizado)))
       | missing, _ => raise (not_in_index missing)
       end
   | _ => raise (KeyError "Rodada")
   end)%io.

(** [ordered.sort_values(["Linha (gols)"])]: a new frame. *)
Definition sort_by_line (l : loc) : Eff Store loc :=
  (f <- frame l ;;
   match f with
   | Ordered rows => new_frame (Ordered (sort_by by_line rows))
   | _ => raise (KeyError "Linha (gols)")
   end)%io.

(** ** The two reconcilers *)

(** [build_moneyline_summary(fixtures_df, odds_df)] *)
Definition build_moneyline_summary (fixtures_df odds_df : loc) : Eff Store loc :=
  (fixtures_empty <- empty fixtures_df ;;
   odds_empty <- empty odds_df ;;
   if fixtures_empty || odds_empty then new_frame NoColumns else
   fixtures <- copy fixtures_df ;;
   set_home_norm fixtures ;;;
   set_away_norm fixtures ;;;
   odds <- copy odds_df ;;
   odds <- where_market "h2h" odds ;;
   odds_empty <- empty odds ;;
   if odds_empty then new_frame NoColumns else
   set_home_norm odds ;;;
   set_away_norm odds ;;;
   fixtures_subset <- fixtures_subset_of fixtures ;;
   odds <- drop_teams odds ;;
   merged <- merge_frames odds fixtures_subset ;;
   merged_empty <- empty merged ;;
   if merged_empty then new_frame NoColumns else
   set_outcome_label merged ;;;
   merged <- where_label_notna merged ;;
   merged_empty <- empty merged ;;
   if merged_empty then new_frame NoColumns else
   summary_frame merged)%io.

(** [build_totals_table(fixtures_df, odds_df)] *)
Definition build_totals_table (fixtures_df odds_df : loc) : Eff Store loc :=
  (fixtures_empty <- empty fixtures_df ;;
   odds_empty <- empty odds_df ;;
   if fixtures_empty || odds_empty then new_frame NoColumns else
   fixtures <- copy fixtures_df ;;
   set_home_norm fixtures ;;;
   set_away_norm fixtures ;;;
   odds <- copy odds_df ;;
   odds <- where_market "totals" odds ;;
   odds_empty <- empty odds ;;
   if odds_empty then new_frame NoColumns else
   set_home_norm odds ;;;
   set_away_norm odds ;;;
   fixtures_subset <- fixtures_subset_of fixtures ;;
   odds <- drop_teams odds ;;
   merged <- merge_frames odds fixtures_subset ;;
   merged_empty <- empty merged ;;
   if merged_empty then new_frame NoColumns else
   pivot <- pivot_of merged ;;
   pivot_empty <- empty pivot ;;
   if pivot_empty then new_frame NoColumns else
   rows <- merged_rows merged ;;
   let counts p :=
     nunique (List.map (fun r => bookmaker_key (row r.1)) (List.filter (at_point p) rows)) in
   let last_update p :=
     series_max (omap (fun r => bookmaker_last_update (row r.1))
                   (List.filter (at_point p) rows)) in
   pivot <- reset_index pivot ;;
   match_row <- iloc_0 rows ;;
   set_column pivot (fun _ => with_Rodada (matchday match_row.2)) ;;;
   set_column pivot (fun _ => with_Fase (stage match_row.2)) ;;;
   set_column pivot (fun _ => with_Data_BR (kickoff_local match_row.2)) ;;;
   set_column pivot (fun _ => with_Partida (partida match_row.2)) ;;;
   set_column pivot (fun lines => with_Casas_consideradas (List.map counts lines)) ;;;
   let _format_update pt := update_display strftime (last_update pt) in
   set_column pivot (fun lines => with_Atualizado_UTC (List.map _format_update lines)) ;;;
   ordered <- ordered_of pivot ;;
   sort_by_line ordered)%io.

(** The statements up to the join, which the two functions share word for
    word, and then [rest] on the location of [merged]. *)
Definition joined_then (market : string) (rest : loc -> Eff Store loc)
    (fixtures_df odds_df : loc) : Eff Store loc :=
  (fixtures_empty <- empty fixtures_df ;;
   odds_empty <- empty odds_df ;;
   if fixtures_empty || odds_empty then new_frame NoColumns else
   fixtures <- copy fixtures_df ;;
   set_home_norm fixtures ;;;
   set_away_norm fixtures ;;;
   odds <- copy odds_df ;;
   odds <- where_market market odds ;;
   odds_empty <- empty odds ;;
   if odds_empty then new_frame NoColumns else
   set_home_norm odds ;;;
   set_away_norm odds ;;;
   fixtures_subset <- fixtures_subset_of fixtures ;;
   odds <- drop_teams odds ;;
   merged <- merge_frames odds fixtures_subset ;;
   merged_empty <- empty merged ;;
   if merged_empty then new_frame NoColumns else
   rest merged)%io.

End Operations.

End InStore.

(** The frame a reconciler returns for the rows of its table:
    [pd.DataFrame()] when the table has none. *)
Definition summary_of_rows (rows : list MoneylineRow) : DataFrame :=
  match rows with
  | [] => NoColumns
  | _ => SummaryFrame rows
  end.

Definition ordered_of_rows (rows : list TotalsRow) : DataFrame :=
  match rows with
  | [] => NoColumns
  | _ => Ordered rows
  end.

(** A store with the frames of the examples: the fixture at 0, the quotes
    of both markets at 1. *)
Definition sample_store : Store :=
  [Fixtures [barcelona_milan] None None;
   Quotes (three_bookmakers ++ two_lines) None None].

(* ===================================================================== *)
(** * The odds client with all its arguments *)
(* ===================================================================== *)

(** The seconds slept, in order. *)
Definition slept (tr : list IOEvent) : list Z :=
  omap (fun ev => match ev with Sleep s => Some s | _ => None end) tr.

(** The requests sent, in order. *)
Definition requested (tr : list IOEvent) : list (string * gmap string string) :=
  omap (fun ev => match ev with HttpGet url params => Some (url, params) | _ => None end) tr.

(** The record that [fetch_champions_league_odds] appends for an outcome. *)
Definition record_of (event : EventJson) (bookmaker : BookmakerJson)
    (market_key : string) (outcome : OutcomeJson) : OddsQuote :=
  {| event_id := e_id event;
     sport_key := e_sport_key event;
     commence_time := e_commence_time event;
     odds_home_team := e_home_team event;
     odds_away_team := e_away_team event;
     bookmaker_key := b_key bookmaker;
     bookmaker_title := b_title bookmaker;
     bookmaker_last_update := b_last_update bookmaker;
     market_key := market_key;
     outcome_name := o_name outcome;
     outcome_price := o_price outcome;
     outcome_point := o_point outcome;
     outcome_description := o_description outcome |}.

(** The outcomes of the markets of an event that have a key. *)
Definition outcomes_with_key (event : EventJson) : nat :=
  list_sum
    (List.map
       (fun bookmaker =>
          list_sum
            (List.map
               (fun market =>
                  match m_key market with
                  | Some _ => length (m_outcomes market)
                  | None => 0%nat
                  end)
               (b_markets bookmaker)))
       (e_bookmakers event)).

Module AllArguments.

Section Fetch.
Variable py_int : string -> option Z.
Variable settings : Settings.
Variable net : nat -> string -> gmap string string -> HttpOutcome.

(** [str(include_links).lower()] *)
Definition str_lower_bool (b : bool) : string := if b then "true" else "false".

(** [markets_param] *)
Definition markets_param (markets : option (list string)) : string :=
  match markets with
  | Some (m :: ms) => String.concat "," (m :: ms)
  | _ => "h2h"
  end.

(** The dictionary [params], the entry includeLinks included when the
    argument is given. *)
Definition request_params (regions : string) (markets : option (list string))
    (odds_format date_format : string) (include_links : option bool)
    : gmap string string :=
  let params : gmap string string :=
    <["dateFormat" := date_format]> (<["oddsFormat" := odds_format]>
      (<["markets" := markets_param markets]> (<["regions" := regions]> ∅))) in
  match include_links with
  | Some b => <["includeLinks" := str_lower_bool b]> params
  | None => params
  end.

(** [key = sport_key or settings.ODDS_API_SPORT_KEY] and the path. *)
Definition request_path (sport_key : option string) : string :=
  let key :=
    match sport_key with
    | Some k => str_or k (ODDS_API_SPORT_KEY settings)
    | None => ODDS_API_SPORT_KEY settings
    end in
  ("/sports/" ++ key ++ "/odds/")%string.

(** [fetch_champions_league_odds(regions, markets, odds_format, date_format,
    include_links, sport_key)]; an argument left out is [None]. *)
Definition fetch_champions_league_odds (regions : string) (markets : option (list string))
    (odds_format date_format : string) (include_links : option bool)
    (sport_key : option string) : IO (list OddsQuote * OddsAPIMeta) :=
  (emit (CallFetch (default [] markets)) ;;;
   r <- _get py_int settings net (request_path sport_key)
          (request_params regions markets odds_format date_format include_links) ;;
   ret (payload ← r.1; records_of_event payload, r.2))%io.

End Fetch.

End AllArguments.

(** The text ends with a slash. *)
Fixpoint ends_with_slash (s : string) : bool :=
  match s with
  | EmptyString => false
  | String c EmptyString => bool_decide (c = "/"%char)
  | String _ r => ends_with_slash r
  end.

(** [n] slashes. *)
Fixpoint slashes (n : nat) : string :=
  match n with
  | O => EmptyString
  | S k => String "/"%char (slashes k)
  end.

(** A server that answers every request with 503. *)
Definition always_unavailable (n : nat) (url : string) (params : gmap string string)
    : HttpOutcome :=
  Responded (error_response 503 "Service Unavailable").

(** A payload of one event with a bookmaker that has a market without a key
    and the market h2h with two outcomes. *)
Definition sample_event : EventJson :=
  {| e_id := Some "e1";
     e_sport_key := Some "soccer_uefa_champions_league";
     e_commence_time := Some 1000%Z;
     e_home_team := Some (py "Barcelona");
     e_away_team := Some (py "Milan");
     e_bookmakers :=
       [ {| b_key := Some "pinnacle"; b_title := Some "Pinnacle";
            b_last_update := Some 500%Z;
            b_markets :=
              [ {| m_key := None;
                   m_outcomes := [ {| o_name := Some (py "Barcelona");
                                      o_price := Some (150 # 100)%Q;
                                      o_point := None; o_description := None |} ] |};
                {| m_key := Some "h2h";
                   m_outcomes := [ {| o_name := Some (py "Barcelona");
                                      o_price := Some (180 # 100)%Q;
                                      o_point := None; o_description := None |};
                                   {| o_name := Some (py "Milan");
                                      o_price := Some (420 # 100)%Q;
                                      o_point := None; o_description := None |} ] |} ] |} ] |}.


(* ===================================================================== *)
(** * The odds section of the page *)
(* ===================================================================== *)

(** The dictionary kept in [st.session_state["odds_cache"]]. *)
Record OddsCache := {
  cache_df : list OddsQuote;
  cache_meta : OddsAPIMeta;
  cache_markets : list string;
  captured_at : option timestamp
}.

(** What the section puts on the page. The texts that only interpolate
    numbers and tuples are kept as their values. *)
Inductive Shown :=
| Warning (text : string)
| DebugCounts (odds_rows events : nat) (markets : list string)
| DebugOverview (rows : list OverviewRow)
| DebugFixtureNorm (fixture_home fixture_away : pystr)
| DebugMatching (view : DebugView)
| MoneylineMissing
| MoneylineTable (rows : list MoneylineRow)
| TotalsShown (section : TotalsSection)
| QuotaCaption (remaining : Z) (used last : option Z).

(** The state a run of the script acts on: the outside, the session and
    the page. *)
Record Page := {
  io : list IOEvent;
  odds_cache : option OddsCache;
  shown : list Shown
}.

(** [OddsAPIMeta()] *)
Definition no_meta : OddsAPIMeta :=
  {| requests_remaining := None; requests_used := None; requests_last := None |}.

(** [value or '-'] on a count: missing and zero both give the dash, which
    is [None] here. *)
Definition or_dash (value : option Z) : option Z :=
  match value with
  | Some 0%Z => None
  | _ => value
  end.

Section PageScript.
Context `{U : Unicodedata}.
Variable strftime : string -> string -> timestamp -> string.
Variable py_int : string -> option Z.
Variable settings : Settings.
Variable net : nat -> string -> gmap string string -> HttpOutcome.
Variable DEBUG_ODDS : bool.

Definition lift_io {A} (c : IO A) : Eff Page A :=
  fun p =>
    let r := c (io p) in
    (r.1, {| io := r.2; odds_cache := odds_cache p; shown := shown p |}).

Definition show (x : Shown) : Eff Page unit :=
  fun p => (Returned tt, {| io := io p; odds_cache := odds_cache p; shown := shown p ++ [x] |}).

Definition session_get : Eff Page (option OddsCache) :=
  fun p => (Returned (odds_cache p), p).

Definition session_set (c : OddsCache) : Eff Page unit :=
  fun p => (Returned tt, {| io := io p; odds_cache := Some c; shown := shown p |}).

(** The [try] statement around [get_cl_odds_data()]; [utcnow] is what
    [pd.Timestamp.utcnow()] gives. The cache of [st.cache_data] is left
    aside. *)
Definition load_odds (utcnow : timestamp)
    : Eff Page (list OddsQuote * OddsAPIMeta * list string) :=
  try_except
    (r <- lift_io (get_cl_odds_data py_int settings net) ;;
     session_set {| cache_df := r.1.1; cache_meta := r.1.2; cache_markets := r.2;
                    captured_at := Some utcnow |} ;;;
     ret r)%io
    (fun exc =>
       if is_OddsAPIError exc then
         (cache <- session_get ;;
          match cache with
          | Some c =>
              let cached_at_display := update_display strftime (captured_at c) in
              show (Warning ("Nao foi possivel consultar a Odds API: " ++ message exc
                               ++ ". Usando o ultimo cache valido ("
                               ++ cached_at_display ++ " UTC).")) ;;;
              ret (cache_df c, cache_meta c, cache_markets c)
          | None =>
              show (Warning ("Nao foi possivel consultar a Odds API: " ++ message exc)) ;;;
              ret ([], no_meta, [])
          end)%io
       else raise exc).

(** The section "Odds das casas europeias" for the selected fixture. *)
Definition odds_section (utcnow : timestamp) (selected_fixture_df : list Fixture)
    : Eff Page unit :=
  (r <- load_odds utcnow ;;
   let odds_raw_df := r.1.1 in
   let odds_meta := r.1.2 in
   let used_markets := r.2 in
   let odds_overview := _build_odds_overview odds_raw_df in
   (if DEBUG_ODDS then
      show (DebugCounts (length odds_raw_df) (length odds_overview) used_markets) ;;;
      if negb (is_nil odds_overview)
      then show (DebugOverview (take 50 odds_overview))
      else ret tt
    else ret tt) ;;;
   let odds_table := build_moneyline_summary strftime selected_fixture_df odds_raw_df in
   (if DEBUG_ODDS && negb (is_nil odds_overview) then
      match selected_fixture_df with
      | [] => raise (IndexError "single positional indexer is out-of-bounds")
      | fixture_row :: _ =>
          show (DebugFixtureNorm (_normalize_team_name (home_team fixture_row))
                  (_normalize_team_name (away_team fixture_row))) ;;;
          match debug_odds_matching fixture_row odds_overview with
          | Some view => show (DebugMatching view)
          | None => ret tt
          end
      end
    else ret tt) ;;;
   (match odds_table with
    | [] => show MoneylineMissing
    | _ => show (MoneylineTable odds_table)
    end) ;;;
   match totals_section strftime used_markets selected_fixture_df odds_raw_df with
   | Raised e => raise e
   | Returned section =>
       show (TotalsShown section) ;;;
       match requests_remaining odds_meta with
       | Some remaining =>
           show (QuotaCaption remaining (or_dash (requests_used odds_meta))
                   (or_dash (requests_last odds_meta)))
       | None => ret tt
       end
   end)%io.

End PageScript.

(** A page at its first run: nothing sent, no cache, nothing shown. *)
Definition first_run : Page := {| io := []; odds_cache := None; shown := [] |}.

(** A server whose answer is no JSON. *)
Definition answers_html (n : nat) (url : string) (params : gmap string string)
    : HttpOutcome :=
  Responded {| status_code := 200; text := "<html>"; json := JInvalid; error_line := "";
               x_requests_remaining := None; x_requests_used := None;
               x_requests_last := None |}.

(** A server that answers the first two requests of a run and refuses
    every later one with 401. *)
Definition key_revoked (n : nat) (url : string) (params : gmap string string)
    : HttpOutcome :=
  match n with
  | O => Responded (ok_response [sample_event])
  | _ => Responded (error_response 401 "Unauthorized")
  end.

(** The settings of config.py when the environment sets nothing: no key
    for the odds provider. *)
Definition default_settings : Settings :=
  {| ODDS_API_KEY := "";
     ODDS_API_BASE_URL := "https://api.the-odds-api.com/v4";
     ODDS_API_SPORT_KEY := "soccer_uefa_champions_league" |}.
(* ===================================================================== *)
(** * The football-data client: date windows and the matches feed *)
(* ===================================================================== *)

(** How a call ends: with a value, with an exception, or, for a loop run
    on fuel, without an end in the fuel given. *)
Inductive Outcome (E A : Type) :=
| Returns (a : A)
| Throws (e : E)
| OutOfFuel.
Arguments Returns {E A} a.
Arguments Throws {E A} e.
Arguments OutOfFuel {E A}.

(** How the iteration of a generator ends. *)
Inductive Ending (E : Type) :=
| StopIteration
| Raises (e : E)
| Unfinished.
Arguments StopIteration {E}.
Arguments Raises {E} e.
Arguments Unfinished {E}.

Module FootballDataApi.

Local Open Scope Z_scope.

(** A [datetime.date] as its proleptic Gregorian ordinal, from [date.min]
    (1) to [date.max] (3652059, the last day of the year 9999). *)
Definition date := Z.
Definition date_min : date := 1.
Definition date_max : date := 3652059.
Definition is_date (d : date) : Prop := date_min <= d <= date_max.

(** A [datetime.datetime]: its date and the time of the day. *)
Record datetime := {
  the_date : date;
  time_of_day : Z
}.

Inductive Exn :=
| ValueError (msg : string)
| OverflowError
| RequestException (str_exc : string)
| HTTPError (status : Z)
| JSONDecodeError
| AttributeError.

(** [timedelta(days=n)]; [None] is its OverflowError. *)
Definition timedelta (days : Z) : option Z :=
  if Z.abs days <=? 999999999 then Some days else None.

(** [d + delta] on dates; [None] is the OverflowError of a date out of
    range. *)
Definition date_add (d : date) (delta : Z) : option date :=
  if (date_min <=? d + delta) && (d + delta <=? date_max) then Some (d + delta) else None.

Definition MAX_WINDOW_DAYS : Z := 7.

(** The [while] loop of [_chunk_date_range]: the windows yielded, in order,
    and the way the iteration ends. One unit of fuel per pass. *)
Fixpoint chunk_loop (fuel : nat) (window_days : Z) (current end_ : date)
    : list (date * date) * Ending Exn :=
  if current <=? end_ then
    match fuel with
    | O => ([], Unfinished)
    | S fuel =>
        match delta ← timedelta (window_days - 1); date_add current delta with
        | None => ([], Raises OverflowError)
        | Some reach =>
            let chunk_end := Z.min reach end_ in
            match delta ← timedelta 1; date_add chunk_end delta with
            | None => ([(current, chunk_end)], Raises OverflowError)
            | Some current' =>
                let rest := chunk_loop fuel window_days current' end_ in
                ((current, chunk_end) :: rest.1, rest.2)
            end
        end
    end
  else ([], StopIteration).

(** [_chunk_date_range], iterated to its end. The fuel is the number of
    days from [start] to [end]. *)
Definition _chunk_date_range (start end_ : date) (window_days : Z)
    : list (date * date) * Ending Exn :=
  if window_days <? 1 then ([], Raises (ValueError "window_days must be >= 1"))
  else
    let '(start, end_) := if end_ <? start then (end_, start) else (start, end_) in
    chunk_loop (Z.to_nat (end_ - start + 1)) window_days start end_.

(** The days of a window. *)
Definition days_of (chunk : date * date) : list date :=
  seqZ chunk.1 (chunk.2 - chunk.1 + 1).

Record Settings := {
  FOOTBALL_DATA_API_KEY : string;
  FOOTBALL_DATA_BASE_URL : string
}.

(** The part of [resp.json()] the function reads: an object with its
    "matches" entry, a list of objects ([[]] when the entry is absent, null
    or empty; an entry of another kind is not modelled), something that is
    no object, or a body that is no JSON. *)
Inductive Body (Match : Type) :=
| JsonObject (matches : list Match)
| JsonOther
| NotJson.
Arguments JsonObject {Match} matches.
Arguments JsonOther {Match}.
Arguments NotJson {Match}.

Record Response (Match : Type) := {
  status_code : Z;
  json : Body Match
}.
Arguments status_code {Match} _.
Arguments json {Match} _.

(** What one [requests.get] leads to. *)
Inductive HttpOutcome (Match : Type) :=
| Responded (r : Response Match)
| Failed (str_exc : string).
Arguments Responded {Match} r.
Arguments Failed {Match} str_exc.

(** What the function does to the outside, in order. *)
Inductive Event :=
| Get (url : string) (headers params : gmap string string)
| Sleep (seconds : Z)
| Now.

(** A row of the frame returned: the flattened match with the two columns
    added. *)
Record MatchRow (Match : Type) := {
  row_match : Match;
  extracted_at : Z;
  source : string
}.
Arguments row_match {Match} _.
Arguments extracted_at {Match} _.
Arguments source {Match} _.

Definition is_get (ev : Event) : bool :=
  match ev with Get _ _ _ => true | _ => false end.

Definition gets (tr : list Event) : list (string * gmap string string * gmap string string) :=
  omap (fun ev => match ev with Get u h p => Some (u, h, p) | _ => None end) tr.

Definition sleeps (tr : list Event) : list Z :=
  omap (fun ev => match ev with Sleep s => Some s | _ => None end) tr.

(** [",".join(l)] *)
Fixpoint join_comma (l : list string) : string :=
  match l with
  | [] => ""
  | [x] => x
  | x :: r => (x ++ "," ++ join_comma r)%string
  end.

Section Feed.

Variable Match : Type.
Variable settings : Settings.

(** [d.isoformat()] *)
Variable isoformat : date -> string.

(** The network: the outcome of the request number [n] (from 0). *)
Variable net : nat -> string -> gmap string string -> gmap string string -> HttpOutcome Match.

(** The clock: [pd.Timestamp.utcnow()] after the events so far. *)
Variable clock : list Event -> Z.

(** [datetime.utcnow()] at the start of the call. *)
Variable utcnow : datetime.

Definition Act (A : Type) : Type := list Event -> Outcome Exn A * list Event.

Definition ret {A} (a : A) : Act A := fun tr => (Returns a, tr).
Definition raise {A} (e : Exn) : Act A := fun tr => (Throws e, tr).
Definition bind {A B} (c : Act A) (k : A -> Act B) : Act B :=
  fun tr =>
    match c tr with
    | (Returns a, tr') => k a tr'
    | (Throws e, tr') => (Throws e, tr')
    | (OutOfFuel, tr') => (OutOfFuel, tr')
    end.

Definition BASE_URL : string := rstrip_slash (FOOTBALL_DATA_BASE_URL settings).

Definition _headers : gmap string string :=
  let headers : gmap string string := {[ "Accept" := "application/json" ]} in
  if bool_decide (FOOTBALL_DATA_API_KEY settings = "") then headers
  else <[ "X-Auth-Token" := FOOTBALL_DATA_API_KEY settings ]> headers.

(** [requests.get(url, headers=_headers(), params=params, timeout=30)];
    an exception of the request is not caught. *)
Definition requests_get (url : string) (params : gmap string string) : Act (Response Match) :=
  fun tr =>
    let tr' := tr ++ [Get url _headers params] in
    match net (length (List.filter is_get tr)) url _headers params with
    | Responded r => (Returns r, tr')
    | Failed str_exc => (Throws (RequestException str_exc), tr')
    end.

Definition sleep (seconds : Z) : Act unit := fun tr => (Returns tt, tr ++ [Sleep seconds]).

Definition timestamp_utcnow : Act Z := fun tr => (Returns (clock tr), tr ++ [Now]).

Definition matches_url : string := (BASE_URL ++ "/matches")%string.

Definition chunk_params (competitions : option (list string)) (chunk : date * date)
    : gmap string string :=
  let params : gmap string string :=
    <[ "dateTo" := isoformat chunk.2 ]> {[ "dateFrom" := isoformat chunk.1 ]} in
  match competitions with
  | None | Some [] => params
  | Some cs => <[ "competitions" := join_comma cs ]> params
  end.

(** The body of the [for] loop for one window: the frame appended to
    [all_frames], [None] for [continue]. *)
Definition fetch_chunk (competitions : option (list string)) (chunk : date * date)
    : Act (option (list (MatchRow Match))) :=
  let params := chunk_params competitions chunk in
  let url := matches_url in
  bind (requests_get url params) (fun resp =>
  bind (if status_code resp =? 429
        then bind (sleep 60) (fun _ => requests_get url params)
        else ret resp) (fun resp =>
  if (400 <=? status_code resp) && (status_code resp <? 600) then
    raise (HTTPError (status_code resp))
  else
    match json resp with
    | NotJson => raise JSONDecodeError
    | JsonOther => raise AttributeError
    | JsonObject [] => ret None
    | JsonObject matches =>
        bind timestamp_utcnow (fun now =>
        ret (Some (List.map (fun m => {| row_match := m; extracted_at := now;
                                         source := "football-data.org" |}) matches)))
    end)).

(** The [for] loop over the windows yielded. *)
Fixpoint fetch_chunks (competitions : option (list string)) (chunks : list (date * date))
    (all_frames : list (list (MatchRow Match))) : Act (list (list (MatchRow Match))) :=
  match chunks with
  | [] => ret all_frames
  | chunk :: rest =>
      bind (fetch_chunk competitions chunk) (fun frame =>
      fetch_chunks competitions rest
        match frame with
        | None => all_frames
        | Some chunk_df => all_frames ++ [chunk_df]
        end)
  end.

(** [fetch_matches_since]; the frame is the list of its rows, and
    [pd.DataFrame()] the empty list. *)
Definition fetch_matches_since (since : datetime) (competitions : option (list string))
    (until : option datetime) : Act (list (MatchRow Match)) :=
  let start_date := the_date since in
  bind match until with
       | Some u => ret (the_date u)
       | None =>
           match delta ← timedelta 1; date_add (the_date utcnow) delta with
           | Some d => ret d
           | None => raise OverflowError
           end
       end (fun end_date =>
  let windows := _chunk_date_range start_date end_date MAX_WINDOW_DAYS in
  bind (fetch_chunks competitions windows.1 []) (fun all_frames =>
  match windows.2 with
  | Raises e => raise e
  | Unfinished => fun tr => (OutOfFuel, tr)
  | StopIteration => ret (concat all_frames)
  end)).

End Feed.

End FootballDataApi.




(* ===================================================================== *)
(** * The ingestion watermarks *)
(* ===================================================================== *)

Module Idempotency.

Local Open Scope Z_scope.

(** A row of meta.ingestion_watermarks_v2 without its key; a time stamp is
    a number of microseconds since 1970-01-01 and NULL is [None]. *)
Record Watermarks := {
  last_success_at : option Z;
  high_watermark : option Z;
  updated_at : Z
}.

(** The table by its primary key (source, entity, key). *)
Definition Table := gmap (string * string * string) Watermarks.

(** The warehouse as far as the watermarks go: [None] while the table
    does not exist. *)
Definition Warehouse := option Table.

Inductive Column := col_last_success_at | col_high_watermark.

(** CREATE TABLE IF NOT EXISTS *)
Definition _ensure_table (db : Warehouse) : Table := default ∅ db.

(** COALESCE(excluded.c, t.c) *)
Definition coalesce (excluded t : option Z) : option Z :=
  match excluded with
  | Some v => Some v
  | None => t
  end.

(** [_get_value]: the value read and the warehouse as the call leaves
    it. *)
Definition _get_value (source entity key : string) (column : Column) (db : Warehouse)
    : option Z * Warehouse :=
  let t := _ensure_table db in
  let row := t !! (source, entity, key) in
  (match row with
   | Some r =>
       match column with
       | col_last_success_at => last_success_at r
       | col_high_watermark => high_watermark r
       end
   | None => None
   end, Some t).

(** [default or datetime(1970, 1, 1)]; a datetime is never falsy. *)
Definition or_epoch (default : option Z) : Z :=
  match default with
  | Some d => d
  | None => 0
  end.

Definition get_high_watermark (source entity key : string) (default : option Z)
    (db : Warehouse) : Z * Warehouse :=
  let '(value, db) := _get_value source entity key col_high_watermark db in
  (match value with Some v => v | None => or_epoch default end, db).

Definition get_last_success_at (source entity key : string) (default : option Z)
    (db : Warehouse) : Z * Warehouse :=
  let '(value, db) := _get_value source entity key col_last_success_at db in
  (match value with Some v => v | None => or_epoch default end, db).

(** [set_watermarks]: INSERT ... ON CONFLICT (source, entity, key) DO
    UPDATE; [now] is now() of the statement. *)
Definition set_watermarks (source entity key : string)
    (last_success_at_ high_watermark_ : option Z) (now : Z) (db : Warehouse) : Warehouse :=
  let t := _ensure_table db in
  Some (<[ (source, entity, key) :=
           match t !! (source, entity, key) with
           | None =>
               {| last_success_at := last_success_at_; high_watermark := high_watermark_;
                  updated_at := now |}
           | Some old =>
               {| last_success_at := coalesce last_success_at_ (last_success_at old);
                  high_watermark := coalesce high_watermark_ (high_watermark old);
                  updated_at := now |}
           end ]> t).

Definition set_last_success_at (source entity key : string) (value : option Z)
    (now : Z) (db : Warehouse) : Warehouse :=
  set_watermarks source entity key value None now db.

Definition set_high_watermark (source entity key : string) (value : option Z)
    (now : Z) (db : Warehouse) : Warehouse :=
  set_watermarks source entity key None value now db.

Definition get_watermark (entity : string) (default : option Z) (db : Warehouse)
    : Z * Warehouse :=
  get_high_watermark "default" entity "global" default db.

Definition set_watermark (entity : string) (value : option Z) (now : Z) (db : Warehouse)
    : Warehouse :=
  set_high_watermark "default" entity "global" value now db.

End Idempotency.
(* ===================================================================== *)
(** * The export script scripts/fetch_champions_league_2025.py *)
(* ===================================================================== *)

Module FetchScript.

Local Open Scope Z_scope.

Set Warnings "-register-all".

(** A decoded JSON value, which is also what a cell of a row holds; a
    number is a rational, and the members of an object are in the order of
    the document (the last one of a repeated key counts). *)
Inductive Json :=
| JNull
| JBool (b : bool)
| JNumber (n : Q)
| JString (s : string)
| JArray (items : list Json)
| JObject (members : list (string * Json)).

Set Warnings "register-all".

Inductive Exn :=
| RuntimeError (msg : string)
| ValueError
| AttributeError
| TypeError
| OtherException (str_exc : string).

Inductive Try (A : Type) :=
| Fine (a : A)
| Raise (e : Exn).
Arguments Fine {A} a.
Arguments Raise {A} e.

Definition BASE_URL : string := "https://api.football-data.org/v4".
Definition COMPETITION_CODE : string := "CL".

(** What one [urlopen] with the reading of the body leads to: the bytes
    read, an HTTPError with its code and body, another URLError, or an
    exception that is no URLError. *)
Inductive UrlOutcome :=
| Read (data : string)
| HTTPError (code : Z) (body : string)
| URLError (str_exc : string)
| Broken (str_exc : string).

(** [s.lstrip("/")] *)
Fixpoint lstrip_slash (s : string) : string :=
  match s with
  | String c r => if bool_decide (c = "/"%char) then lstrip_slash r else s
  | EmptyString => EmptyString
  end.

(** The value of a key in an object: the last member with that key. *)
Fixpoint member (key : string) (members : list (string * Json)) : option Json :=
  match members with
  | [] => None
  | (k, v) :: rest =>
      match member key rest with
      | Some later => Some later
      | None => if bool_decide (k = key) then Some v else None
      end
  end.

(** [value.get(key, default)]: AttributeError unless [value] is a dict. *)
Definition py_get (value : Json) (key : string) (default : Json) : Try Json :=
  match value with
  | JObject members =>
      Fine match member key members with
           | Some v => v
           | None => default
           end
  | _ => Raise AttributeError
  end.

(** [value.get(key)] *)
Definition get (value : Json) (key : string) : Try Json := py_get value key JNull.

(** The keys of a dict, each once, in the order of their first
    occurrence. *)
Definition keys {A} (members : list (string * A)) : list string :=
  foldl (fun acc kv => if bool_decide (kv.1 ∈ acc) then acc else acc ++ [kv.1]) [] members.

(** What [for x in value] runs over: the items of a list, the keys of a
    dict, the characters of a string (its bytes here: each is a string, on
    which the lookups of the loops below raise); TypeError for the rest. *)
Definition py_iter (value : Json) : Try (list Json) :=
  match value with
  | JArray items => Fine items
  | JObject members => Fine (JString <$> keys members)
  | JString s => Fine ((fun c => JString (String c EmptyString)) <$> list_ascii_of_string s)
  | JNull | JBool _ | JNumber _ => Raise TypeError
  end.

(** [bool(value)] *)
Definition truthy (value : Json) : bool :=
  match value with
  | JNull => false
  | JBool b => b
  | JNumber n => negb (Qeq_bool n 0)
  | JString s => negb (bool_decide (s = ""))
  | JArray items => negb (bool_decide (items = []))
  | JObject members => negb (bool_decide (members = []))
  end.

(** [value or []] *)
Definition or_empty_list (value : Json) : Json :=
  if truthy value then value else JArray [].

Definition try_bind {A B} (c : Try A) (k : A -> Try B) : Try B :=
  match c with
  | Fine a => k a
  | Raise e => Raise e
  end.

Declare Scope try_scope.
Delimit Scope try_scope with try.
Notation "x <- c ;; k" := (try_bind c (fun x => k))
  (at level 100, c at next level, right associativity) : try_scope.

(** A [for] loop that appends the rows of each pass; the first exception
    ends it. *)
Fixpoint for_each {A B} (items : list A) (body : A -> Try (list B)) : Try (list B) :=
  match items with
  | [] => Fine []
  | x :: rest =>
      (rows <- body x ;;
       more <- for_each rest body ;;
       Fine (rows ++ more))%try
  end.

(** A row: the dict literal of a pass, in the order written. *)
Definition Row := list (string * Json).

(** The entries [key: source.get(name)] of a dict literal, in order. *)
Fixpoint entries (fields : list (string * Json * string)) : Try Row :=
  match fields with
  | [] => Fine []
  | (key, source, name) :: rest =>
      (v <- get source name ;;
       more <- entries rest ;;
       Fine ((key, v) :: more))%try
  end.

Definition flatten_standings (data : Json) : Try (list Row) :=
  (standings <- py_get data "standings" (JArray []) ;;
   tables <- py_iter standings ;;
   for_each tables (fun table =>
     stage <- get table "stage" ;;
     group <- get table "group" ;;
     ttype <- get table "type" ;;
     table_ <- py_get table "table" (JArray []) ;;
     positions <- py_iter (or_empty_list table_) ;;
     for_each positions (fun position =>
       team <- py_get position "team" (JObject []) ;;
       row <- entries [ ("position", position, "position");
                        ("team_id", team, "id");
                        ("team_name", team, "name");
                        ("playedGames", position, "playedGames");
                        ("won", position, "won");
                        ("draw", position, "draw");
                        ("lost", position, "lost");
                        ("goalsFor", position, "goalsFor");
                        ("goalsAgainst", position, "goalsAgainst");
                        ("goalDifference", position, "goalDifference");
                        ("points", position, "points") ] ;;
       Fine [("stage", stage) :: ("group", group) :: ("type", ttype) :: row])))%try.

Definition flatten_teams (data : Json) : Try (list Row) :=
  (teams <- py_get data "teams" (JArray []) ;;
   teams <- py_iter (or_empty_list teams) ;;
   for_each teams (fun t =>
     area <- py_get t "area" (JObject []) ;;
     row <- entries [ ("id", t, "id");
                      ("name", t, "name");
                      ("shortName", t, "shortName");
                      ("tla", t, "tla");
                      ("area_id", area, "id");
                      ("area_name", area, "name");
                      ("founded", t, "founded");
                      ("clubColors", t, "clubColors");
                      ("venue", t, "venue");
                      ("website", t, "website") ] ;;
     Fine [row]))%try.

Definition flatten_matches (data : Json) : Try (list Row) :=
  (matches <- py_get data "matches" (JArray []) ;;
   matches <- py_iter (or_empty_list matches) ;;
   for_each matches (fun m =>
     comp <- py_get m "competition" (JObject []) ;;
     season <- py_get m "season" (JObject []) ;;
     score <- py_get m "score" (JObject []) ;;
     full <- py_get score "fullTime" (JObject []) ;;
     half <- py_get score "halfTime" (JObject []) ;;
     extra <- py_get score "extraTime" (JObject []) ;;
     pens <- py_get score "penalties" (JObject []) ;;
     home <- py_get m "homeTeam" (JObject []) ;;
     away <- py_get m "awayTeam" (JObject []) ;;
     row <- entries [ ("id", m, "id");
                      ("utcDate", m, "utcDate");
                      ("status", m, "status");
                      ("matchday", m, "matchday");
                      ("stage", m, "stage");
                      ("group", m, "group");
                      ("competition", comp, "name");
                      ("season_startDate", season, "startDate");
                      ("season_endDate", season, "endDate");
                      ("homeTeam_id", home, "id");
                      ("homeTeam_name", home, "name");
                      ("awayTeam_id", away, "id");
                      ("awayTeam_name", away, "name");
                      ("score_winner", score, "winner");
                      ("score_duration", score, "duration");
                      ("ft_home", full, "home");
                      ("ft_away", full, "away");
                      ("ht_home", half, "home");
                      ("ht_away", half, "away");
                      ("et_home", extra, "home");
                      ("et_away", extra, "away");
                      ("p_home", pens, "home");
                      ("p_away", pens, "away") ] ;;
     Fine [row]))%try.

Definition flatten_scorers (data : Json) : Try (list Row) :=
  (scorers <- py_get data "scorers" (JArray []) ;;
   scorers <- py_iter (or_empty_list scorers) ;;
   for_each scorers (fun s =>
     player <- py_get s "player" (JObject []) ;;
     team <- py_get s "team" (JObject []) ;;
     row <- entries [ ("player_id", player, "id");
                      ("player_name", player, "name");
                      ("nationality", player, "nationality");
                      ("team_id", team, "id");
                      ("team_name", team, "name");
                      ("goals", s, "goals");
                      ("assists", s, "assists");
                      ("penalties", s, "penalties") ] ;;
     Fine [row]))%try.

(** What [write_csv] puts into the file: the header written, if any, and
    the records, each with one cell per field. How the csv module spells
    a cell is not modelled. *)
Record Csv := {
  header : option (list string);
  records : list (list Json)
}.

(** [r.get(k, "")] on a row. *)
Definition cell (r : Row) (k : string) : Json :=
  default (JString "") (member k r).

(** [write_csv], as the content written to [path]. *)
Definition write_csv (rows : list Row) (field_order : option (list string)) : Csv :=
  match rows with
  | [] =>
      match field_order with
      | None | Some [] => {| header := None; records := [] |}
      | Some fields => {| header := Some fields; records := [] |}
      end
  | first :: _ =>
      let field_order := default (keys first) field_order in
      {| header := Some field_order;
         records := (fun r => cell r <$> field_order) <$> rows |}
  end.

(** The summary written as JSON at the end. *)
Record Summary := {
  fetched_at : string;
  competition : Row;
  season : Z;
  counts : list (string * nat);
  files : list (string * string)
}.

Inductive FileContent :=
| CsvContent (csv : Csv)
| JsonContent (summary : Summary).

(** What the script does to the outside, in order. *)
Inductive Event :=
| Request (url : string) (headers : gmap string string)
| Sleep (seconds : Z)
| MakeDirs (path : string)
| WriteFile (path : string) (content : FileContent)
| Stderr (text : string)
| Stdout (text : string).

Definition is_request (ev : Event) : bool :=
  match ev with Request _ _ => true | _ => false end.

Definition requests (tr : list Event) : list (string * gmap string string) :=
  omap (fun ev => match ev with Request u h => Some (u, h) | _ => None end) tr.

Definition pauses (tr : list Event) : list Z :=
  omap (fun ev => match ev with Sleep s => Some s | _ => None end) tr.

Definition written (tr : list Event) : list (string * FileContent) :=
  omap (fun ev => match ev with WriteFile p c => Some (p, c) | _ => None end) tr.

(** The line feed. *)
Definition LF : string := String (Ascii.ascii_of_nat 10) EmptyString.

(** What a pass of a loop ends with. *)
Inductive Pass (A : Type) :=
| Again
| Result (a : A).
Arguments Again {A}.
Arguments Result {A} a.

Section Http.

(** [os.environ] *)
Variable environ : gmap string string.

(** [s.strip()] *)
Variable strip : string -> string.

(** [urllib.parse.urlencode(params, doseq=True)] *)
Variable urlencode : list (string * string) -> string.

(** [json.loads(data.decode("utf-8"))]; [None] when it raises, a
    ValueError in both cases. *)
Variable json_loads : string -> option Json.

(** The network: the outcome of the request number [n] (from 0). *)
Variable urlopen : nat -> string -> gmap string string -> UrlOutcome.

Definition Script (A : Type) : Type := list Event -> Try A * list Event.

Definition ret {A} (a : A) : Script A := fun tr => (Fine a, tr).
Definition raise {A} (e : Exn) : Script A := fun tr => (Raise e, tr).
Definition bind {A B} (c : Script A) (k : A -> Script B) : Script B :=
  fun tr =>
    match c tr with
    | (Fine a, tr') => k a tr'
    | (Raise e, tr') => (Raise e, tr')
    end.
Definition emit (ev : Event) : Script unit := fun tr => (Fine tt, tr ++ [ev]).

Definition get_token : option string :=
  match environ !! "FOOTBALL_DATA_API_TOKEN" with
  | Some token => if bool_decide (token = "") then None else Some (strip token)
  | None => None
  end.

(** The URL of [http_get]; the parameters come as the pairs of texts that
    [urlencode] is given, none for no parameters. *)
Definition url_of (path : string) (params : list (string * string)) : string :=
  let url := (rstrip_slash BASE_URL ++ "/" ++ lstrip_slash path)%string in
  match params with
  | [] => url
  | _ => (url ++ "?" ++ urlencode params)%string
  end.

(** The headers of [http_get]; an empty token is no token. *)
Definition headers_of (token : option string) : gmap string string :=
  let headers : gmap string string := {[ "Accept" := "application/json" ]} in
  match token with
  | None | Some "" => headers
  | Some t => <[ "X-Auth-Token" := t ]> headers
  end.

(** [min(2 ** attempts, 16)] *)
Definition backoff (attempts : nat) : Z := Z.min (2 ^ Z.of_nat attempts) 16.

(** One pass through the body of [while True], [attempts] already
    incremented. *)
Definition attempt (url : string) (headers : gmap string string) (attempts : nat)
    : Script (Pass Json) :=
  fun tr =>
    let tr' := tr ++ [Request url headers] in
    match urlopen (length (List.filter is_request tr)) url headers with
    | Read data =>
        match json_loads data with
        | Some payload => (Fine (Result payload), tr')
        | None => (Raise ValueError, tr')
        end
    | HTTPError status body =>
        if bool_decide (status ∈ [429; 503]) && (attempts <? 5)%nat then
          (Fine Again, tr' ++ [Sleep (backoff attempts)])
        else
          (Raise (RuntimeError ("HTTP " ++ pretty status ++ " for " ++ url ++ ": " ++ body)), tr')
    | URLError str_exc =>
        if (attempts <? 5)%nat then (Fine Again, tr' ++ [Sleep (backoff attempts)])
        else (Raise (RuntimeError ("Network error for " ++ url ++ ": " ++ str_exc)), tr')
    | Broken str_exc => (Raise (OtherException str_exc), tr')
    end.

Lemma attempt_again url headers attempts tr tr' :
  attempt url headers attempts tr = (Fine Again, tr') -> (attempts < 5)%nat.
Proof.
  unfold attempt. destruct (urlopen _ url headers) as [data|status body|str_exc|str_exc].
  - destruct (json_loads data); discriminate.
  - destruct (bool_decide _); cbn [andb]; [|discriminate].
    destruct (Nat.ltb_spec attempts 5); [auto|discriminate].
  - destruct (Nat.ltb_spec attempts 5); [auto|discriminate].
  - discriminate.
Qed.

(** The [while True] loop, from the state in which [attempts] passes have
    been made. It ends because a pass is repeated only while
    [attempts < 5]. *)
Equations? http_get_loop (url : string) (headers : gmap string string)
    (attempts : nat) (tr : list Event) : Try Json * list Event
    by wf (5 - attempts)%nat lt :=
http_get_loop url headers attempts tr
    with inspect (attempt url headers (S attempts) tr) := {
  | exist _ (Fine Again, tr') H => http_get_loop url headers (S attempts) tr';
  | exist _ (Fine (Result payload), tr') H => (Fine payload, tr');
  | exist _ (Raise e, tr') H => (Raise e, tr') }.
Proof. apply attempt_again in H. lia. Qed.

(** [http_get(path, params, token)] *)
Definition http_get (path : string) (params : list (string * string))
    (token : option string) : Script Json :=
  http_get_loop (url_of path params) (headers_of token) 0.

(** ** The loop in closed form *)

(** An outcome after which a pass is repeated, while attempts are left. *)
Definition transient (o : UrlOutcome) : bool :=
  match o with
  | HTTPError status _ => bool_decide (status ∈ [429; 503])
  | URLError _ => true
  | Read _ | Broken _ => false
  end.

(** What the last pass of a call ends with. *)
Definition final (url : string) (o : UrlOutcome) : Try Json :=
  match o with
  | Read data =>
      match json_loads data with
      | Some payload => Fine payload
      | None => Raise ValueError
      end
  | HTTPError status body =>
      Raise (RuntimeError ("HTTP " ++ pretty status ++ " for " ++ url ++ ": " ++ body))
  | URLError str_exc => Raise (RuntimeError ("Network error for " ++ url ++ ": " ++ str_exc))
  | Broken str_exc => Raise (OtherException str_exc)
  end.

(** The number of repeated passes of a call whose first request is the
    request number [n]: the transient outcomes in a row from there,
    [budget] at most. *)
Fixpoint retries (url : string) (headers : gmap string string) (budget : nat) (n : nat) : nat :=
  match budget with
  | O => O
  | S b => if transient (urlopen n url headers) then S (retries url headers b (S n)) else O
  end.

(** The events of [k] repeated passes after [attempts] passes. *)
Fixpoint retries_trace (url : string) (headers : gmap string string) (attempts k : nat)
    : list Event :=
  match k with
  | O => []
  | S k =>
      Request url headers :: Sleep (backoff (S attempts))
      :: retries_trace url headers (S attempts) k
  end.

(** [os.path.join] *)
Variable path_join : string -> string -> string.

(** [datetime.utcnow().isoformat()] when the summary is built. *)
Variable utcnow_isoformat : string.

Definition lift {A} (c : Try A) : Script A := fun tr => (c, tr).

(** [try: c except RuntimeError as e: handler] *)
Definition except_RuntimeError {A} (c : Script A) (handler : string -> Script A) : Script A :=
  fun tr =>
    match c tr with
    | (Raise (RuntimeError msg), tr') => handler msg tr'
    | r => r
    end.

Definition ensure_output_dir (path : string) : Script string :=
  bind (emit (MakeDirs path)) (fun _ => ret path).

(** One of the four exports of [main]: the rows fetched and flattened, or
    none after the warning; then the file. *)
Definition export (path : string) (params : list (string * string)) (token : string)
    (flatten : Json -> Try (list Row)) (warning : string -> string) (file : string)
    : Script (list Row) :=
  bind (except_RuntimeError
          (bind (http_get path params (Some token)) (fun data => lift (flatten data)))
          (fun e => bind (emit (Stderr (warning e))) (fun _ => ret [])))
       (fun rows =>
  bind (emit (WriteFile file (CsvContent (write_csv rows None)))) (fun _ =>
  ret rows)).

(** [main] from the standings on, with the competition fetched. *)
Definition after_competition (token outdir : string) (comp : Json) : Script Z :=
  bind (export ("competitions/" ++ COMPETITION_CODE ++ "/standings")%string [("season", "2025")]
          token flatten_standings
          (fun e => ("Aviso: standings não disponível para CL 2025 (ou seu plano atual). "
                     ++ "Detalhes: " ++ e ++ LF)%string)
          (path_join outdir "cl_2025_standings.csv")) (fun standings_rows =>
  bind (export ("competitions/" ++ COMPETITION_CODE ++ "/teams")%string [("season", "2025")]
          token flatten_teams
          (fun e => ("Aviso: não foi possível obter times CL 2025: " ++ e ++ LF)%string)
          (path_join outdir "cl_2025_teams.csv")) (fun teams_rows =>
  bind (export ("competitions/" ++ COMPETITION_CODE ++ "/matches")%string
          [("dateFrom", "2025-01-01"); ("dateTo", "2025-12-31")]
          token flatten_matches
          (fun e => ("Aviso: não foi possível obter partidas CL no ano 2025: " ++ e ++ LF)%string)
          (path_join outdir "cl_2025_matches.csv")) (fun matches_rows =>
  bind (export ("competitions/" ++ COMPETITION_CODE ++ "/scorers")%string
          [("season", "2025"); ("limit", "50")]
          token flatten_scorers
          (fun e => ("Aviso: não foi possível obter artilharia: " ++ e ++ LF)%string)
          (path_join outdir "cl_2025_scorers.csv")) (fun scorers_rows =>
  let files := [ ("standings_csv", path_join outdir "cl_2025_standings.csv");
                 ("teams_csv", path_join outdir "cl_2025_teams.csv");
                 ("matches_csv", path_join outdir "cl_2025_matches.csv");
                 ("scorers_csv", path_join outdir "cl_2025_scorers.csv") ] in
  bind (lift (entries [ ("id", comp, "id"); ("name", comp, "name");
                        ("code", comp, "code"); ("type", comp, "type");
                        ("emblem", comp, "emblem"); ("area", comp, "area") ]))
       (fun competition_ =>
  let summary :=
    {| fetched_at := (utcnow_isoformat ++ "Z")%string;
       competition := competition_;
       season := 2025;
       counts := [ ("standings_rows", length standings_rows);
                   ("teams", length teams_rows);
                   ("matches_2025", length matches_rows);
                   ("scorers", length scorers_rows) ];
       files := files |} in
  bind (emit (WriteFile (path_join outdir "cl_2025_summary.json") (JsonContent summary)))
       (fun _ =>
  bind (emit (Stdout ("Dados salvos em:" ++ LF)%string)) (fun _ =>
  bind (foldr (fun kv rest =>
                 bind (emit (Stdout (" - " ++ kv.1 ++ ": " ++ kv.2 ++ LF)%string)) (fun _ => rest))
              (ret tt) files) (fun _ =>
  ret 0)))))))).

Definition main : Script Z :=
  match get_token with
  | None | Some "" =>
      bind (emit (Stderr ("ERRO: defina a variável de ambiente FOOTBALL_DATA_API_TOKEN "
                          ++ "com seu token da API." ++ LF)%string)) (fun _ =>
      bind (emit (Stderr ("Ex.: PowerShell -> $env:FOOTBALL_DATA_API_TOKEN='seu_token_aqui'"
                          ++ LF)%string)) (fun _ =>
      ret 2))
  | Some token =>
      bind (ensure_output_dir "output") (fun outdir =>
      bind (http_get ("competitions/" ++ COMPETITION_CODE)%string [] (Some token)) (fun comp =>
      after_competition token outdir comp))
  end.

End Http.

End FetchScript.

(** A server that answers 429 twice and then with a body, and a decoder
    that reads every body as the empty object. *)
Definition limited_twice (n : nat) (url : string) (headers : gmap string string)
    : FetchScript.UrlOutcome :=
  if (n <? 2)%nat then FetchScript.HTTPError 429 "Too Many Requests"
  else FetchScript.Read "{}".

Definition loads_empty_object (data : string) : option FetchScript.Json :=
  Some (FetchScript.JObject []).

(** A match of the feed, with its nested objects, the extra time and the
    penalties left out as the feed does for a match decided in regular
    time. *)
Definition sample_match : FetchScript.Json :=
  FetchScript.JObject
    [ ("id", FetchScript.JNumber 537785);
      ("utcDate", FetchScript.JString "2025-09-16T19:00:00Z");
      ("status", FetchScript.JString "FINISHED");
      ("matchday", FetchScript.JNumber 1);
      ("stage", FetchScript.JString "LEAGUE_STAGE");
      ("group", FetchScript.JNull);
      ("competition", FetchScript.JObject [("name", FetchScript.JString "UEFA Champions League")]);
      ("season", FetchScript.JObject [("startDate", FetchScript.JString "2025-09-16");
                                      ("endDate", FetchScript.JString "2026-05-30")]);
      ("homeTeam", FetchScript.JObject [("id", FetchScript.JNumber 81);
                                        ("name", FetchScript.JString "FC Barcelona")]);
      ("awayTeam", FetchScript.JObject [("id", FetchScript.JNumber 98);
                                        ("name", FetchScript.JString "AC Milan")]);
      ("score", FetchScript.JObject
                  [("winner", FetchScript.JString "HOME_TEAM");
                   ("duration", FetchScript.JString "REGULAR");
                   ("fullTime", FetchScript.JObject [("home", FetchScript.JNumber 2);
                                                     ("away", FetchScript.JNumber 1)]);
                   ("halfTime", FetchScript.JObject [("home", FetchScript.JNumber 1);
                                                     ("away", FetchScript.JNumber 0)])]) ].

(** A server that answers the first request and refuses the others. *)
Definition refused_after_first (n : nat) (url : string) (headers : gmap string string)
    : FetchScript.UrlOutcome :=
  if (n =? 0)%nat then FetchScript.Read "{}" else FetchScript.HTTPError 403 "Forbidden".

(** [os.path.join] of POSIX on two relative names. *)
Definition posix_join (a b : string) : string := (a ++ "/" ++ b)%string.

(* ===================================================================== *)
(** * The Latin-1 database satisfies the ASCII laws *)
(* ===================================================================== *)

Lemma forallb_cons_inv {A} (f : A -> bool) a l :
  forallb f (a :: l) = true -> f a = true /\ forallb f l = true.
Proof. simpl. intros H. apply andb_true_iff in H. exact H. Qed.

Module Latin1Laws.
Import Latin1.

Lemma decomposition_ascii c : is_ascii c = true -> decomposition c = None.
Proof.
  unfold is_ascii, decomposition. intros H. apply N.ltb_lt in H.
  repeat match goal with
  | |- context [?a =? ?b] => destruct (N.eqb_spec a b); try lia
  | |- context [?a <=? ?b] => destruct (N.leb_spec a b); try lia
  end; reflexivity.
Qed.

Lemma decompose_ascii s : forallb is_ascii s = true -> decompose s = s.
Proof.
  induction s as [|c s IH]; [reflexivity|].
  intros H. apply forallb_cons_inv in H. destruct H as [Hc Hs].
  unfold decompose in *. simpl. unfold nfkd_char at 1.
  rewrite (decomposition_ascii c Hc). simpl. now rewrite IH.
Qed.

Lemma combining_class_ascii c : is_ascii c = true -> combining_class c = 0.
Proof.
  unfold is_ascii, combining_class. intros H. apply N.ltb_lt in H.
  repeat match goal with
  | |- context [?a =? ?b] => destruct (N.eqb_spec a b); try lia
  | |- context [?a <=? ?b] => destruct (N.leb_spec a b); try lia
  end; reflexivity.
Qed.

Lemma lower_char_ascii c : is_ascii c = true -> lower_char c = ascii_lower c.
Proof.
  unfold is_ascii, lower_char, ascii_lower. intros H. apply N.ltb_lt in H.
  destruct (is_AZ c); [reflexivity|].
  repeat match goal with
  | |- context [?a =? ?b] => destruct (N.eqb_spec a b); try lia
  | |- context [?a <=? ?b] => destruct (N.leb_spec a b); try lia
  end; reflexivity.
Qed.

Lemma to_lower_ascii s : forallb is_ascii s = true -> to_lower s = List.map ascii_lower s.
Proof.
  induction s as [|c s IH]; [reflexivity|].
  intros H. apply forallb_cons_inv in H. destruct H as [Hc Hs].
  unfold to_lower in *. simpl. now rewrite (lower_char_ascii c Hc), IH.
Qed.

Lemma word_char_ascii c : is_ascii c = true -> word_char c = ascii_word c.
Proof. unfold word_char. now intros ->. Qed.

Definition latin1_db : Unicodedata := {|
  nfkd := decompose;
  combining := combining_class;
  lower := to_lower;
  title := ascii_title;
  isword := word_char;
  nfkd_ascii := decompose_ascii;
  combining_ascii := combining_class_ascii;
  lower_ascii := to_lower_ascii;
  title_ascii := fun s _ => eq_refl;
  isword_ascii := word_char_ascii
|}.

End Latin1Laws.

(* ===================================================================== *)
(** * The normaliser: canonical form *)
(* ===================================================================== *)

Lemma is_az09_not_space c : is_az09 c = true -> isspace c = false.
Proof.
  unfold is_az09, is_az, is_digit, isspace. intros H.
  repeat match goal with
  | |- context [?a =? ?b] => destruct (N.eqb_spec a b); try lia
  | |- context [?a <=? ?b] => destruct (N.leb_spec a b); try lia
  | H : context [?a <=? ?b] |- _ => destruct (N.leb_spec a b); try lia
  end; simpl in *; try reflexivity; try discriminate.
Qed.

Lemma is_az09_not_SP c : is_az09 c = true -> (c =? SP) = false.
Proof.
  unfold is_az09, is_az, is_digit, SP. intros H.
  destruct (N.eqb_spec c 32); [subst; discriminate | reflexivity].
Qed.

Lemma is_az09_ascii_word c : is_az09 c = true -> is_ascii c = true /\ ascii_word c = true.
Proof.
  unfold is_az09, ascii_word, is_ascii, is_az, is_digit. intros H. split.
  - apply N.ltb_lt.
    repeat match goal with
    | H : context [?a <=? ?b] |- _ => destruct (N.leb_spec a b); try lia
    end; simpl in *; discriminate.
  - destruct ((97 <=? c) && (c <=? 122)); [reflexivity|]. simpl in *.
    rewrite H. now rewrite orb_true_r.
Qed.

Lemma is_az09_isword `{U : Unicodedata} c : is_az09 c = true -> isword c = true.
Proof.
  intros H. destruct (is_az09_ascii_word c H) as [Ha Hw].
  now rewrite isword_ascii.
Qed.

(** ** [strip] and [trim] from the right, one character at a time *)

Lemma lstrip_snoc a c :
  lstrip (a ++ [c]) =
  match lstrip a with [] => (if isspace c then [] else [c]) | y => y ++ [c] end.
Proof.
  induction a as [|x a IH]; simpl; [destruct (isspace c); reflexivity|].
  destruct (isspace x); [exact IH | reflexivity].
Qed.

Lemma rstrip_cons c x :
  rstrip (c :: x) =
  match rstrip x with [] => (if isspace c then [] else [c]) | y => c :: y end.
Proof.
  unfold rstrip. simpl. rewrite lstrip_snoc.
  destruct (lstrip (rev x)) as [|y ys] eqn:E; simpl.
  - destruct (isspace c); reflexivity.
  - rewrite rev_app_distr. simpl.
    destruct (rev ys ++ [y]) eqn:E2; [now destruct (rev ys)|reflexivity].
Qed.

Lemma rstrip_cons_nonspace c x : isspace c = false -> rstrip (c :: x) = c :: rstrip x.
Proof. intros H. rewrite rstrip_cons, H. now destruct (rstrip x). Qed.

Lemma ltrim_snoc a c :
  ltrim (a ++ [c]) =
  match ltrim a with [] => (if c =? SP then [] else [c]) | y => y ++ [c] end.
Proof.
  induction a as [|x a IH]; simpl; [destruct (c =? SP); reflexivity|].
  destruct (x =? SP); [exact IH | reflexivity].
Qed.

Lemma rtrim_cons c x :
  rtrim (c :: x) =
  match rtrim x with [] => (if c =? SP then [] else [c]) | y => c :: y end.
Proof.
  unfold rtrim. simpl. rewrite ltrim_snoc.
  destruct (ltrim (rev x)) as [|y ys] eqn:E; simpl.
  - destruct (c =? SP); reflexivity.
  - rewrite rev_app_distr. simpl.
    destruct (rev ys ++ [y]) eqn:E2; [now destruct (rev ys)|reflexivity].
Qed.

Lemma rtrim_cons_nonspace c x : (c =? SP) = false -> rtrim (c :: x) = c :: rtrim x.
Proof. intros H. rewrite rtrim_cons, H. now destruct (rtrim x). Qed.

(** ** The regex pipeline computes the transducer *)

Lemma sub_space_after_collapse s b :
  sub_plus isspace b (sub_plus non_az09 b s) = sub_plus non_az09 b s.
Proof.
  revert b. induction s as [|c r IH]; intros b; simpl; [reflexivity|].
  change (non_az09 c) with (negb (is_az09 c)). destruct (is_az09 c) eqn:Hc; simpl.
  - rewrite (is_az09_not_space c Hc). now rewrite IH.
  - destruct b; simpl; [apply IH|]. now rewrite IH.
Qed.

Lemma lstrip_collapse s b :
  lstrip (sub_plus non_az09 b s) = sub_plus non_az09 true s.
Proof.
  revert b. induction s as [|c r IH]; intros b; simpl; [reflexivity|].
  change (non_az09 c) with (negb (is_az09 c)). destruct (is_az09 c) eqn:Hc; simpl.
  - now rewrite (is_az09_not_space c Hc).
  - destruct b; simpl; apply IH.
Qed.

Lemma nf_gap s :
  nf NfGap s = match nf NfStart s with [] => [] | y => SP :: y end.
Proof.
  induction s as [|c r IH]; simpl; [reflexivity|].
  destruct (is_az09 c); [reflexivity | exact IH].
Qed.

Lemma rstrip_collapse s :
  rstrip (sub_plus non_az09 true s) = nf NfStart s /\
  rstrip (sub_plus non_az09 false s) = nf NfWord s.
Proof.
  induction s as [|c r [IH1 IH2]]; simpl; [split; reflexivity|].
  change (non_az09 c) with (negb (is_az09 c)). destruct (is_az09 c) eqn:Hc; simpl.
  - rewrite (rstrip_cons_nonspace c _ (is_az09_not_space c Hc)), IH2. split; reflexivity.
  - split; [exact IH1|]. rewrite rstrip_cons, IH1, nf_gap.
    now destruct (nf NfStart r).
Qed.

Lemma regex_pipeline_nf s :
  strip (sub_plus isspace false (sub_plus non_az09 false s)) = nf NfStart s.
Proof.
  rewrite sub_space_after_collapse. unfold strip.
  rewrite lstrip_collapse. apply rstrip_collapse.
Qed.

(** ** The worded pipeline computes the transducer *)

Lemma ltrim_collapse_sep c r :
  is_az09 c = false -> ltrim (collapse (c :: r)) = ltrim (collapse r).
Proof.
  intros Hc. simpl. rewrite Hc. destruct r as [|d r']; [reflexivity|].
  destruct (is_az09 d); reflexivity.
Qed.

Lemma rtrim_collapse r : rtrim (collapse r) = nf NfWord r.
Proof.
  induction r as [|d r' IH]; [reflexivity|].
  cbn [collapse nf]. destruct (is_az09 d) eqn:Hd.
  - rewrite (rtrim_cons_nonspace d _ (is_az09_not_SP d Hd)). now rewrite IH.
  - cbn [nf_sep]. destruct r' as [|e r'']; [reflexivity|].
    cbn [nf] in *. destruct (is_az09 e) eqn:He.
    + rewrite rtrim_cons, IH. reflexivity.
    + rewrite IH. reflexivity.
Qed.

Lemma worded_pipeline_nf s : trim (collapse s) = nf NfStart s.
Proof.
  unfold trim.
  induction s as [|c r IH]; [reflexivity|].
  destruct (is_az09 c) eqn:Hc.
  - cbn [collapse nf]. rewrite Hc. cbn [ltrim]. rewrite (is_az09_not_SP c Hc).
    rewrite (rtrim_cons_nonspace c _ (is_az09_not_SP c Hc)). now rewrite rtrim_collapse.
  - rewrite (ltrim_collapse_sep c r Hc), IH. cbn [nf]. now rewrite Hc.
Qed.

(** ** The transducer writes canonical keys *)

Lemma nf_canonical_from s :
  canonical_from true (nf NfWord s) = true /\ canonical_from true (nf NfGap s) = true.
Proof.
  induction s as [|c r [IH1 IH2]]; [split; reflexivity|].
  cbn [nf]. destruct (is_az09 c) eqn:Hc; cbn [nf_sep canonical_from].
  - rewrite Hc. split; [exact IH1|]. simpl. exact IH1.
  - split; exact IH2.
Qed.

Lemma nf_canonical s : canonical (nf NfStart s) = true.
Proof.
  induction s as [|c r IH]; [reflexivity|].
  cbn [nf]. destruct (is_az09 c) eqn:Hc; cbn [nf_sep].
  - unfold canonical. cbn [canonical_from]. rewrite Hc. apply nf_canonical_from.
  - exact IH.
Qed.

Lemma canonical_from_words s :
  (canonical_from true s = true ->
     exists w ws, forallb is_az09 w = true /\ Forall is_word ws /\
                  s = w ++ List.flat_map (cons SP) ws) /\
  (canonical_from false s = true ->
     exists w ws, is_word w /\ Forall is_word ws /\
                  s = w ++ List.flat_map (cons SP) ws).
Proof.
  induction s as [|c r [IHt IHf]].
  - split; [|discriminate]. intros _. exists [], []. repeat split; constructor.
  - cbn [canonical_from]. destruct (is_az09 c) eqn:Hc.
    + assert (forall P : pystr -> Prop, (forall w, forallb is_az09 w = true -> P (c :: w)) ->
        canonical_from true r = true ->
        exists w ws, P w /\ Forall is_word ws /\ c :: r = w ++ List.flat_map (cons SP) ws) as K.
      { intros P HP H. destruct (IHt H) as (w & ws & Hw & Hws & ->).
        exists (c :: w), ws. repeat split; auto. }
      split; intros H.
      * apply (K (fun w => forallb is_az09 w = true)); auto.
        intros w Hw. simpl. now rewrite Hc, Hw.
      * apply (K is_word); auto. intros w Hw. split; [discriminate|]. simpl. now rewrite Hc, Hw.
    + split; [|intros H; apply andb_true_iff in H; destruct H as [H _];
                apply andb_true_iff in H; destruct H; discriminate].
      intros H. apply andb_true_iff in H. destruct H as [H1 H2].
      apply andb_true_iff in H1. destruct H1 as [H1 _].
      apply N.eqb_eq in H1. subst c.
      destruct (IHf H2) as (w & ws & Hw & Hws & ->).
      exists [], (w :: ws). repeat split; auto.
Qed.

Lemma canonical_words s :
  canonical s = true -> exists ws, Forall is_word ws /\ s = join_words ws.
Proof.
  destruct s as [|c r]; [exists []; split; [constructor | reflexivity]|].
  unfold canonical. intros H.
  destruct (proj2 (canonical_from_words (c :: r)) H) as (w & ws & Hw & Hws & ->).
  exists (w :: ws). split; [constructor; assumption | reflexivity].
Qed.

(* ===================================================================== *)
(** * The token substitution removes exactly the whole-word tokens *)
(* ===================================================================== *)

Section Tokens.
Context `{U : Unicodedata}.

Lemma tokens_eq :
  tokens = [[102; 99]; [99; 102]; [97; 99]; [99; 108; 117; 98]; [116; 104; 101]].
Proof. reflexivity. Qed.

Lemma tokens_word_chars t : t ∈ tokens -> t <> [] /\ forallb isword t = true.
Proof.
  rewrite tokens_eq. intros H.
  repeat (apply elem_of_cons in H as [->|H]);
    try (split; [discriminate|]; simpl;
         rewrite ?is_az09_isword by reflexivity; reflexivity).
  inversion H.
Qed.

Lemma word_split s : s = word_prefix s ++ word_suffix s.
Proof.
  induction s as [|c r IH]; [reflexivity|]. simpl.
  destruct (isword c); [simpl; now f_equal | reflexivity].
Qed.

Lemma word_prefix_all s : forallb isword (word_prefix s) = true.
Proof.
  induction s as [|c r IH]; [reflexivity|]. simpl.
  destruct (isword c) eqn:Hc; [simpl; now rewrite Hc | reflexivity].
Qed.

Lemma word_suffix_head s : isword_opt (head (word_suffix s)) = false.
Proof.
  induction s as [|c r IH]; [reflexivity|]. simpl.
  destruct (isword c) eqn:Hc; [exact IH | simpl; exact Hc].
Qed.

Lemma word_prefix_app w r :
  forallb isword w = true -> isword_opt (head r) = false -> word_prefix (w ++ r) = w.
Proof.
  induction w as [|c w IH]; simpl; intros Hw Hr.
  - destruct r as [|d r]; [reflexivity|]. simpl in *. now rewrite Hr.
  - apply andb_true_iff in Hw. destruct Hw as [Hc Hw]. rewrite Hc. f_equal. now apply IH.
Qed.

Lemma strip_prefix_Some t s r : strip_prefix t s = Some r -> s = t ++ r.
Proof.
  revert s. induction t as [|a t IH]; intros s; simpl.
  - now intros [= ->].
  - destruct s as [|b s]; [discriminate|].
    destruct (N.eqb_spec a b); [|discriminate]. subst b.
    intros H. f_equal. now apply IH.
Qed.

Lemma strip_prefix_app t r : strip_prefix t (t ++ r) = Some r.
Proof.
  induction t as [|a t IH]; [reflexivity|]. simpl. now rewrite N.eqb_refl.
Qed.

Lemma last_isword t : t <> [] -> forallb isword t = true -> isword_opt (last t) = true.
Proof.
  induction t as [|a t IH]; [congruence|]. intros _ H.
  apply andb_true_iff in H. destruct H as [Ha Ht].
  destruct t as [|b t]; [exact Ha|]. apply IH; [discriminate | exact Ht].
Qed.

(** At the start of a maximal word [w], the alternation matches exactly
    when [w] is one of the alternatives, and then it matches all of [w]. *)
Lemma match_alt_word alts w r :
  (forall t, t ∈ alts -> t <> [] /\ forallb isword t = true) ->
  forallb isword w = true -> isword_opt (head r) = false ->
  match_alt alts (w ++ r) = if bool_decide (w ∈ alts) then Some (length w) else None.
Proof.
  intros Halts Hw Hr. induction alts as [|t alts IH]; [reflexivity|].
  assert (Ht : t <> [] /\ forallb isword t = true) by (apply Halts; left).
  assert (IH' := IH (fun t' H' => Halts t' (proj2 (elem_of_cons _ _ _) (or_intror H')))).
  cbn [match_alt].
  assert (Hne : t <> w ->
    (if bool_decide (w ∈ t :: alts) then Some (length w) else None)
    = (if bool_decide (w ∈ alts) then Some (length w) else None)).
  { intros Hne. destruct (bool_decide_reflect (w ∈ alts)) as [Hin|Hin].
    - rewrite bool_decide_eq_true_2; [reflexivity | now right].
    - rewrite bool_decide_eq_false_2; [reflexivity|].
      intros H. apply elem_of_cons in H as [->|H]; [now apply Hne | now apply Hin]. }
  destruct (strip_prefix t (w ++ r)) as [rest|] eqn:Hp.
  - apply strip_prefix_Some in Hp. unfold boundary.
    rewrite (last_isword t (proj1 Ht) (proj2 Ht)). simpl.
    destruct (isword_opt (head rest)) eqn:Hrest; simpl.
    + rewrite IH'. symmetry. apply Hne. intros ->.
      apply app_inv_head in Hp. subst rest. congruence.
    + assert (t = w) as ->.
      { rewrite <- (word_prefix_app t rest (proj2 Ht) Hrest), <- Hp.
        now apply word_prefix_app. }
      rewrite bool_decide_eq_true_2; [reflexivity | left].
  - rewrite IH'. symmetry. apply Hne. intros ->.
    rewrite strip_prefix_app in Hp. discriminate.
Qed.

Lemma match_alt_nonword alts c r :
  (forall t, t ∈ alts -> t <> [] /\ forallb isword t = true) ->
  isword c = false -> match_alt alts (c :: r) = None.
Proof.
  intros Halts Hc. induction alts as [|t alts IH]; [reflexivity|].
  assert (Ht : t <> [] /\ forallb isword t = true) by (apply Halts; left).
  cbn [match_alt]. destruct t as [|a t]; [now destruct Ht|].
  cbn [strip_prefix]. destruct (N.eqb_spec a c).
  - subst a. destruct Ht as [_ Ht]. simpl in Ht. rewrite Hc in Ht. discriminate.
  - apply IH. intros t' H'. apply Halts. now right.
Qed.

(** ** The scan of [re.sub], word by word *)

Definition last_or (prev : option codepoint) (w : pystr) : option codepoint :=
  match last w with Some c => Some c | None => prev end.

Lemma last_or_cons prev c w : last_or prev (c :: w) = last_or (Some c) w.
Proof.
  unfold last_or. destruct w as [|d w]; [reflexivity|].
  rewrite last_cons_cons. destruct (last (d :: w)) eqn:E; [reflexivity|].
  now apply last_None in E.
Qed.

Lemma sub_tokens_skip w r prev :
  sub_tokens prev (length w) (w ++ r) = sub_tokens (last_or prev w) 0 r.
Proof.
  revert prev. induction w as [|c w IH]; intros prev; [reflexivity|].
  rewrite last_or_cons. cbn [length app sub_tokens]. apply IH.
Qed.

Lemma sub_tokens_inside w r prev :
  isword_opt prev = true -> forallb isword w = true ->
  sub_tokens prev 0 (w ++ r) = w ++ sub_tokens (last_or prev w) 0 r.
Proof.
  revert prev. induction w as [|c w IH]; intros prev Hp Hw; [reflexivity|].
  apply andb_true_iff in Hw. destruct Hw as [Hc Hw].
  rewrite last_or_cons. cbn [app sub_tokens]. unfold match_token, boundary.
  cbn [head isword_opt]. rewrite Hp, Hc. cbn [xorb]. f_equal.
  now apply IH.
Qed.

Lemma sub_tokens_nonword c r prev :
  isword c = false -> sub_tokens prev 0 (c :: r) = c :: sub_tokens (Some c) 0 r.
Proof.
  intros Hc. cbn [sub_tokens]. unfold match_token.
  rewrite (match_alt_nonword tokens c r tokens_word_chars Hc).
  now destruct (boundary prev (head (c :: r))).
Qed.

Lemma sub_tokens_word c w r prev :
  isword_opt prev = false -> forallb isword (c :: w) = true ->
  isword_opt (head r) = false ->
  sub_tokens prev 0 ((c :: w) ++ r) =
  (if bool_decide ((c :: w) ∈ tokens) then [SP] else c :: w)
    ++ sub_tokens (last_or prev (c :: w)) 0 r.
Proof.
  intros Hp Hw Hr. rewrite last_or_cons.
  pose proof (match_alt_word tokens (c :: w) r tokens_word_chars Hw Hr) as Hm.
  apply andb_true_iff in Hw. destruct Hw as [Hc Hw].
  cbn [app sub_tokens]. unfold match_token, boundary. cbn [head isword_opt].
  rewrite Hp, Hc. cbn [xorb]. cbn [app] in Hm. rewrite Hm.
  destruct (bool_decide ((c :: w) ∈ tokens)).
  - cbn [length pred app]. f_equal. apply sub_tokens_skip.
  - cbn [app]. f_equal. now apply sub_tokens_inside.
Qed.

(** ** The worded removal, word by word *)

Lemma remove_whole_words_word w r cur :
  forallb isword w = true ->
  remove_whole_words cur (w ++ r) = remove_whole_words (cur ++ w) r.
Proof.
  revert cur. induction w as [|c w IH]; intros cur Hw.
  - now rewrite app_nil_r.
  - apply andb_true_iff in Hw. destruct Hw as [Hc Hw].
    cbn [app remove_whole_words]. rewrite Hc, IH by assumption.
    now rewrite <- app_assoc.
Qed.

Lemma flush_word_nil : flush_word [] = [].
Proof.
  unfold flush_word. rewrite bool_decide_eq_false_2; [reflexivity|].
  rewrite tokens_eq. intros Hin.
  repeat (apply elem_of_cons in Hin as [Hin|Hin]; [discriminate|]).
  inversion Hin.
Qed.

Lemma remove_whole_words_end r cur :
  isword_opt (head r) = false ->
  remove_whole_words cur r = flush_word cur ++ remove_whole_words [] r.
Proof.
  destruct r as [|c r]; cbn [remove_whole_words head isword_opt]; intros H.
  - now rewrite flush_word_nil, app_nil_r.
  - now rewrite H, flush_word_nil.
Qed.

(** ** Both leave the same words *)

Lemma nf_sep_idem st : nf_sep (nf_sep st) = nf_sep st.
Proof. now destruct st. Qed.

Lemma nf_app_congr w x y :
  (forall st, nf st x = nf st y) -> forall st, nf st (w ++ x) = nf st (w ++ y).
Proof.
  intros H. induction w as [|c w IH]; intros st; [apply H|].
  cbn [app nf]. destruct (is_az09 c); [|apply IH].
  destruct st; now rewrite IH.
Qed.

Lemma isword_false_az09 c : isword c = false -> is_az09 c = false.
Proof.
  intros H. destruct (is_az09 c) eqn:E; [|reflexivity].
  rewrite (is_az09_isword c E) in H. discriminate.
Qed.

Lemma sub_tokens_remove_whole_words n s prev st :
  (length s <= n)%nat ->
  isword_opt prev = false \/ isword_opt (head s) = false ->
  nf st (sub_tokens prev 0 s) = nf st (remove_whole_words [] s).
Proof.
  revert s prev st. induction n as [|n IH]; intros s prev st Hn Hb.
  { destruct s; [reflexivity | simpl in Hn; lia]. }
  destruct s as [|c r]; [reflexivity|].
  destruct (isword c) eqn:Hc.
  - destruct Hb as [Hp|Hh]; [|simpl in Hh; congruence].
    pose proof (word_split (c :: r)) as Hs.
    pose proof (word_prefix_all (c :: r)) as Hw.
    pose proof (word_suffix_head (c :: r)) as Hr.
    cbn [word_prefix] in Hs, Hw. rewrite Hc in Hs, Hw.
    set (w := word_prefix r) in *. set (r0 := word_suffix (c :: r)) in *.
    assert (Hlen : (length r0 <= n)%nat).
    { apply (f_equal length) in Hs. rewrite length_app in Hs. simpl in Hs, Hn. lia. }
    rewrite Hs, (sub_tokens_word c w r0 prev Hp Hw Hr).
    change ((c :: w) ++ r0) with ((c :: w) ++ r0).
    rewrite (remove_whole_words_word (c :: w) r0 [] Hw). cbn [app].
    rewrite (remove_whole_words_end r0 (c :: w) Hr). unfold flush_word.
    assert (Hrest : forall p st', nf st' (sub_tokens p 0 r0) = nf st' (remove_whole_words [] r0)).
    { intros p st'. apply IH; [exact Hlen | now right]. }
    destruct (decide ((c :: w) ∈ tokens)) as [Hin|Hin];
      [rewrite !bool_decide_eq_true_2 by exact Hin
      |rewrite !bool_decide_eq_false_2 by exact Hin].
    + cbn [app nf]. change (is_az09 SP) with false. cbv iota.
      destruct r0 as [|d r1]; [reflexivity|].
      cbn [head isword_opt] in Hr.
      rewrite (sub_tokens_nonword d r1 _ Hr).
      cbn [remove_whole_words]. rewrite Hr, flush_word_nil.
      cbn [app nf]. rewrite (isword_false_az09 d Hr), nf_sep_idem.
      apply IH; [simpl in Hlen; lia | now left].
    + apply nf_app_congr. intros st'. apply Hrest.
  - rewrite (sub_tokens_nonword c r prev Hc).
    cbn [remove_whole_words]. rewrite Hc, flush_word_nil.
    cbn [app nf]. rewrite (isword_false_az09 c Hc).
    apply IH; [simpl in Hn; lia | now left].
Qed.

End Tokens.

(* ===================================================================== *)
(** * The normaliser on ASCII text does not depend on the database *)
(* ===================================================================== *)

Section AsciiText.
Context (U1 U2 : Unicodedata).

Definition ascii_opt (o : option codepoint) : Prop :=
  forall c, o = Some c -> is_ascii c = true.

Lemma isword_opt_ascii o :
  ascii_opt o -> @isword_opt U1 o = @isword_opt U2 o.
Proof.
  destruct o as [c|]; [|reflexivity]. intros H. simpl.
  now rewrite !isword_ascii by (now apply H).
Qed.

Lemma ascii_opt_head s : forallb is_ascii s = true -> ascii_opt (head s).
Proof.
  destruct s as [|c s]; intros H d; [discriminate|].
  intros [= <-]. now apply forallb_cons_inv in H.
Qed.

Lemma ascii_opt_last s : forallb is_ascii s = true -> ascii_opt (last s).
Proof.
  intros H d Hd. apply last_Some in Hd as [l' ->].
  rewrite forallb_app in H. apply andb_true_iff in H as [_ H].
  simpl in H. now rewrite andb_true_r in H.
Qed.

Lemma match_alt_ascii alts s :
  Forall (fun t => forallb is_ascii t = true) alts -> forallb is_ascii s = true ->
  @match_alt U1 alts s = @match_alt U2 alts s.
Proof.
  intros Halts Hs. induction Halts as [|t alts Ht Halts IH]; [reflexivity|].
  cbn [match_alt]. rewrite IH. destruct (strip_prefix t s) as [rest|] eqn:Hp; [|reflexivity].
  apply strip_prefix_Some in Hp. subst s.
  rewrite forallb_app in Hs. apply andb_true_iff in Hs as [_ Hrest].
  unfold boundary.
  rewrite (isword_opt_ascii (last t)) by now apply ascii_opt_last.
  rewrite (isword_opt_ascii (head rest)) by now apply ascii_opt_head.
  reflexivity.
Qed.

Lemma tokens_ascii : Forall (fun t => forallb is_ascii t = true) tokens.
Proof. repeat constructor. Qed.

Lemma sub_tokens_ascii s prev k :
  forallb is_ascii s = true -> ascii_opt prev ->
  @sub_tokens U1 prev k s = @sub_tokens U2 prev k s.
Proof.
  revert prev k. induction s as [|c r IH]; intros prev k Hs Hp; [reflexivity|].
  pose proof Hs as Hs'. apply forallb_cons_inv in Hs' as [Hc Hr].
  assert (Hc' : ascii_opt (Some c)) by (now intros d [= <-]).
  cbn [sub_tokens]. destruct k as [|k]; [|now apply IH].
  unfold match_token, boundary.
  rewrite (isword_opt_ascii prev Hp), (isword_opt_ascii (head (c :: r)) Hc').
  rewrite (match_alt_ascii tokens (c :: r) tokens_ascii Hs).
  destruct (xorb _ _); [destruct (match_alt _ _)|]; rewrite IH; auto.
Qed.

End AsciiText.

Lemma ascii_lower_ascii s :
  forallb is_ascii s = true -> forallb is_ascii (List.map ascii_lower s) = true.
Proof.
  induction s as [|c s IH]; [reflexivity|]. intros H.
  apply forallb_cons_inv in H as [Hc Hs]. simpl. rewrite IH by assumption.
  rewrite andb_true_r. unfold ascii_lower, is_AZ, is_ascii in *.
  apply N.ltb_lt in Hc.
  destruct (N.leb_spec 65 c), (N.leb_spec c 90); simpl; apply N.ltb_lt; lia.
Qed.

Lemma strip_marks_ascii `{U : Unicodedata} s :
  forallb is_ascii s = true -> strip_marks s = s.
Proof.
  induction s as [|c s IH]; [reflexivity|]. intros H.
  apply forallb_cons_inv in H as [Hc Hs]. unfold strip_marks in *. simpl.
  rewrite (combining_ascii c Hc). simpl. now rewrite IH.
Qed.

Lemma normalize_ascii (U1 U2 : Unicodedata) s :
  forallb is_ascii s = true ->
  @_normalize_team_name U1 (Some s) = @_normalize_team_name U2 (Some s).
Proof.
  intros Hs. destruct s as [|c s]; [reflexivity|].
  unfold _normalize_team_name.
  rewrite !nfkd_ascii by assumption.
  fold (@strip_marks U1 (c :: s)). fold (@strip_marks U2 (c :: s)).
  rewrite (@strip_marks_ascii U1), (@strip_marks_ascii U2) by assumption.
  rewrite !lower_ascii by assumption.
  rewrite (sub_tokens_ascii U1 U2); [reflexivity | now apply ascii_lower_ascii | discriminate].
Qed.

(* ===================================================================== *)
(** * What the description says about the normaliser *)
(* ===================================================================== *)

Lemma normalize_nf `{U : Unicodedata} c s :
  _normalize_team_name (Some (c :: s)) =
  nf NfStart (remove_whole_words [] (lower (strip_marks (nfkd (c :: s))))).
Proof.
  unfold _normalize_team_name. fold (strip_marks (nfkd (c :: s))).
  rewrite regex_pipeline_nf.
  apply (sub_tokens_remove_whole_words _ _ None NfStart (Nat.le_refl _)). now left.
Qed.

(** C2. The normaliser computes what its description says: decompose and
    strip the combining marks, lowercase, drop the whole-word tokens fc, cf,
    ac, club and the, turn every run of characters outside [a-z0-9] into one
    space, trim; [None] and the empty string give the empty key; "FC
    Barcelona", "Barcelona CF" and "barcelona" give the same key. *)
Theorem normalize_team_name_as_described `{U : Unicodedata} :
  (forall name, _normalize_team_name name = spec_normalize name) /\
  _normalize_team_name None = [] /\
  _normalize_team_name (Some []) = [] /\
  _normalize_team_name (Some (py "FC Barcelona")) = py "barcelona" /\
  _normalize_team_name (Some (py "Barcelona CF")) = py "barcelona" /\
  _normalize_team_name (Some (py "barcelona")) = py "barcelona".
Proof.
  split; [|repeat split;
    try (rewrite (normalize_ascii U Latin1Laws.latin1_db) by reflexivity);
    reflexivity].
  intros [[|c s]|]; try reflexivity.
  rewrite normalize_nf. unfold spec_normalize.
  rewrite bool_decide_eq_false_2 by discriminate.
  now rewrite worded_pipeline_nf.
Qed.

(** C10. Every key the normaliser returns is in canonical form: it is
    empty, or it consists of words over [a-z0-9] with exactly one space
    between consecutive words and no space at either end. *)
Theorem normalize_team_name_canonical `{U : Unicodedata} (name : option pystr) :
  canonical (_normalize_team_name name) = true /\
  exists ws, Forall is_word ws /\ _normalize_team_name name = join_words ws.
Proof.
  assert (H : canonical (_normalize_team_name name) = true).
  { destruct name as [[|c s]|]; try reflexivity.
    rewrite normalize_nf. apply nf_canonical. }
  split; [exact H | now apply canonical_words].
Qed.

(* ===================================================================== *)
(** * Selection of the next round *)
(* ===================================================================== *)

#[global] Instance by_utcDate_trans : Transitive by_utcDate.
Proof.
  intros a b c. unfold by_utcDate, ts_le.
  destruct (utcDate a), (utcDate b), (utcDate c); try congruence.
  rewrite !Z.leb_le. lia.
Qed.

#[global] Instance by_utcDate_total : Total by_utcDate.
Proof.
  intros a b. unfold by_utcDate, ts_le.
  destruct (utcDate a), (utcDate b); auto.
  rewrite !Z.leb_le. lia.
Qed.




Section SelectionFacts.
Variable strftime : string -> string -> timestamp -> string.
Variable sort_values : list Fixture -> list Fixture.
Hypothesis sort_values_perm : forall l, sort_values l ≡ₚ l.
Hypothesis sort_values_sorted : forall l, Sorted by_utcDate (sort_values l).












End SelectionFacts.


(* ===================================================================== *)
(** * Sorting, distinct values and the median *)
(* ===================================================================== *)

Section SortBy.
Context {A : Type} (leb : A -> A -> bool).
Hypothesis leb_total : forall x y, leb x y = true \/ leb y x = true.
Hypothesis leb_trans : forall x y z, leb x y = true -> leb y z = true -> leb x z = true.

Let R (x y : A) : Prop := leb x y = true.

Lemma insert_by_perm x l : insert_by leb x l ≡ₚ x :: l.
Proof.
  induction l as [|y r IH]; simpl; [reflexivity|].
  destruct (leb x y); [reflexivity|].
  rewrite IH. apply perm_swap.
Qed.

Lemma sort_by_perm l : sort_by leb l ≡ₚ l.
Proof.
  induction l as [|x l IH]; simpl; [reflexivity|].
  unfold sort_by in *. simpl. now rewrite insert_by_perm, IH.
Qed.



Lemma sort_by_In x l : In x (sort_by leb l) <-> In x l.
Proof.
  split; apply Permutation_in; [|symmetry]; apply sort_by_perm.
Qed.



End SortBy.












(* ===================================================================== *)
(** * The reconcilers: joining and labelling *)
(* ===================================================================== *)

Lemma median_nil : median [] = None.
Proof. reflexivity. Qed.



Lemma filter_none {A} (f : A -> bool) l :
  (forall x, In x l -> f x = false) -> List.filter f l = [].
Proof.
  induction l as [|x l IH]; [reflexivity|]. intros H. simpl.
  rewrite (H x) by now left. apply IH. intros y Hy. apply H. now right.
Qed.


Lemma flat_map_nil {A B} (f : A -> list B) l :
  (forall x, f x = []) -> List.flat_map f l = [].
Proof.
  intros H. induction l as [|x l IH]; [reflexivity|]. simpl. now rewrite H, IH.
Qed.

Section ReconcilerFacts.
Context `{U : Unicodedata}.
Variable strftime : string -> string -> timestamp -> string.

Lemma merge_nil_r odds : merge odds [] = [].
Proof. unfold merge. now apply flat_map_nil. Qed.

Lemma merge_In odds fixtures o f :
  In (o, f) (merge odds fixtures) <->
  In o odds /\ exists kf, In kf fixtures /\ same_keys o kf = true /\ f = row kf.
Proof.
  unfold merge. rewrite in_flat_map. split.
  - intros (o' & Ho & H). apply in_map_iff in H as (kf & [= <- <-] & Hkf).
    apply filter_In in Hkf as [Hkf Hs]. split; [exact Ho|]. now exists kf.
  - intros (Ho & kf & Hkf & Hs & ->). exists o. split; [exact Ho|].
    apply in_map_iff. exists kf. split; [reflexivity|]. now apply filter_In.
Qed.

(** The join keeps a quote and a fixture together exactly when the quote
    is of the market and names both sides as the fixture does. *)
Lemma joined_In market fixtures_df odds_df o f :
  In (o, f) (joined market fixtures_df odds_df) <->
  exists q, In q odds_df /\ market_key q = market /\
            o = with_norms odds_home_team odds_away_team q /\
            In f fixtures_df /\ exact_match f q = true.
Proof.
  unfold joined. rewrite merge_In, in_map_iff. split.
  - intros ((q & <- & Hq) & kf & Hkf & Hs & ->).
    apply filter_In in Hq as [Hq Hm]. apply bool_decide_eq_true_1 in Hm.
    apply in_map_iff in Hkf as (f & <- & Hf).
    exists q. repeat split; auto.
  - intros (q & Hq & Hm & -> & Hf & He). split.
    + exists q. split; [reflexivity|]. apply filter_In. split; [exact Hq|].
      now apply bool_decide_eq_true_2.
    + exists (with_norms home_team away_team f). split; [|split; [exact He | reflexivity]].
      apply in_map_iff. now exists f.
Qed.


Lemma labelled_fst merged :
  List.map fst (labelled merged) = List.filter (fun r => notna (_map_outcome r)) merged.
Proof.
  unfold labelled. induction merged as [|r l IH]; [reflexivity|]. simpl.
  destruct (_map_outcome r); simpl; [f_equal|]; exact IH.
Qed.

Lemma labelled_nil merged :
  labelled merged = [] <-> List.filter (fun r => notna (_map_outcome r)) merged = [].
Proof.
  rewrite <- labelled_fst. destruct (labelled merged); simpl; split; congruence.
Qed.




(** The summary is a function of the labelled rows of the join. *)
Lemma build_moneyline_summary_joined fixtures_df odds_df :
  build_moneyline_summary strftime fixtures_df odds_df =
  match labelled (joined "h2h" fixtures_df odds_df) with
  | [] => []
  | match_info :: _ =>
      [summary strftime (labelled (joined "h2h" fixtures_df odds_df)) match_info]
  end.
Proof.
  unfold build_moneyline_summary, joined.
  destruct fixtures_df as [|f fs].
  { simpl. now rewrite merge_nil_r. }
  destruct odds_df as [|q qs]; [reflexivity|].
  destruct (List.filter (is_market "h2h") (q :: qs)) as [|q' qs'] eqn:Eq; [reflexivity|].
  set (merged := merge _ _). destruct merged; reflexivity.
Qed.

End ReconcilerFacts.

(* ===================================================================== *)
(** * On ASCII frames the reconcilers do not depend on the database *)
(* ===================================================================== *)


Section AsciiFrames.
Context (U1 U2 : Unicodedata).

Lemma normalize_ascii_name n :
  ascii_name n = true -> @_normalize_team_name U1 n = @_normalize_team_name U2 n.
Proof.
  destruct n as [s|]; [|reflexivity]. apply normalize_ascii.
Qed.

Lemma joined_ascii market fixtures_df odds_df :
  forallb ascii_fixture fixtures_df = true -> forallb ascii_quote odds_df = true ->
  @joined U1 market fixtures_df odds_df = @joined U2 market fixtures_df odds_df.
Proof.
  intros Hf Hq. rewrite forallb_forall in Hf, Hq. unfold joined. f_equal.
  - apply map_ext_in. intros q Hin. apply filter_In in Hin as [Hin _].
    apply Hq in Hin. unfold ascii_quote in Hin.
    apply andb_true_iff in Hin as [Hin _]. apply andb_true_iff in Hin as [Hh Ha].
    unfold with_norms. now rewrite (normalize_ascii_name _ Hh), (normalize_ascii_name _ Ha).
  - apply map_ext_in. intros f Hin. apply Hf in Hin. unfold ascii_fixture in Hin.
    apply andb_true_iff in Hin as [Hh Ha].
    unfold with_norms. now rewrite (normalize_ascii_name _ Hh), (normalize_ascii_name _ Ha).
Qed.

Lemma joined_quote_ascii market fixtures_df odds_df r :
  forallb ascii_quote odds_df = true ->
  In r (@joined U2 market fixtures_df odds_df) ->
  ascii_name (outcome_name (row r.1)) = true.
Proof.
  intros Hq Hin. destruct r as [o f].
  apply joined_In in Hin as (q & Hin & _ & -> & _).
  rewrite forallb_forall in Hq. apply Hq in Hin. unfold ascii_quote in Hin.
  now apply andb_true_iff in Hin as [_ Hin].
Qed.



End AsciiFrames.

(* ===================================================================== *)
(** * The moneyline summary *)
(* ===================================================================== *)

Section MoneylineClaim.
Context `{U : Unicodedata}.
Variable strftime : string -> string -> timestamp -> string.



End MoneylineClaim.


(* ===================================================================== *)
(** * Empty stages, and the exact join *)
(* ===================================================================== *)

Section JoinClaims.
Context `{U : Unicodedata}.
Variable strftime : string -> string -> timestamp -> string.

Lemma build_totals_table_joined fixtures_df odds_df :
  build_totals_table strftime fixtures_df odds_df =
  totals_table_of strftime (joined "totals" fixtures_df odds_df).
Proof.
  unfold build_totals_table, totals_table_of, joined.
  destruct fixtures_df as [|f fs].
  { simpl. now rewrite merge_nil_r. }
  destruct odds_df as [|q qs]; [reflexivity|].
  destruct (List.filter (is_market "totals") (q :: qs)) as [|q' qs'] eqn:Eq; [reflexivity|].
  reflexivity.
Qed.

Lemma joined_nil_l market odds_df : joined market [] odds_df = [].
Proof. unfold joined. apply merge_nil_r. Qed.

Lemma joined_no_quotes market fixtures_df odds_df :
  List.filter (is_market market) odds_df = [] -> joined market fixtures_df odds_df = [].
Proof. unfold joined. now intros ->. Qed.

Lemma same_keys_exact (f : Fixture) (q : OddsQuote) :
  same_keys (with_norms odds_home_team odds_away_team q) (with_norms home_team away_team f)
  = exact_match f q.
Proof. reflexivity. Qed.

(** Quotes that name no fixture side by side do not reach the join. *)
Lemma joined_exact_only market fixtures_df odds_df :
  joined market fixtures_df
    (List.filter (fun q => existsb (fun f => exact_match f q) fixtures_df) odds_df)
  = joined market fixtures_df odds_df.
Proof.
  unfold joined, merge. induction odds_df as [|q qs IH]; [reflexivity|].
  cbn [List.filter]. destruct (existsb (fun f => exact_match f q) fixtures_df) eqn:Ex.
  - cbn [List.filter]. destruct (is_market market q); [|exact IH].
    cbn [List.map List.flat_map]. now rewrite IH.
  - rewrite IH. destruct (is_market market q); [|reflexivity].
    cbn [List.map List.flat_map].
    rewrite (filter_none (same_keys (with_norms odds_home_team odds_away_team q)));
      [reflexivity|].
    intros kf Hkf. apply in_map_iff in Hkf as (f & <- & Hf).
    rewrite same_keys_exact.
    destruct (exact_match f q) eqn:E; [|reflexivity].
    assert (existsb (fun f => exact_match f q) fixtures_df = true); [|congruence].
    apply existsb_exists. now exists f.
Qed.

Lemma joined_no_exact market fixtures_df odds_df :
  (forall f q, In f fixtures_df -> In q odds_df -> exact_match f q = false) ->
  joined market fixtures_df odds_df = [].
Proof.
  intros H. destruct (joined market fixtures_df odds_df) as [|[o f] rest] eqn:E; [reflexivity|].
  assert (Hin : In (o, f) (joined market fixtures_df odds_df)) by (rewrite E; now left).
  apply joined_In in Hin as (q & Hq & _ & _ & Hf & He).
  rewrite (H f q Hf Hq) in He. discriminate.
Qed.

Lemma pivot_lines_nil : pivot_lines [] = [].
Proof. reflexivity. Qed.

End JoinClaims.

(** C7. Whenever a stage of a reconciler is empty (no fixtures, no odds,
    no quote of the market, an empty join, no row with a label, an empty
    pivot) the reconciler returns the empty frame; it does not raise. *)
Theorem empty_stage_gives_empty_frame `{U : Unicodedata}
  (strftime : string -> string -> timestamp -> string)
  (fixtures_df : list Fixture) (odds_df : list OddsQuote) :
  let moneyline := build_moneyline_summary strftime fixtures_df odds_df in
  let totals := build_totals_table strftime fixtures_df odds_df in
  (fixtures_df = [] \/ odds_df = [] -> moneyline = [] /\ totals = Returned []) /\
  (List.filter (is_market "h2h") odds_df = [] -> moneyline = []) /\
  (List.filter (is_market "totals") odds_df = [] -> totals = Returned []) /\
  (joined "h2h" fixtures_df odds_df = [] -> moneyline = []) /\
  (joined "totals" fixtures_df odds_df = [] -> totals = Returned []) /\
  (List.filter (fun r => notna (_map_outcome r)) (joined "h2h" fixtures_df odds_df) = [] ->
     moneyline = []) /\
  (omap point_and_name (joined "totals" fixtures_df odds_df) = [] ->
     totals = Returned []).
Proof.
  intros moneyline totals. unfold moneyline, totals.
  rewrite build_moneyline_summary_joined, build_totals_table_joined.
  assert (Hm : joined "h2h" fixtures_df odds_df = [] ->
    match labelled (joined "h2h" fixtures_df odds_df) with
    | [] => []
    | match_info :: _ =>
        [summary strftime (labelled (joined "h2h" fixtures_df odds_df)) match_info]
    end = []) by (now intros ->).
  assert (Ht : joined "totals" fixtures_df odds_df = [] ->
    totals_table_of strftime (joined "totals" fixtures_df odds_df) = Returned [])
    by (now intros ->).
  repeat split.
  - apply Hm. destruct H as [-> | ->]; [apply joined_nil_l | now apply joined_no_quotes].
  - apply Ht. destruct H as [-> | ->]; [apply joined_nil_l | now apply joined_no_quotes].
  - intros H. now apply Hm, joined_no_quotes.
  - intros H. now apply Ht, joined_no_quotes.
  - exact Hm.
  - exact Ht.
  - intros H. apply labelled_nil in H. now rewrite H.
  - intros H. unfold totals_table_of. rewrite H.
    destruct (joined "totals" fixtures_df odds_df); reflexivity.
Qed.

(* ===================================================================== *)
(** * Swapped sides: out of the join, visible in the debug view *)
(* ===================================================================== *)

Lemma first_notna_const {A} (l : list (option A)) v :
  l <> [] -> (forall x, In x l -> x = v) -> first_notna l = v.
Proof.
  unfold first_notna. destruct v as [a|].
  - destruct l as [|x l]; [congruence|]. intros _ H.
    rewrite (H x) by now left. reflexivity.
  - intros _ H. induction l as [|x l IH]; [reflexivity|].
    rewrite (H x) by now left. simpl. apply IH. intros y Hy. apply H. now right.
Qed.

Lemma filter_filter_implied {A} (f g : A -> bool) l :
  (forall x, f x = true -> g x = true) ->
  List.filter f (List.filter g l) = List.filter f l.
Proof.
  intros H. induction l as [|x l IH]; [reflexivity|]. simpl.
  destruct (g x) eqn:Eg; simpl.
  - now rewrite IH.
  - rewrite IH. destruct (f x) eqn:Ef; [|reflexivity].
    rewrite (H x Ef) in Eg. discriminate.
Qed.

Section SwappedClaim.
Context `{U : Unicodedata}.
Variable strftime : string -> string -> timestamp -> string.

Lemma overview_row_of_event odds_df q e :
  In q odds_df -> event_id q = Some e ->
  (forall q', In q' odds_df -> event_id q' = Some e ->
     odds_home_team q' = odds_home_team q /\ odds_away_team q' = odds_away_team q) ->
  exists r, In r (_build_odds_overview odds_df) /\ ov_event_id r = e /\
            ov_home_norm r = _normalize_team_name (odds_home_team q) /\
            ov_away_norm r = _normalize_team_name (odds_away_team q).
Proof.
  intros Hq He Hsame. unfold _build_odds_overview.
  destruct odds_df as [|q0 qs] eqn:Eo; [destruct Hq|]. rewrite <- Eo in *. clear Eo q0 qs.
  set (x := List.filter (of_event e) odds_df).
  assert (Hx : In q x).
  { apply filter_In. split; [exact Hq|]. now apply bool_decide_eq_true_2. }
  assert (Hall : forall q', In q' x ->
            odds_home_team q' = odds_home_team q /\ odds_away_team q' = odds_away_team q).
  { intros q' Hq'. apply filter_In in Hq' as [Hin Hev].
    apply bool_decide_eq_true_1 in Hev. now apply Hsame. }
  assert (Hhome : first_notna (List.map odds_home_team x) = odds_home_team q).
  { apply first_notna_const.
    - destruct x; [destruct Hx | discriminate].
    - intros v Hv. apply in_map_iff in Hv as (q' & <- & Hq'). now apply Hall. }
  assert (Haway : first_notna (List.map odds_away_team x) = odds_away_team q).
  { apply first_notna_const.
    - destruct x; [destruct Hx | discriminate].
    - intros v Hv. apply in_map_iff in Hv as (q' & <- & Hq'). now apply Hall. }
  eexists. split.
  - apply in_map_iff. exists e. split; [reflexivity|].
    apply sort_by_In, list_elem_of_In, elem_of_remove_dups, list_elem_of_omap.
    exists q. split; [now apply list_elem_of_In | exact He].
  - cbn [ov_event_id ov_home_norm ov_away_norm]. fold x.
    rewrite Hhome, Haway. repeat split.
Qed.

Lemma swapped_quote_in_debug_view odds_df f q e :
  In q odds_df -> event_id q = Some e ->
  (forall q', In q' odds_df -> event_id q' = Some e ->
     odds_home_team q' = odds_home_team q /\ odds_away_team q' = odds_away_team q) ->
  swapped_match f q = true ->
  let overview := _build_odds_overview odds_df in
  (exists r, In r (swapped_lookup f overview) /\ ov_event_id r = e) /\
  (exact_lookup f overview = [] ->
   debug_odds_matching f overview = Some (SwappedFound (swapped_lookup f overview))).
Proof.
  intros Hq He Hsame Hsw overview.
  destruct (overview_row_of_event odds_df q e Hq He Hsame) as (r & Hr & Hre & Hh & Ha).
  fold overview in Hr.
  assert (Hin : In r (swapped_lookup f overview)).
  { apply filter_In. split; [exact Hr|]. rewrite Hh, Ha. exact Hsw. }
  split; [now exists r|].
  intros Hex. unfold debug_odds_matching. rewrite Hex.
  destruct overview as [|r0 rs] eqn:Eov; [destruct Hr|].
  destruct (swapped_lookup f (r0 :: rs)); [destruct Hin | reflexivity].
Qed.

Lemma exact_only_filter (fixtures_df : list Fixture) (odds_df : list OddsQuote) :
  List.filter (fun q => existsb (fun f => exact_match f q) fixtures_df)
    (List.filter (fun q => negb (existsb (fun f => swapped_only f q) fixtures_df)
                           || existsb (fun f => exact_match f q) fixtures_df) odds_df)
  = List.filter (fun q => existsb (fun f => exact_match f q) fixtures_df) odds_df.
Proof.
  apply filter_filter_implied. intros q ->. apply orb_true_r.
Qed.

End SwappedClaim.

(** C4. The production join keeps a quote only with a fixture whose two
    keys it repeats in the same order: restricting the odds to the quotes
    that do so changes neither summary, and the quotes of a fixture's event
    that carry its keys reversed can be removed without changing them; when
    no quote repeats the keys of a fixture in order, both are empty. The
    debug view finds the events with the keys reversed, by looking the
    reversed pair up in the overview. *)
Theorem swapped_sides_only_in_debug_view `{U : Unicodedata}
  (strftime : string -> string -> timestamp -> string)
  (fixtures_df : list Fixture) (odds_df : list OddsQuote) :
  let in_order q := existsb (fun f => exact_match f q) fixtures_df in
  let reversed q := existsb (fun f => swapped_only f q) fixtures_df in
  (forall market o f, In (o, f) (joined market fixtures_df odds_df) ->
     home_norm o = _normalize_team_name (home_team f) /\
     away_norm o = _normalize_team_name (away_team f)) /\
  build_moneyline_summary strftime fixtures_df (List.filter in_order odds_df)
    = build_moneyline_summary strftime fixtures_df odds_df /\
  build_totals_table strftime fixtures_df (List.filter in_order odds_df)
    = build_totals_table strftime fixtures_df odds_df /\
  build_moneyline_summary strftime fixtures_df
      (List.filter (fun q => negb (reversed q) || in_order q) odds_df)
    = build_moneyline_summary strftime fixtures_df odds_df /\
  build_totals_table strftime fixtures_df
      (List.filter (fun q => negb (reversed q) || in_order q) odds_df)
    = build_totals_table strftime fixtures_df odds_df /\
  ((forall f q, In f fixtures_df -> In q odds_df -> exact_match f q = false) ->
     build_moneyline_summary strftime fixtures_df odds_df = [] /\
     build_totals_table strftime fixtures_df odds_df = Returned []) /\
  (forall f q e,
     In q odds_df -> event_id q = Some e ->
     (forall q', In q' odds_df -> event_id q' = Some e ->
        odds_home_team q' = odds_home_team q /\ odds_away_team q' = odds_away_team q) ->
     swapped_match f q = true ->
     let overview := _build_odds_overview odds_df in
     (exists r, In r (swapped_lookup f overview) /\ ov_event_id r = e) /\
     (exact_lookup f overview = [] ->
      debug_odds_matching f overview = Some (SwappedFound (swapped_lookup f overview)))).
Proof.
  intros in_order reversed.
  assert (Hj : forall market,
    joined market fixtures_df (List.filter in_order odds_df)
    = joined market fixtures_df odds_df) by (intros; apply joined_exact_only).
  assert (Hj' : forall market,
    joined market fixtures_df
      (List.filter (fun q => negb (reversed q) || in_order q) odds_df)
    = joined market fixtures_df odds_df).
  { intros market. rewrite <- (Hj market).
    rewrite <- (joined_exact_only market fixtures_df (List.filter _ odds_df)).
    f_equal. apply exact_only_filter. }
  split.
  { intros market o f Hin. apply joined_In in Hin as (q & _ & _ & -> & _ & He).
    unfold exact_match in He. apply andb_true_iff in He as [H1 H2].
    apply bool_decide_eq_true_1 in H1, H2. split; assumption. }
  rewrite !build_moneyline_summary_joined, !build_totals_table_joined, !Hj, !Hj'.
  repeat split; try reflexivity.
  - rewrite (joined_no_exact "h2h" fixtures_df odds_df); [reflexivity | assumption].
  - rewrite (joined_no_exact "totals" fixtures_df odds_df); [reflexivity | assumption].
  - now apply (swapped_quote_in_debug_view odds_df f q e).
  - now apply (swapped_quote_in_debug_view odds_df f q e).
Qed.

(* ===================================================================== *)
(** * The totals table: goal lines and columns *)
(* ===================================================================== *)





Lemma nub_by_In l x : In x (nub_by Qeq_bool l) -> In x l.
Proof.
  revert x. induction l as [|y l IH]; simpl; [tauto|].
  intros x [->|H]; [now left|]. right. apply filter_In in H as [H _]. now apply IH.
Qed.

Lemma nub_by_covers l x :
  In x l -> exists y, In y (nub_by Qeq_bool l) /\ (y == x)%Q.
Proof.
  induction l as [|z l IH]; [intros []|]. intros [->|Hx].
  - exists x. split; [now left | reflexivity].
  - destruct (IH Hx) as (y & Hy & Eyx). simpl.
    destruct (Qeq_bool z y) eqn:E.
    + exists z. split; [now left|]. apply Qeq_bool_iff in E. now rewrite E.
    + exists y. split; [|exact Eyx]. right. apply filter_In. split; [exact Hy|].
      now rewrite E.
Qed.




Section TotalsFacts.
Context `{U : Unicodedata}.
Variable strftime : string -> string -> timestamp -> string.


Lemma pivot_lines_In keyed p :
  In p (pivot_lines keyed) -> exists k, In k keyed /\ k.1.1 = p.
Proof.
  unfold pivot_lines. rewrite sort_by_In. intros H. apply nub_by_In in H.
  apply in_map_iff in H as (k & E & Hk). now exists k.
Qed.

Lemma pivot_lines_covers keyed k :
  In k keyed -> exists p, In p (pivot_lines keyed) /\ (p == k.1.1)%Q.
Proof.
  intros Hk. destruct (nub_by_covers (List.map (fun k => k.1.1) keyed) k.1.1) as (p & Hp & E).
  { apply in_map_iff. now exists k. }
  exists p. split; [|exact E]. unfold pivot_lines. now apply sort_by_In.
Qed.

Lemma pivot_names_In keyed n :
  In n (pivot_names keyed) <-> exists k, In k keyed /\ k.1.2 = n.
Proof.
  unfold pivot_names. rewrite sort_by_In, <- list_elem_of_In, elem_of_remove_dups,
    list_elem_of_In, in_map_iff. split; intros (k & H1 & H2); exists k; tauto.
Qed.

Lemma titled_In label keyed n :
  In n (titled label (pivot_names keyed)) <->
  title n = py label /\ exists k, In k keyed /\ k.1.2 = n.
Proof.
  unfold titled. rewrite filter_In, pivot_names_In. split.
  - intros [H E]. apply bool_decide_eq_true_1 in E. split; assumption.
  - intros [E H]. split; [exact H | now apply bool_decide_eq_true_2].
Qed.





End TotalsFacts.

(* ===================================================================== *)
(** * The totals table *)
(* ===================================================================== *)

Section AsciiTotals.
Context (U1 U2 : Unicodedata).
Variable strftime : string -> string -> timestamp -> string.

Lemma titled_ascii label names :
  (forall n, In n names -> forallb is_ascii n = true) ->
  @titled U1 label names = @titled U2 label names.
Proof.
  intros H. unfold titled. apply filter_ext_in. intros n Hn.
  now rewrite !title_ascii by (now apply H).
Qed.

Lemma pivot_names_ascii merged n :
  (forall r, In r merged -> ascii_name (outcome_name (row r.1)) = true) ->
  In n (pivot_names (omap point_and_name merged)) -> forallb is_ascii n = true.
Proof.
  intros H Hn. apply pivot_names_In in Hn as (k & Hk & <-).
  apply list_elem_of_In, list_elem_of_omap in Hk as (r & Hr & E).
  apply list_elem_of_In, H in Hr. unfold point_and_name in E.
  destruct (outcome_point (row r.1)); [|discriminate].
  destruct (outcome_name (row r.1)) as [n|]; [|discriminate].
  injection E as <-. exact Hr.
Qed.

Lemma totals_table_of_ascii merged :
  (forall r, In r merged -> ascii_name (outcome_name (row r.1)) = true) ->
  @totals_table_of U1 strftime merged = @totals_table_of U2 strftime merged.
Proof.
  intros H. unfold totals_table_of, totals_row.
  assert (E : forall label,
    @titled U1 label (pivot_names (omap point_and_name merged))
    = @titled U2 label (pivot_names (omap point_and_name merged))).
  { intros label. apply titled_ascii. intros n. now apply pivot_names_ascii. }
  now rewrite !E.
Qed.

Lemma build_totals_table_ascii fixtures_df odds_df :
  forallb ascii_fixture fixtures_df = true -> forallb ascii_quote odds_df = true ->
  @build_totals_table U1 strftime fixtures_df odds_df
  = @build_totals_table U2 strftime fixtures_df odds_df.
Proof.
  intros Hf Hq. rewrite !build_totals_table_joined.
  rewrite (joined_ascii U1 U2 "totals" _ _ Hf Hq).
  apply totals_table_of_ascii. intros r. now apply joined_quote_ascii.
Qed.

End AsciiTotals.

Section TotalsClaim.
Context `{U : Unicodedata}.
Variable strftime : string -> string -> timestamp -> string.


Lemma totals_over_only :
  build_totals_table strftime [barcelona_milan] over_only
  = Raised (KeyError "['Under'] not in index").
Proof.
  rewrite (build_totals_table_ascii U Latin1Laws.latin1_db) by reflexivity.
  vm_compute. reflexivity.
Qed.

End TotalsClaim.

Section TotalsRows.
Context `{U : Unicodedata}.
Variable strftime : string -> string -> timestamp -> string.


End TotalsRows.



(* ===================================================================== *)
(** * The retry loop in closed form *)
(* ===================================================================== *)

Section HttpFacts.
Variable py_int : string -> option Z.
Variable settings : Settings.
Variable net : nat -> string -> gmap string string -> HttpOutcome.

Lemma _get_loop_pass url mp attempts tr :
  _get_loop py_int net url mp attempts tr =
  match attempt py_int net url mp (S attempts) tr with
  | (Returned Continue, tr') => _get_loop py_int net url mp (S attempts) tr'
  | (Returned (Done r), tr') => (Returned r, tr')
  | (Raised e, tr') => (Raised e, tr')
  end.
Proof.
  rewrite _get_loop_equation_1.
  destruct (inspect (attempt py_int net url mp (S attempts) tr)) as [[[[|r]|e] tr'] H];
    rewrite ?_get_loop_clause_1_equation_1, ?_get_loop_clause_1_equation_2,
      ?_get_loop_clause_1_equation_3; now rewrite H.
Qed.

Lemma requests_made_app tr evs :
  requests_made (tr ++ evs) = (requests_made tr + requests_made evs)%nat.
Proof. unfold requests_made. now rewrite List.filter_app, length_app. Qed.

Lemma attempt_transient url mp a tr :
  transient (net (requests_made tr) url mp) = true -> (a <= MAX_RETRIES)%nat ->
  attempt py_int net url mp a tr
  = (Returned Continue,
     tr ++ [HttpGet url mp; Sleep (RETRY_DELAY_SECONDS * Z.of_nat a)]).
Proof.
  intros Ht Ha. unfold attempt, bind, requests_get.
  apply Nat.leb_le in Ha.
  destruct (net (requests_made tr) url mp) as [resp|s|s]; cbn [transient] in Ht.
  - apply andb_true_iff in Ht as [Hs Hr]. rewrite Hs.
    unfold on_HTTPError. cbn [fmap option_fmap option_map]. rewrite Hr, Ha. cbn [andb].
    unfold bind, sleep, emit, ret. now rewrite <- app_assoc.
  - discriminate.
  - rewrite Ha. unfold bind, sleep, emit, ret. now rewrite <- app_assoc.
Qed.

Lemma attempt_final url mp a tr :
  transient (net (requests_made tr) url mp) = false \/ (MAX_RETRIES < a)%nat ->
  attempt py_int net url mp a tr
  = (match final py_int (net (requests_made tr) url mp) with
     | Returned r => Returned (Done r)
     | Raised e => Raised e
     end, tr ++ [HttpGet url mp]).
Proof.
  intros H. unfold attempt, bind, requests_get.
  assert (Hg : forall status, retried_status status && (a <=? MAX_RETRIES)%nat = true ->
                              retried_status status = true /\ (a <= MAX_RETRIES)%nat).
  { intros status Hs. apply andb_true_iff in Hs as [H1 H2]. now apply Nat.leb_le in H2. }
  destruct (net (requests_made tr) url mp) as [resp|s|s]; cbn [transient final] in *.
  - destruct ((400 <=? status_code resp)%Z && (status_code resp <? 600)%Z) eqn:Es.
    + unfold on_HTTPError. cbn [fmap option_fmap option_map].
      destruct (retried_status (Some (status_code resp)) && (a <=? MAX_RETRIES)%nat) eqn:Eg;
        [|reflexivity].
      apply Hg in Eg as [Hr Ha]. destruct H as [H|H]; [|lia].
      cbn [andb] in H. congruence.
    + destruct (json resp); reflexivity.
  - unfold on_HTTPError. cbn [fmap option_fmap option_map].
    replace (retried_status None) with false by reflexivity. reflexivity.
  - destruct H as [H|H]; [discriminate|].
    apply Nat.leb_gt in H. now rewrite H.
Qed.

(** The loop from [a] passes on, with [b] retries left: it retries as long
    as the outcomes are transient, [b] times at most, and ends with the
    outcome that follows. *)
Lemma _get_loop_closed url mp b a tr :
  (a + b)%nat = MAX_RETRIES ->
  let n := requests_made tr in
  let k := retries net url mp b n in
  _get_loop py_int net url mp a tr
  = (final py_int (net (n + k)%nat url mp),
     tr ++ retries_trace url mp a k ++ [HttpGet url mp]).
Proof.
  revert a tr. induction b as [|b IH]; intros a tr Hab n k; subst n k;
    rewrite _get_loop_pass.
  - rewrite attempt_final by (right; lia). cbn [retries retries_trace app].
    rewrite Nat.add_0_r. now destruct (final py_int (net (requests_made tr) url mp)).
  - cbn [retries]. destruct (transient (net (requests_made tr) url mp)) eqn:Et.
    + rewrite attempt_transient by (auto; lia).
      rewrite IH by lia.
      rewrite requests_made_app.
      replace (requests_made [HttpGet url mp; Sleep (RETRY_DELAY_SECONDS * Z.of_nat (S a))])
        with 1%nat by reflexivity.
      replace (requests_made tr + 1)%nat with (S (requests_made tr)) by lia.
      replace (S (requests_made tr) + retries net url mp b (S (requests_made tr)))%nat
        with (requests_made tr + S (retries net url mp b (S (requests_made tr))))%nat by lia.
      cbn [retries_trace]. now rewrite <- app_assoc.
    + rewrite attempt_final by (left; exact Et). cbn [retries_trace app].
      rewrite Nat.add_0_r. now destruct (final py_int (net (requests_made tr) url mp)).
Qed.

Lemma retries_bound url mp b n : (retries net url mp b n <= b)%nat.
Proof.
  revert n. induction b as [|b IH]; intros n; cbn [retries]; [lia|].
  destruct (transient _); [|lia]. specialize (IH (S n)). lia.
Qed.

Lemma retries_transient url mp b n i :
  (i < retries net url mp b n)%nat -> transient (net (n + i)%nat url mp) = true.
Proof.
  revert n i. induction b as [|b IH]; intros n i; cbn [retries]; [lia|].
  destruct (transient (net n url mp)) eqn:Et; [|lia].
  destruct i as [|i]; [now rewrite Nat.add_0_r|].
  intros H. replace (n + S i)%nat with (S n + i)%nat by lia. apply IH. lia.
Qed.

Lemma retries_stop url mp b n :
  (retries net url mp b n < b)%nat ->
  transient (net (n + retries net url mp b n)%nat url mp) = false.
Proof.
  revert n. induction b as [|b IH]; intros n; cbn [retries]; [lia|].
  destruct (transient (net n url mp)) eqn:Et.
  - intros H. replace (n + S (retries net url mp b (S n)))%nat
      with (S n + retries net url mp b (S n))%nat by lia. apply IH. lia.
  - intros _. now rewrite Nat.add_0_r.
Qed.

Lemma retries_trace_no_fetch url mp a k :
  List.filter is_fetch (retries_trace url mp a k) = [].
Proof.
  revert a. induction k as [|k IH]; intros a; [reflexivity|]. cbn. apply IH.
Qed.

(** [_get] with a key configured. *)
Lemma _get_closed path params tr :
  ODDS_API_KEY settings <> "" ->
  let url := (BASE_URL settings ++ path)%string in
  let mp := with_api_key settings params in
  let n := requests_made tr in
  let k := retries net url mp MAX_RETRIES n in
  _get py_int settings net path params tr
  = (final py_int (net (n + k)%nat url mp),
     tr ++ retries_trace url mp 0 k ++ [HttpGet url mp]).
Proof.
  intros Hkey url mp n k. unfold _get.
  rewrite bool_decide_eq_false_2 by exact Hkey.
  now apply _get_loop_closed.
Qed.

Lemma _get_no_key path params tr :
  ODDS_API_KEY settings = "" ->
  _get py_int settings net path params tr
  = (Raised (OddsAPIError "ODDS_API_KEY n?o configurada. Atualize o arquivo .env."), tr).
Proof.
  intros Hkey. unfold _get. now rewrite bool_decide_eq_true_2.
Qed.

Lemma _get_trace path params tr :
  exists evs,
    (_get py_int settings net path params tr).2 = tr ++ evs /\
    List.filter is_fetch evs = [].
Proof.
  destruct (decide (ODDS_API_KEY settings = "")) as [Hkey|Hkey].
  - rewrite _get_no_key by exact Hkey. exists []. now rewrite app_nil_r.
  - rewrite _get_closed by exact Hkey. eexists. split; [reflexivity|].
    rewrite List.filter_app, retries_trace_no_fetch. reflexivity.
Qed.

End HttpFacts.

(* ===================================================================== *)
(** * Retries and failures of [_get] *)
(* ===================================================================== *)

Lemma transient_statuses (r : Response) :
  transient (Responded r)
  = bool_decide (status_code r ∈ [429; 500; 502; 503; 504]%Z).
Proof.
  unfold transient, retried_status.
  destruct (decide (status_code r ∈ [429; 500; 502; 503; 504]%Z)) as [Hin|Hin].
  - rewrite (bool_decide_eq_true_2 _ Hin).
    repeat (apply elem_of_cons in Hin as [->|Hin]); try reflexivity. inversion Hin.
  - rewrite (bool_decide_eq_false_2 _ Hin).
    rewrite bool_decide_eq_false_2; [apply andb_false_r|].
    intros H. apply Hin.
    repeat (apply elem_of_cons in H as [[= ->]|H]; [set_solver|]). inversion H.
Qed.

Lemma final_http_error py_int (r : Response) :
  (400 <= status_code r < 600)%Z ->
  exists msg,
    final py_int (Responded r) = Raised (OddsAPIHTTPError msg (Some (status_code r))) /\
    (status_code r = 404%Z ->
       msg = "Esporte n?o encontrado (404). Verifique se ODDS_API_SPORT_KEY est? correto ou ativo na Odds API.") /\
    (status_code r = 422%Z ->
       msg = ("Par?metros inv?lidos (422) ao consultar a Odds API: "
                ++ _error_detail (Some r))%string) /\
    (status_code r <> 404%Z -> status_code r <> 422%Z ->
       msg = ("Falha ao consultar a Odds API: "
                ++ str_or (_error_detail (Some r)) (error_line r))%string).
Proof.
  intros [Hlo Hhi]. unfold final.
  apply Z.leb_le in Hlo. apply Z.ltb_lt in Hhi. rewrite Hlo, Hhi. cbn [andb].
  unfold http_error. cbn [fmap option_fmap option_map].
  destruct (decide (status_code r = 404%Z)) as [E|E].
  { rewrite bool_decide_eq_true_2 by congruence. eexists. split; [reflexivity|].
    repeat split; intros; try reflexivity; congruence. }
  rewrite bool_decide_eq_false_2 by congruence.
  destruct (decide (status_code r = 422%Z)) as [E'|E'].
  { rewrite bool_decide_eq_true_2 by congruence. eexists. split; [reflexivity|].
    repeat split; intros; try reflexivity; congruence. }
  rewrite bool_decide_eq_false_2 by congruence. eexists. split; [reflexivity|].
  repeat split; intros; try reflexivity; congruence.
Qed.

(** C8 (as the code has it). Without an API key [_get] raises at once and
    sends nothing. With a key it sends a request, and sends it again after
    a sleep of [RETRY_DELAY_SECONDS] times the number of the pass, for as long
    as the outcome is transient (a network exception, or one of the statuses
    429, 500, 502, 503, 504), [MAX_RETRIES] times at most; the outcome that
    follows ends the call. Every other error status ends it at once with an
    [OddsAPIHTTPError] that carries the status; its message carries the
    detail of the server, except for 404, whose message is fixed. *)
Theorem odds_get_retries_and_failures
  (py_int : string -> option Z) (settings : Settings)
  (net : nat -> string -> gmap string string -> HttpOutcome)
  (path : string) (params : gmap string string) (tr : list IOEvent) :
  let url := (BASE_URL settings ++ path)%string in
  let mp := with_api_key settings params in
  let n := requests_made tr in
  let k := retries net url mp MAX_RETRIES n in
  (ODDS_API_KEY settings = "" ->
     _get py_int settings net path params tr
     = (Raised (OddsAPIError "ODDS_API_KEY n?o configurada. Atualize o arquivo .env."), tr)) /\
  (ODDS_API_KEY settings <> "" ->
     _get py_int settings net path params tr
     = (final py_int (net (n + k)%nat url mp),
        tr ++ retries_trace url mp 0 k ++ [HttpGet url mp]) /\
     (k <= MAX_RETRIES)%nat /\
     (forall i, (i < k)%nat -> transient (net (n + i)%nat url mp) = true) /\
     ((k < MAX_RETRIES)%nat -> transient (net (n + k)%nat url mp) = false) /\
     (transient (net n url mp) = false -> k = 0%nat)) /\
  (forall r, transient (Responded r)
             = bool_decide (status_code r ∈ [429; 500; 502; 503; 504]%Z)) /\
  (forall s, transient (RequestException s) = true) /\
  (forall r, (400 <= status_code r < 600)%Z ->
     exists msg,
       final py_int (Responded r) = Raised (OddsAPIHTTPError msg (Some (status_code r))) /\
       (status_code r = 404%Z ->
          msg = "Esporte n?o encontrado (404). Verifique se ODDS_API_SPORT_KEY est? correto ou ativo na Odds API.") /\
       (status_code r = 422%Z ->
          msg = ("Par?metros inv?lidos (422) ao consultar a Odds API: "
                   ++ _error_detail (Some r))%string) /\
       (status_code r <> 404%Z -> status_code r <> 422%Z ->
          msg = ("Falha ao consultar a Odds API: "
                   ++ str_or (_error_detail (Some r)) (error_line r))%string)) /\
  (forall s, final py_int (RequestException s)
             = Raised (OddsAPIError ("Falha ao consultar a Odds API: " ++ s))).
Proof.
  intros url mp n k.
  split; [apply _get_no_key|].
  split.
  { intros Hkey. split; [now apply _get_closed|].
    split; [apply retries_bound|].
    split; [intros i; apply retries_transient|].
    split; [apply retries_stop|].
    intros Hstop. destruct k as [|k'] eqn:Ek; [reflexivity|].
    assert (Ht : transient (net (n + 0)%nat url mp) = true).
    { apply (retries_transient net url mp MAX_RETRIES n 0). fold k. lia. }
    rewrite Nat.add_0_r in Ht. congruence. }
  split; [apply transient_statuses|].
  split; [reflexivity|].
  split; [apply final_http_error | reflexivity].
Qed.

(** The claim as worded fails twice. A 501 answer is a 5xx status, and it
    is not retried: one request, no sleep, although the next answer would
    have been a success. A 404 answer ends in an exception whose message
    does not carry the detail the server sent. *)
Lemma odds_get_501_not_retried_404_without_detail :
  (let result :=
     _get no_int sample_settings (fails_once 501 "Not Implemented") "/sports" ∅ [] in
   result.1 = Raised (OddsAPIHTTPError
                        "Falha ao consultar a Odds API: Not Implemented" (Some 501%Z)) /\
   requests_made result.2 = 1%nat /\
   List.filter is_sleep result.2 = []) /\
  (let result :=
     _get no_int sample_settings (fails_once 404 "Unknown sport") "/sports" ∅ [] in
   exists msg,
     result.1 = Raised (OddsAPIHTTPError msg (Some 404%Z)) /\
     occurs_in "Unknown sport" msg = false /\
     _error_detail (Some (error_response 404 "Unknown sport")) = "Unknown sport").
Proof.
  split.
  - vm_compute. repeat split; reflexivity.
  - eexists. vm_compute. repeat split; reflexivity.
Qed.

(* ===================================================================== *)
(** * The fallback of the odds loader *)
(* ===================================================================== *)

Section LoaderFacts.
Variable py_int : string -> option Z.
Variable settings : Settings.
Variable net : nat -> string -> gmap string string -> HttpOutcome.

Let fetch := fetch_champions_league_odds py_int settings net.

Lemma fetch_unfold regions markets tr :
  fetch regions markets tr
  = match _get py_int settings net (odds_path settings)
            (odds_params regions markets) (tr ++ [CallFetch markets]) with
    | (Returned r, tr') => (Returned (payload ← r.1; records_of_event payload, r.2), tr')
    | (Raised e, tr') => (Raised e, tr')
    end.
Proof. reflexivity. Qed.

(** One call of [fetch_champions_league_odds] is one call: the trace gains
    its marker and, after it, requests and sleeps only. *)
Lemma fetch_calls regions markets tr :
  List.filter is_fetch (fetch regions markets tr).2
  = List.filter is_fetch tr ++ [CallFetch markets].
Proof.
  rewrite fetch_unfold.
  destruct (_get_trace py_int settings net (odds_path settings)
              (odds_params regions markets) (tr ++ [CallFetch markets]))
    as (evs & Htr & Hevs).
  destruct (_get _ _ _ _ _ _) as [[r|e] tr']; cbn [snd] in *; subst tr';
    now rewrite !List.filter_app, Hevs, app_nil_r.
Qed.

Lemma get_cl_odds_data_unfold tr :
  get_cl_odds_data py_int settings net tr
  = match fetch "eu" ["h2h"; "totals"] tr with
    | (Returned r, tr') => (Returned (r.1, r.2, ["h2h"; "totals"]), tr')
    | (Raised exc, tr') =>
        match exc with
        | OddsAPIHTTPError msg status =>
            if bool_decide (status = Some 422%Z)
            then match fetch "eu" ["h2h"] tr' with
                 | (Returned r, tr'') => (Returned (r.1, r.2, ["h2h"]), tr'')
                 | (Raised e, tr'') => (Raised e, tr'')
                 end
            else (Raised exc, tr')
        | _ => (Raised exc, tr')
        end
    end.
Proof.
  unfold get_cl_odds_data, try_except, bind, ret, raise. fold fetch.
  destruct (fetch "eu" ["h2h"; "totals"] tr) as [[r|e] tr']; [reflexivity|].
  destruct e as [| | | |msg status]; try reflexivity.
  cbn [length Nat.ltb Nat.leb andb]. rewrite andb_true_r.
  destruct (bool_decide (status = Some 422%Z)); reflexivity.
Qed.

End LoaderFacts.

(** C6. [get_cl_odds_data] asks for "h2h" and "totals". If that call returns,
    so does the loader, after this one call. If it raises an
    [OddsAPIHTTPError] of status 422 the loader calls once more, for "h2h"
    alone: it ends as that second call ends, raising what it raises or
    returning its frame with the markets used [["h2h"]], and the totals
    section of the page then shows the market as unavailable whatever the
    frames hold. Every other exception of the first call is raised again
    after this one call. On a server that refuses the totals market the
    loader sends two requests and returns. *)
Theorem odds_loader_falls_back_once
  `{U : Unicodedata} (strftime : string -> string -> timestamp -> string)
  (py_int : string -> option Z) (settings : Settings)
  (net : nat -> string -> gmap string string -> HttpOutcome) (tr : list IOEvent) :
  let fetch := fetch_champions_league_odds py_int settings net "eu" in
  let first := fetch ["h2h"; "totals"] tr in
  let second := fetch ["h2h"] first.2 in
  let loaded := get_cl_odds_data py_int settings net tr in
  (forall r, first.1 = Returned r ->
     loaded = (Returned (r.1, r.2, ["h2h"; "totals"]), first.2) /\
     List.filter is_fetch loaded.2
     = List.filter is_fetch tr ++ [CallFetch ["h2h"; "totals"]]) /\
  (forall msg, first.1 = Raised (OddsAPIHTTPError msg (Some 422%Z)) ->
     loaded.2 = second.2 /\
     List.filter is_fetch loaded.2
     = List.filter is_fetch tr ++ [CallFetch ["h2h"; "totals"]; CallFetch ["h2h"]] /\
     (forall e, second.1 = Raised e -> loaded.1 = Raised e) /\
     (forall r, second.1 = Returned r ->
        loaded.1 = Returned (r.1, r.2, ["h2h"]) /\
        forall fixtures odds,
          totals_section strftime ["h2h"] fixtures odds = Returned MarketUnavailable)) /\
  (forall e, first.1 = Raised e ->
     (forall msg, e <> OddsAPIHTTPError msg (Some 422%Z)) ->
     loaded = (Raised e, first.2) /\
     List.filter is_fetch loaded.2
     = List.filter is_fetch tr ++ [CallFetch ["h2h"; "totals"]]) /\
  (let sample := get_cl_odds_data no_int sample_settings rejects_totals [] in
   sample.1 = Returned ([], {| requests_remaining := None; requests_used := None;
                               requests_last := None |}, ["h2h"]) /\
   List.filter is_fetch sample.2 = [CallFetch ["h2h"; "totals"]; CallFetch ["h2h"]] /\
   requests_made sample.2 = 2%nat /\
   List.filter is_sleep sample.2 = []).
Proof.
  intros fetch first second loaded.
  assert (Hfirst : List.filter is_fetch first.2
                   = List.filter is_fetch tr ++ [CallFetch ["h2h"; "totals"]])
    by apply fetch_calls.
  assert (Hsecond : List.filter is_fetch second.2
                    = List.filter is_fetch first.2 ++ [CallFetch ["h2h"]])
    by apply fetch_calls.
  assert (Hloaded := get_cl_odds_data_unfold py_int settings net tr).
  fold fetch first loaded in Hloaded.
  split; [|split; [|split]].
  - intros r Hr. destruct first as [[r'|e'] tr'] eqn:E; cbn [fst snd] in *; [|discriminate].
    injection Hr as ->. rewrite Hloaded. split; [reflexivity|exact Hfirst].
  - intros msg Hr. destruct first as [[r'|e'] tr'] eqn:E; cbn [fst snd] in *; [discriminate|].
    injection Hr as ->. rewrite bool_decide_eq_true_2 in Hloaded by reflexivity.
    fold fetch second in Hloaded.
    assert (Hsnd : loaded.2 = second.2).
    { rewrite Hloaded. now destruct second as [[r|e] tr'']. }
    split; [exact Hsnd|]. split.
    { rewrite Hsnd, Hsecond, Hfirst, <- app_assoc. reflexivity. }
    split.
    + intros e He. rewrite Hloaded.
      destruct second as [[r|e''] tr'']; cbn [fst] in *; congruence.
    + intros r Hr. split; [|reflexivity].
      rewrite Hloaded. destruct second as [[r''|e''] tr'']; cbn [fst] in *; congruence.
  - intros e Hr Hne. destruct first as [[r'|e'] tr'] eqn:E; cbn [fst snd] in *; [discriminate|].
    injection Hr as ->. split; [|rewrite Hloaded].
    + rewrite Hloaded. destruct e as [| | | |msg status]; try reflexivity.
      rewrite bool_decide_eq_false_2; [reflexivity|].
      intros ->. now apply (Hne msg).
    + destruct e as [| | | |msg status]; try exact Hfirst.
      destruct (bool_decide (status = Some 422%Z)) eqn:Es; [|exact Hfirst].
      apply bool_decide_eq_true in Es. subst status. now destruct (Hne msg).
  - vm_compute. repeat split; reflexivity.
Qed.

(* ===================================================================== *)
(** * The reconcilers in the store against the pure ones *)
(* ===================================================================== *)

Lemma bind_run {S A B} (c : Eff S A) (k : A -> Eff S B) s a s' :
  c s = (Returned a, s') -> bind c k s = k a s'.
Proof. intros H. unfold bind. now rewrite H. Qed.

Lemma bind_raise {S A B} (c : Eff S A) (k : A -> Eff S B) s e s' :
  c s = (Raised e, s') -> bind c k s = (Raised e, s').
Proof. intros H. unfold bind. now rewrite H. Qed.

Lemma bind_assoc {S A B C} (c : Eff S A) (g : A -> Eff S B) (k : B -> Eff S C) s :
  bind (bind c g) k s = bind c (fun a => bind (g a) k) s.
Proof. unfold bind. now destruct (c s) as [[a|e] s']. Qed.

Lemma mask_map {A} (p : A -> bool) (l : list A) :
  mask (List.map p l) l = List.filter p l.
Proof.
  induction l as [|x l IH]; [reflexivity|]. cbn. rewrite IH. now destruct (p x).
Qed.

Lemma mask_map_map {A B} (p : A -> bool) (g : A -> B) (l : list A) :
  mask (List.map p l) (List.map g l) = List.map g (List.filter p l).
Proof.
  induction l as [|x l IH]; [reflexivity|]. cbn. rewrite IH. now destruct (p x).
Qed.

Lemma keyed_rows_map {A} (home away : A -> pystr) (rows : list A) :
  keyed_rows rows (List.map home rows) (List.map away rows)
  = List.map (fun r => {| row := r; home_norm := home r; away_norm := away r |}) rows.
Proof.
  unfold keyed_rows. induction rows as [|r rows IH]; [reflexivity|].
  cbn. f_equal. exact IH.
Qed.

Section StoreRuns.
Variables (σ new : Store).

Lemma run_frame_old l f :
  σ !! l = Some f -> InStore.frame l (σ ++ new) = (Returned f, σ ++ new).
Proof.
  intros H. unfold InStore.frame, Store in *. now rewrite (lookup_app_l_Some _ _ _ _ H).
Qed.

Lemma run_frame_new i f :
  new !! i = Some f ->
  InStore.frame (length σ + i)%nat (σ ++ new) = (Returned f, σ ++ new).
Proof.
  intros H. unfold InStore.frame, Store in *. rewrite lookup_app_r by lia.
  replace (length σ + i - length σ)%nat with i by lia. now rewrite H.
Qed.

Lemma run_assign_new i f :
  InStore.assign (length σ + i)%nat f (σ ++ new) = (Returned tt, σ ++ <[i := f]> new).
Proof. unfold InStore.assign, Store. now rewrite insert_app_r. Qed.

Lemma run_new_frame f :
  InStore.new_frame f (σ ++ new)
  = (Returned (length σ + length new)%nat, σ ++ (new ++ [f])).
Proof. unfold InStore.new_frame. now rewrite length_app, app_assoc. Qed.

End StoreRuns.

Section StoreReconcilers.
Context `{U : Unicodedata}.
Variable strftime : string -> string -> timestamp -> string.

Ltac run_frame := first [ apply run_frame_new; reflexivity | apply run_frame_old; eassumption ].

Ltac step :=
  rewrite ?bind_assoc;
  erewrite bind_run;
    [| first [ run_frame | apply run_assign_new | apply run_new_frame | reflexivity ] ];
  cbv beta iota;
  cbn [length app insert list_insert is_nil is_empty orb option_map].

Lemma joined_then_run market rest σ fx od F O fh fa qh qa :
  σ !! fx = Some (Fixtures F fh fa) ->
  σ !! od = Some (Quotes O qh qa) ->
  exists new,
    InStore.joined_then market rest fx od σ
    = if is_nil (joined market F O)
      then (Returned (length σ + length new)%nat, σ ++ new ++ [NoColumns])
      else rest (length σ + length new)%nat
             (σ ++ new ++ [MergedFrame (joined market F O) None]).
Proof.
  intros Hfx Hod.
  replace (InStore.joined_then market rest fx od σ)
    with (InStore.joined_then market rest fx od (σ ++ [])) by now rewrite app_nil_r.
  unfold InStore.joined_then, InStore.empty, InStore.copy, InStore.set_home_norm,
    InStore.set_away_norm, InStore.where_market, InStore.fixtures_subset_of,
    InStore.drop_teams, InStore.merge_frames.
  step. step. step. step.
  destruct F as [|f F'].
  { exists []. rewrite joined_nil_l. cbn [orb is_nil]. now rewrite run_new_frame. }
  destruct O as [|q O'].
  { exists []. cbn [orb is_nil]. now rewrite run_new_frame. }
  cbn [orb is_nil]. set (F := f :: F') in *. set (O := q :: O') in *.
  do 12 step.
  rewrite mask_map.
  destruct (List.filter (is_market market) O) as [|q' Q'] eqn:EQ.
  { eexists [_; _; _]. rewrite (joined_no_quotes _ _ _ EQ). cbn [is_nil].
    rewrite run_new_frame. cbn [length app]. reflexivity. }
  cbn [is_nil]. rewrite <- EQ. clear EQ q' Q'.
  do 13 step.
  rewrite !keyed_rows_map.
  change (merge _ _) with (joined market F O).
  destruct (joined market F O) as [|m M]; cbn [is_nil].
  - eexists [_; _; _; _; _; _]. rewrite run_new_frame. cbn [length app]. reflexivity.
  - eexists [_; _; _; _; _]. cbn [length app]. reflexivity.
Qed.

Lemma labelled_zip M :
  omap (fun r : Merged * option string => pair r.1 <$> r.2)
    (zip M (List.map _map_outcome M)) = labelled M.
Proof.
  unfold labelled. induction M as [|m M IH]; [reflexivity|].
  cbn [List.map zip zip_with omap list_omap fst snd]. fold (@omap list _).
  destruct (_map_outcome m); cbn; [f_equal|]; exact IH.
Qed.

Let has_label (r : Merged) : bool := bool_decide (is_Some (_map_outcome r)).

Lemma labelled_has_label M : labelled (List.filter has_label M) = labelled M.
Proof.
  unfold labelled, has_label. induction M as [|m M IH]; [reflexivity|].
  cbn [List.filter]. destruct (_map_outcome m) as [l|] eqn:E.
  - rewrite bool_decide_eq_true_2 by eauto. cbn. rewrite E. cbn. f_equal. exact IH.
  - rewrite bool_decide_eq_false_2 by (intros [? ?]; discriminate).
    cbn. rewrite E. cbn. exact IH.
Qed.

Lemma has_label_nil M : is_nil (List.filter has_label M) = is_nil (labelled M).
Proof.
  unfold labelled, has_label. induction M as [|m M IH]; [reflexivity|].
  cbn [List.filter]. destruct (_map_outcome m) as [l|] eqn:E.
  - rewrite bool_decide_eq_true_2 by eauto. cbn. now rewrite E.
  - rewrite bool_decide_eq_false_2 by (intros [? ?]; discriminate).
    cbn. rewrite E. cbn. exact IH.
Qed.

Lemma moneyline_rest_run τ M :
  exists new,
    (InStore.set_outcome_label (length τ + 0)%nat ;;;
     merged <- InStore.where_label_notna (length τ + 0)%nat ;;
     merged_empty <- InStore.empty merged ;;
     if merged_empty then InStore.new_frame NoColumns else
     InStore.summary_frame strftime merged)%io (τ ++ [MergedFrame M None])
    = (Returned (length τ + length new)%nat,
       τ ++ new ++ [summary_of_rows
                      match labelled M with
                      | [] => []
                      | match_info :: _ => [summary strftime (labelled M) match_info]
                      end]).
Proof.
  unfold InStore.set_outcome_label, InStore.where_label_notna, InStore.empty,
    InStore.summary_frame.
  do 6 step.
  rewrite !List.map_map, mask_map, mask_map_map. fold has_label.
  rewrite has_label_nil.
  destruct (labelled M) as [|match_info rest] eqn:EM; cbn [is_nil].
  { eexists [_; _]. rewrite run_new_frame. cbn [length app]. reflexivity. }
  step. rewrite labelled_zip, labelled_has_label, EM. rewrite run_new_frame.
  eexists [_; _]. cbn [length app]. reflexivity.
Qed.

Lemma moneyline_run σ fx od F O fh fa qh qa :
  σ !! fx = Some (Fixtures F fh fa) ->
  σ !! od = Some (Quotes O qh qa) ->
  exists new,
    InStore.build_moneyline_summary strftime fx od σ
    = (Returned (length σ + length new)%nat,
       σ ++ new ++ [summary_of_rows (build_moneyline_summary strftime F O)]).
Proof.
  intros Hfx Hod. rewrite build_moneyline_summary_joined.
  destruct (joined_then_run "h2h"
              (fun merged =>
                 (InStore.set_outcome_label merged ;;;
                  merged <- InStore.where_label_notna merged ;;
                  merged_empty <- InStore.empty merged ;;
                  if merged_empty then InStore.new_frame NoColumns else
                  InStore.summary_frame strftime merged)%io)
              σ fx od F O fh fa qh qa Hfx Hod) as (new & Hrun).
  change (InStore.joined_then "h2h" _ fx od σ)
    with (InStore.build_moneyline_summary strftime fx od σ) in Hrun.
  rewrite Hrun. clear Hrun.
  destruct (joined "h2h" F O) as [|m M] eqn:EM; cbn [is_nil].
  { exists new. reflexivity. }
  rewrite <- EM. clear EM m M.
  destruct (moneyline_rest_run (σ ++ new) (joined "h2h" F O)) as (new' & Hrun).
  exists (new ++ new').
  assert (E1 : (length σ + length new)%nat = (length (σ ++ new) + 0)%nat)
    by (rewrite length_app; lia).
  rewrite E1, (app_assoc σ new [_]), Hrun.
  rewrite !length_app, <- !app_assoc. f_equal. f_equal. lia.
Qed.

Lemma missing_columns_assigned columns rodada fase data_br partida casas atualizado :
  missing_columns columns
    {| cRodada := Some rodada; cFase := Some fase; cData_BR := Some data_br;
       cPartida := Some partida; cCasas_consideradas := Some casas;
       cAtualizado_UTC := Some atualizado |}
  = (if bool_decide (py "Over" ∈ columns) then [] else ["Over"])
    ++ (if bool_decide (py "Under" ∈ columns) then [] else ["Under"]).
Proof.
  unfold missing_columns. cbn [cRodada cFase cData_BR cPartida cCasas_consideradas
                                 cAtualizado_UTC].
  rewrite !bool_decide_eq_true_2 by eauto.
  now destruct (bool_decide (py "Over" ∈ columns)), (bool_decide (py "Under" ∈ columns)).
Qed.

Lemma titled_column label names :
  bool_decide (py label ∈ List.map title names) = negb (is_nil (titled label names)).
Proof.
  unfold titled. induction names as [|n names IH]; [reflexivity|].
  cbn [List.map List.filter]. destruct (decide (title n = py label)) as [E|E].
  - rewrite (bool_decide_eq_true_2 (title n = py label)) by exact E.
    cbn. apply bool_decide_eq_true_2. rewrite E. left.
  - rewrite (bool_decide_eq_false_2 (title n = py label)) by exact E.
    rewrite <- IH. apply bool_decide_ext. rewrite elem_of_cons. intuition congruence.
Qed.

Lemma cells_of_titled label (cell : pystr -> option Q) names :
  cells_of label (List.map title names) (List.map cell names)
  = List.map cell (titled label names).
Proof. unfold cells_of, titled. now rewrite List.map_map, mask_map_map. Qed.

Lemma zip_with_maps {A B C D E} (f : B -> C * D -> E) (g : A -> B) (h : A -> C)
    (k : A -> D) (l : list A) :
  zip_with f (List.map g l) (zip (List.map h l) (List.map k l))
  = List.map (fun x => f (g x) (h x, k x)) l.
Proof. induction l as [|x l IH]; [reflexivity|]. cbn. f_equal. exact IH. Qed.

Lemma pivot_names_nonempty keyed : pivot_lines keyed <> [] -> pivot_names keyed <> [].
Proof.
  intros H Hn. destruct (pivot_lines keyed) as [|p ps] eqn:E; [now apply H|].
  destruct (pivot_lines_In keyed p) as (k & Hk & _); [rewrite E; now left|].
  assert (Hin : In k.1.2 (pivot_names keyed)) by (apply pivot_names_In; eauto).
  rewrite Hn in Hin. destruct Hin.
Qed.

(** The statements of [build_totals_table] after the join. *)
Let totals_after_join (merged : loc) : Eff Store loc :=
  (pivot <- InStore.pivot_of merged ;;
   pivot_empty <- InStore.empty pivot ;;
   if pivot_empty then InStore.new_frame NoColumns else
   rows <- InStore.merged_rows merged ;;
   let counts p :=
     nunique (List.map (fun r => bookmaker_key (row r.1)) (List.filter (at_point p) rows)) in
   let last_update p :=
     series_max (omap (fun r => bookmaker_last_update (row r.1))
                   (List.filter (at_point p) rows)) in
   pivot <- InStore.reset_index pivot ;;
   match_row <- InStore.iloc_0 rows ;;
   InStore.set_column pivot (fun _ => with_Rodada (matchday match_row.2)) ;;;
   InStore.set_column pivot (fun _ => with_Fase (stage match_row.2)) ;;;
   InStore.set_column pivot (fun _ => with_Data_BR (kickoff_local match_row.2)) ;;;
   InStore.set_column pivot (fun _ => with_Partida (partida match_row.2)) ;;;
   InStore.set_column pivot (fun lines => with_Casas_consideradas (List.map counts lines)) ;;;
   let _format_update pt := update_display strftime (last_update pt) in
   InStore.set_column pivot
     (fun lines => with_Atualizado_UTC (List.map _format_update lines)) ;;;
   ordered <- InStore.ordered_of pivot ;;
   InStore.sort_by_line ordered)%io.

Lemma totals_rest_run τ M :
  let run :=
    totals_after_join (length τ + 0)%nat (τ ++ [MergedFrame M None]) in
  match totals_table_of strftime M with
  | Returned rows =>
      exists new,
        run = (Returned (length τ + length new)%nat, τ ++ new ++ [ordered_of_rows rows])
  | Raised e => exists new, run = (Raised e, τ ++ new)
  end.
Proof.
  intros run. subst run.
  unfold totals_after_join, InStore.pivot_of, InStore.empty, InStore.merged_rows, InStore.reset_index,
    InStore.set_column, InStore.ordered_of, InStore.sort_by_line.
  do 4 step.
  set (keyed := omap point_and_name M).
  unfold totals_table_of. fold keyed.
  destruct (pivot_lines keyed) as [|p ps] eqn:Elines.
  { cbn [List.map is_nil orb]. rewrite orb_true_r, run_new_frame.
    destruct M; eexists [_; _]; cbn [length app]; reflexivity. }
  rewrite <- Elines.
  assert (Hlines : pivot_lines keyed <> []) by (rewrite Elines; discriminate).
  assert (Hnames := pivot_names_nonempty keyed Hlines).
  destruct M as [|match_row M'].
  { now destruct Hlines. }
  set (M := match_row :: M') in *.
  replace (is_nil (List.map title (pivot_names keyed))
           || is_nil (List.map (fun p => (p, List.map (pivot_cell keyed p) (pivot_names keyed)))
                        (pivot_lines keyed))) with false
    by (destruct (pivot_names keyed); [congruence|]; now rewrite Elines).
  do 17 step.
  rewrite bind_assoc. erewrite bind_run by (apply run_frame_new; reflexivity).
  cbv beta iota.
  unfold with_Atualizado_UTC, with_Casas_consideradas, with_Partida, with_Data_BR,
    with_Fase, with_Rodada, not_assigned.
  cbn [cRodada cFase cData_BR cPartida cCasas_consideradas cAtualizado_UTC].
  rewrite missing_columns_assigned, !titled_column.
  destruct (titled "Over" (pivot_names keyed)) as [|o os] eqn:Eover;
    destruct (titled "Under" (pivot_names keyed)) as [|u us] eqn:Eunder;
    cbn [is_nil negb app].
  1-3: eexists; erewrite bind_raise by reflexivity; reflexivity.
  do 2 step. rewrite run_new_frame.
  eexists [_; _; _; _]. cbn [length app].
  rewrite !List.map_map, zip_with_maps.
  rewrite (List.map_ext _ (totals_row strftime M match_row)).
  2:{ intros p0. cbn [fst snd]. unfold totals_row. fold keyed.
      now rewrite !cells_of_titled, Eover, Eunder. }
  destruct (sort_by by_line (List.map (totals_row strftime M match_row) (pivot_lines keyed)))
    as [|r rs] eqn:Esorted; [|reflexivity].
  exfalso. assert (Hin : In (totals_row strftime M match_row p) []); [|destruct Hin].
  rewrite <- Esorted. apply sort_by_In, in_map. rewrite Elines. now left.
Qed.

Lemma totals_run σ fx od F O fh fa qh qa :
  σ !! fx = Some (Fixtures F fh fa) ->
  σ !! od = Some (Quotes O qh qa) ->
  let run := InStore.build_totals_table strftime fx od σ in
  match build_totals_table strftime F O with
  | Returned rows =>
      exists new,
        run = (Returned (length σ + length new)%nat, σ ++ new ++ [ordered_of_rows rows])
  | Raised e => exists new, run = (Raised e, σ ++ new)
  end.
Proof.
  intros Hfx Hod run. subst run. rewrite build_totals_table_joined.
  destruct (joined_then_run "totals" totals_after_join σ fx od F O fh fa qh qa Hfx Hod) as (new & Hrun).
  change (InStore.joined_then "totals" _ fx od σ)
    with (InStore.build_totals_table strftime fx od σ) in Hrun.
  rewrite Hrun. clear Hrun.
  destruct (joined "totals" F O) as [|m M] eqn:EM; cbn [is_nil].
  { exists new. reflexivity. }
  rewrite <- EM. clear EM m M.
  assert (E1 : (length σ + length new)%nat = (length (σ ++ new) + 0)%nat)
    by (rewrite length_app; lia).
  rewrite E1, (app_assoc σ new [_]).
  assert (Hrest := totals_rest_run (σ ++ new) (joined "totals" F O)). cbv zeta in Hrest.
  destruct (totals_table_of strftime (joined "totals" F O)) as [rows|e].
  - destruct Hrest as (new' & ->). exists (new ++ new').
    rewrite !length_app, <- !app_assoc. f_equal. f_equal. lia.
  - destruct Hrest as (new' & ->). exists (new ++ new'). now rewrite <- app_assoc.
Qed.

End StoreReconcilers.

Lemma lookup_kept (σ new : Store) l g : σ !! l = Some g -> (σ ++ new) !! l = Some g.
Proof. apply lookup_app_l_Some. Qed.

Lemma lookup_result (σ new : Store) f :
  (σ ++ new ++ [f]) !! (length σ + length new)%nat = Some f /\
  σ !! (length σ + length new)%nat = None.
Proof.
  split.
  - rewrite app_assoc, <- length_app. apply list_lookup_middle. reflexivity.
  - apply lookup_ge_None_2. lia.
Qed.

(** C9. Take a store that holds a frame of fixtures and a frame of quotes,
    with or without key columns, and run a reconciler on their locations,
    then once more in the store the first run left. Both runs of
    [build_moneyline_summary] return, each at a location that was free before
    it, and the two frames returned are the same: the table of the pure
    function on the rows of the inputs. Both runs of [build_totals_table]
    return the same table in the same way, or raise the same exception. Every
    frame that was in the store before, the two inputs among them, is in it
    unchanged after each of the four runs. *)
Theorem reconcilers_repeat_and_keep_inputs `{U : Unicodedata}
  (strftime : string -> string -> timestamp -> string)
  (σ : Store) (fixtures_df odds_df : loc)
  (F : list Fixture) (O : list OddsQuote) (fh fa qh qa : Column pystr) :
  σ !! fixtures_df = Some (Fixtures F fh fa) ->
  σ !! odds_df = Some (Quotes O qh qa) ->
  let m1 := InStore.build_moneyline_summary strftime fixtures_df odds_df σ in
  let m2 := InStore.build_moneyline_summary strftime fixtures_df odds_df m1.2 in
  let t1 := InStore.build_totals_table strftime fixtures_df odds_df σ in
  let t2 := InStore.build_totals_table strftime fixtures_df odds_df t1.2 in
  (exists out1 out2,
     m1.1 = Returned out1 /\ m2.1 = Returned out2 /\
     σ !! out1 = None /\ m1.2 !! out2 = None /\
     m1.2 !! out1 = Some (summary_of_rows (build_moneyline_summary strftime F O)) /\
     m2.2 !! out2 = Some (summary_of_rows (build_moneyline_summary strftime F O))) /\
  match build_totals_table strftime F O with
  | Returned rows =>
      exists out1 out2,
        t1.1 = Returned out1 /\ t2.1 = Returned out2 /\
        σ !! out1 = None /\ t1.2 !! out2 = None /\
        t1.2 !! out1 = Some (ordered_of_rows rows) /\
        t2.2 !! out2 = Some (ordered_of_rows rows)
  | Raised e => t1.1 = Raised e /\ t2.1 = Raised e
  end /\
  (forall l g, σ !! l = Some g ->
     m1.2 !! l = Some g /\ m2.2 !! l = Some g /\ t1.2 !! l = Some g /\ t2.2 !! l = Some g).
Proof.
  intros Hfx Hod m1 m2 t1 t2.
  destruct (moneyline_run strftime σ fixtures_df odds_df F O fh fa qh qa Hfx Hod)
    as (new1 & Hm1).
  fold m1 in Hm1.
  assert (Hkeep1 : forall l g, σ !! l = Some g -> m1.2 !! l = Some g).
  { intros l g Hl. rewrite Hm1. now apply lookup_kept. }
  destruct (moneyline_run strftime m1.2 fixtures_df odds_df F O fh fa qh qa
              (Hkeep1 _ _ Hfx) (Hkeep1 _ _ Hod)) as (new2 & Hm2).
  fold m2 in Hm2.
  assert (Ht1 := totals_run strftime σ fixtures_df odds_df F O fh fa qh qa Hfx Hod).
  cbv zeta in Ht1. fold t1 in Ht1.
  assert (Hkeep3 : forall l g, σ !! l = Some g -> t1.2 !! l = Some g).
  { intros l g Hl. destruct (build_totals_table strftime F O);
      destruct Ht1 as (new & ->); now apply lookup_kept. }
  assert (Ht2 := totals_run strftime t1.2 fixtures_df odds_df F O fh fa qh qa
                   (Hkeep3 _ _ Hfx) (Hkeep3 _ _ Hod)).
  cbv zeta in Ht2. fold t2 in Ht2.
  split; [|split].
  - exists (length σ + length new1)%nat, (length m1.2 + length new2)%nat.
    rewrite Hm2, Hm1. cbn [fst snd].
    destruct (lookup_result σ new1 (summary_of_rows (build_moneyline_summary strftime F O)))
      as [H1 H2].
    destruct (lookup_result m1.2 new2
                (summary_of_rows (build_moneyline_summary strftime F O))) as [H3 H4].
    rewrite Hm1 in H3, H4. cbn [snd] in H3, H4. now repeat split.
  - destruct (build_totals_table strftime F O) as [rows|e].
    + destruct Ht1 as (new3 & Ht1), Ht2 as (new4 & Ht2).
      exists (length σ + length new3)%nat, (length t1.2 + length new4)%nat.
      rewrite Ht2, Ht1. cbn [fst snd].
      destruct (lookup_result σ new3 (ordered_of_rows rows)) as [H1 H2].
      destruct (lookup_result t1.2 new4 (ordered_of_rows rows)) as [H3 H4].
      rewrite Ht1 in H3, H4. cbn [snd] in H3, H4. now repeat split.
    + destruct Ht1 as (new3 & ->), Ht2 as (new4 & ->). now split.
  - intros l g Hl. split; [now apply Hkeep1|]. split.
    { rewrite Hm2. now apply lookup_kept, Hkeep1. }
    split; [now apply Hkeep3|].
    destruct (build_totals_table strftime F O);
      destruct Ht2 as (new4 & ->); now apply lookup_kept, Hkeep3.
Qed.

(* ===================================================================== *)
(** * The theorems at the examples *)
(* ===================================================================== *)



(** The two reconcilers, twice each, in the store of the examples. *)
Lemma reconcilers_in_sample_store :
  let moneyline :=
    InStore.build_moneyline_summary (U := Latin1Laws.latin1_db) strftime_count 0%nat 1%nat in
  let totals :=
    InStore.build_totals_table (U := Latin1Laws.latin1_db) strftime_count 0%nat 1%nat in
  (sample_store !! 0%nat = Some (Fixtures [barcelona_milan] None None) /\
   sample_store !! 1%nat = Some (Quotes (three_bookmakers ++ two_lines) None None)) /\
  (forall l g, sample_store !! l = Some g ->
     (moneyline sample_store).2 !! l = Some g /\
     (moneyline (moneyline sample_store).2).2 !! l = Some g /\
     (totals sample_store).2 !! l = Some g /\
     (totals (totals sample_store).2).2 !! l = Some g).
Proof.
  intros moneyline totals. split; [split; reflexivity|].
  apply (reconcilers_repeat_and_keep_inputs (U := Latin1Laws.latin1_db) strftime_count
           sample_store 0%nat 1%nat [barcelona_milan] (three_bookmakers ++ two_lines)
           None None None None eq_refl eq_refl).
Defined.

(* ===================================================================== *)
(** * More on the odds client *)
(* ===================================================================== *)

Lemma slept_app tr evs : slept (tr ++ evs) = slept tr ++ slept evs.
Proof. apply omap_app. Qed.

Lemma requested_app tr evs : requested (tr ++ evs) = requested tr ++ requested evs.
Proof. apply omap_app. Qed.

Lemma slept_retries_trace url mp a k :
  slept (retries_trace url mp a k)
  = List.map (fun i => (RETRY_DELAY_SECONDS * Z.of_nat i)%Z) (seq (S a) k).
Proof.
  revert a. induction k as [|k IH]; intros a; [reflexivity|].
  cbn [retries_trace seq List.map]. rewrite <- IH. reflexivity.
Qed.

Lemma requested_retries_trace url mp a k :
  requested (retries_trace url mp a k) = replicate k (url, mp).
Proof.
  revert a. induction k as [|k IH]; intros a; [reflexivity|].
  cbn [retries_trace replicate]. rewrite <- (IH (S a)). reflexivity.
Qed.

Lemma length_requested tr : length (requested tr) = requests_made tr.
Proof.
  unfold requested, requests_made. induction tr as [|[m|u p|s] tr IH]; cbn; auto.
Qed.

Section MoreHttp.
Variable py_int : string -> option Z.
Variable settings : Settings.
Variable net : nat -> string -> gmap string string -> HttpOutcome.

(** What a call of [_get] adds to the trace. *)
Lemma _get_events path params tr :
  let url := (BASE_URL settings ++ path)%string in
  let mp := with_api_key settings params in
  let k := retries net url mp MAX_RETRIES (requests_made tr) in
  exists evs,
    (_get py_int settings net path params tr).2 = tr ++ evs /\
    List.filter is_fetch evs = [] /\
    (ODDS_API_KEY settings = "" -> evs = []) /\
    (ODDS_API_KEY settings <> "" ->
       requested evs = replicate (S k) (url, mp) /\
       slept evs = take k [2; 4; 6]%Z /\
       last evs = Some (HttpGet url mp)).
Proof.
  intros url mp k.
  destruct (decide (ODDS_API_KEY settings = "")) as [Hkey|Hkey].
  - exists []. rewrite _get_no_key by exact Hkey. cbn [snd]. rewrite app_nil_r.
    split; [reflexivity|]. split; [reflexivity|]. split; [reflexivity|].
    intros H. now destruct H.
  - exists (retries_trace url mp 0 k ++ [HttpGet url mp]).
    rewrite _get_closed by exact Hkey. fold url mp k. cbn [snd].
    split; [reflexivity|].
    split; [now rewrite List.filter_app, retries_trace_no_fetch|].
    split; [intros H; now destruct (Hkey H)|]. intros _.
    rewrite requested_app, slept_app, requested_retries_trace, slept_retries_trace.
    split; [|split].
    + cbn [requested omap list_omap]. rewrite <- replicate_cons_app. reflexivity.
    + cbn [slept omap list_omap]. rewrite app_nil_r.
      assert (Hk : (k <= MAX_RETRIES)%nat) by apply retries_bound.
      unfold MAX_RETRIES in Hk.
      destruct k as [|[|[|[|k']]]]; try reflexivity. lia.
    + apply last_snoc.
Qed.

Lemma retries_all_transient url mp b n :
  (forall i, (i < b)%nat -> transient (net (n + i)%nat url mp) = true) ->
  retries net url mp b n = b.
Proof.
  revert n. induction b as [|b IH]; intros n H; [reflexivity|].
  cbn [retries]. rewrite <- (Nat.add_0_r n) at 1. rewrite H by lia.
  f_equal. apply IH. intros i Hi. replace (S n + i)%nat with (n + S i)%nat by lia.
  apply H. lia.
Qed.

Lemma retries_until url mp b n j :
  (j <= b)%nat ->
  (forall i, (i < j)%nat -> transient (net (n + i)%nat url mp) = true) ->
  (j < b -> transient (net (n + j)%nat url mp) = false)%nat ->
  retries net url mp b n = j.
Proof.
  revert n j. induction b as [|b IH]; intros n j Hj Ht Hs.
  - cbn. lia.
  - cbn [retries]. destruct j as [|j].
    + rewrite <- (Nat.add_0_r n) at 1. rewrite Hs by lia. reflexivity.
    + rewrite <- (Nat.add_0_r n) at 1. rewrite Ht by lia. f_equal.
      apply IH; [lia| |].
      * intros i Hi. replace (S n + i)%nat with (n + S i)%nat by lia. apply Ht. lia.
      * intros Hlt. replace (S n + j)%nat with (n + S j)%nat by lia. apply Hs. lia.
Qed.

End MoreHttp.

Lemma records_of_event_In (event : EventJson) (q : OddsQuote) :
  In q (records_of_event event) <->
  exists bookmaker market key outcome,
    In bookmaker (e_bookmakers event) /\ In market (b_markets bookmaker) /\
    m_key market = Some key /\ In outcome (m_outcomes market) /\
    q = record_of event bookmaker key outcome.
Proof.
  unfold records_of_event. rewrite <- list_elem_of_In, list_elem_of_bind. split.
  - intros (bookmaker & Hq & Hb). apply list_elem_of_bind in Hq as (market & Hq & Hm).
    destruct (m_key market) as [key|] eqn:Ek; [|inversion Hq].
    apply list_elem_of_fmap in Hq as (outcome & -> & Ho).
    exists bookmaker, market, key, outcome. rewrite <- !list_elem_of_In. auto.
  - intros (bookmaker & market & key & outcome & Hb & Hm & Ek & Ho & ->).
    exists bookmaker. split; [|now apply list_elem_of_In].
    apply list_elem_of_bind. exists market. split; [|now apply list_elem_of_In].
    rewrite Ek. apply list_elem_of_fmap. exists outcome. split; [reflexivity|].
    now apply list_elem_of_In.
Qed.

Lemma length_bind {A B} (f : A -> list B) (l : list A) :
  length (l ≫= f) = list_sum (List.map (fun x => length (f x)) l).
Proof.
  induction l as [|x l IH]; [reflexivity|].
  cbn [mbind list_bind List.map list_sum]. fold (l ≫= f). now rewrite length_app, IH.
Qed.

Lemma records_of_event_length (event : EventJson) :
  length (records_of_event event) = outcomes_with_key event.
Proof.
  unfold records_of_event, outcomes_with_key. rewrite length_bind. f_equal.
  apply List.map_ext. intros bookmaker. rewrite length_bind. f_equal.
  apply List.map_ext. intros market. destruct (m_key market); [|reflexivity].
  apply length_fmap.
Qed.

Lemma rstrip_slash_spec (s : string) :
  ends_with_slash (rstrip_slash s) = false /\
  exists m, s = (rstrip_slash s ++ slashes m)%string.
Proof.
  induction s as [|c r [IH1 [m IH2]]]; [split; [reflexivity | now exists 0%nat]|].
  cbn [rstrip_slash]. destruct (rstrip_slash r) as [|c' r'] eqn:E.
  - destruct (decide (c = "/"%char)) as [->|Hc].
    + rewrite bool_decide_eq_true_2 by reflexivity. split; [reflexivity|].
      exists (S m). cbn. now rewrite IH2.
    + rewrite bool_decide_eq_false_2 by exact Hc. split.
      * cbn. now apply bool_decide_eq_false_2.
      * exists m. cbn. now rewrite IH2.
  - split; [exact IH1|]. exists m. cbn. now rewrite IH2 at 1.
Qed.

Lemma fetch_defaults py_int settings net regions markets :
  fetch_champions_league_odds py_int settings net regions markets
  = AllArguments.fetch_champions_league_odds py_int settings net regions (Some markets)
      "decimal" "iso" None None.
Proof.
  unfold fetch_champions_league_odds, AllArguments.fetch_champions_league_odds,
    odds_params, AllArguments.request_params, AllArguments.markets_param.
  now destruct markets.
Qed.

Lemma _get_first_final py_int settings net path params tr :
  ODDS_API_KEY settings <> "" ->
  let url := (BASE_URL settings ++ path)%string in
  let mp := with_api_key settings params in
  transient (net (requests_made tr) url mp) = false ->
  _get py_int settings net path params tr
  = (final py_int (net (requests_made tr) url mp), tr ++ [HttpGet url mp]).
Proof.
  intros Hkey url mp Ht. rewrite (_get_closed py_int settings net path params tr Hkey).
  fold url mp.
  assert (Hk : retries net url mp MAX_RETRIES (requests_made tr) = 0%nat).
  { apply retries_until; [lia | intros i Hi; lia | intros _; now rewrite Nat.add_0_r]. }
  rewrite Hk, Nat.add_0_r. reflexivity.
Qed.


(** X1. Whatever the network does, one call of [_get] sends at most
    [MAX_RETRIES + 1] = 4 requests, sleeps only between two requests, for 2,
    4 and 6 seconds in this order (12 seconds at most in all), and enters no
    other function of the client; without an API key it does nothing at all. *)
Theorem odds_get_request_budget
  (py_int : string -> option Z) (settings : Settings)
  (net : nat -> string -> gmap string string -> HttpOutcome)
  (path : string) (params : gmap string string) (tr : list IOEvent) :
  exists evs,
    (_get py_int settings net path params tr).2 = tr ++ evs /\
    (length (requested evs) <= S MAX_RETRIES)%nat /\
    slept evs = take (length (requested evs) - 1) [2; 4; 6]%Z /\
    (fold_right Z.add 0 (slept evs) <= 12)%Z /\
    (forall s, last evs <> Some (Sleep s)) /\
    List.filter is_fetch evs = [] /\
    (ODDS_API_KEY settings = "" -> evs = []).
Proof.
  destruct (_get_events py_int settings net path params tr) as (evs & Htr & Hfetch & Hno & Hkey).
  cbv zeta in Hkey. exists evs. split; [exact Htr|].
  destruct (decide (ODDS_API_KEY settings = "")) as [E|E].
  { rewrite (Hno E). cbn. repeat split; try lia; try reflexivity; discriminate. }
  destruct (Hkey E) as (Hreq & Hslept & Hlast). clear Hkey Hno.
  set (k := retries net (BASE_URL settings ++ path) (with_api_key settings params)
              MAX_RETRIES (requests_made tr)) in *.
  assert (Hk : (k <= MAX_RETRIES)%nat) by apply retries_bound.
  rewrite Hreq, Hslept, length_replicate. cbn [Nat.sub]. rewrite Nat.sub_0_r.
  split; [lia|]. split; [reflexivity|].
  split; [unfold MAX_RETRIES in Hk; destruct k as [|[|[|[|k']]]]; cbn; lia|].
  split; [intros s; rewrite Hlast; discriminate|].
  split; [exact Hfetch|]. intros H. now destruct (E H).
Qed.



(** X3. A call of [_get] gives up after [MAX_RETRIES] retries: when four
    outcomes in a row are transient it raises, after four requests and
    sleeps of 2, 4 and 6 seconds, the error of the fourth: an
    [OddsAPIHTTPError] with the status and the detail of the last response,
    or an [OddsAPIError] with the text of the last network exception. *)
Theorem odds_get_gives_up
  (py_int : string -> option Z) (settings : Settings)
  (net : nat -> string -> gmap string string -> HttpOutcome)
  (path : string) (params : gmap string string) (tr : list IOEvent) :
  let url := (BASE_URL settings ++ path)%string in
  let mp := with_api_key settings params in
  let n := requests_made tr in
  ODDS_API_KEY settings <> "" ->
  (forall i, (i <= MAX_RETRIES)%nat -> transient (net (n + i)%nat url mp) = true) ->
  exists e evs,
    _get py_int settings net path params tr = (Raised e, tr ++ evs) /\
    requested evs = replicate 4 (url, mp) /\
    slept evs = [2; 4; 6]%Z /\
    match net (n + MAX_RETRIES)%nat url mp with
    | Responded r =>
        e = OddsAPIHTTPError
              ("Falha ao consultar a Odds API: "
                 ++ str_or (_error_detail (Some r)) (error_line r))
              (Some (status_code r)) /\
        status_code r ∈ [429; 500; 502; 503; 504]%Z
    | RequestException s => e = OddsAPIError ("Falha ao consultar a Odds API: " ++ s)
    | HTTPErrorWithoutResponse _ => False
    end.
Proof.
  intros url mp n Hkey Htrans.
  assert (Hk : retries net url mp MAX_RETRIES n = MAX_RETRIES).
  { apply retries_all_transient. intros i Hi. apply Htrans. lia. }
  destruct (_get_events py_int settings net path params tr) as (evs & Htr & _ & _ & Hev).
  cbv zeta in Hev. destruct (Hev Hkey) as (Hreq & Hslept & _). clear Hev.
  fold url mp n in Hreq, Hslept. rewrite Hk in Hreq, Hslept.
  assert (Hrun := _get_closed py_int settings net path params tr Hkey).
  cbv zeta in Hrun. fold url mp n in Hrun. rewrite Hk in Hrun.
  assert (Hlast := Htrans MAX_RETRIES (Nat.le_refl _)).
  rewrite Hrun in Htr. cbn [snd] in Htr. rewrite Hrun, Htr.
  destruct (net (n + MAX_RETRIES)%nat url mp) as [r|s|s] eqn:Enet; cbn [transient] in Hlast;
    [|discriminate|].
  - apply andb_true_iff in Hlast as [Herr Hretried]. cbn [final]. rewrite Herr.
    assert (Hin : status_code r ∈ [429; 500; 502; 503; 504]%Z).
    { assert (H := transient_statuses r). cbn [transient] in H.
      rewrite Herr, Hretried in H. symmetry in H. now apply bool_decide_eq_true in H. }
    eexists _, evs. split; [reflexivity|]. split; [exact Hreq|]. split; [exact Hslept|].
    split; [|exact Hin].
    unfold http_error. cbn [fmap option_fmap option_map].
    rewrite !bool_decide_eq_false_2; [reflexivity| |];
      intros [= E]; rewrite E in Hin;
      repeat (apply elem_of_cons in Hin as [Hin|Hin]; [discriminate|]); inversion Hin.
  - cbn [final]. eexists _, evs. split; [reflexivity|]. now split.
Qed.

(** The server that is always unavailable: four requests, then the error
    with the status 503. *)
Lemma odds_get_gives_up_on_503 :
  exists e evs,
    _get no_int sample_settings always_unavailable "/sports" ∅ [] = (Raised e, evs) /\
    length (requested evs) = 4%nat /\
    slept evs = [2; 4; 6]%Z /\
    e = OddsAPIHTTPError "Falha ao consultar a Odds API: Service Unavailable" (Some 503%Z).
Proof.
  destruct (odds_get_gives_up no_int sample_settings always_unavailable "/sports" ∅ [])
    as (e & evs & Hrun & Hreq & Hslept & He).
  - discriminate.
  - intros i _. reflexivity.
  - exists e, evs. split; [exact Hrun|]. split; [now rewrite Hreq|]. split; [exact Hslept|].
    cbv in He. apply He.
Defined.

Lemma fetch_all_unfold py_int settings net regions markets odds_format date_format
    include_links sport_key tr :
  AllArguments.fetch_champions_league_odds py_int settings net regions markets
    odds_format date_format include_links sport_key tr
  = match _get py_int settings net (AllArguments.request_path settings sport_key)
            (AllArguments.request_params regions markets odds_format date_format
               include_links)
            (tr ++ [CallFetch (default [] markets)]) with
    | (Returned r, tr') => (Returned (payload ← r.1; records_of_event payload, r.2), tr')
    | (Raised e, tr') => (Raised e, tr')
    end.
Proof. reflexivity. Qed.

(** X4. [fetch_champions_league_odds] raises what [_get] raises and sends
    nothing more. When [_get] returns a payload, the frame has one record for
    each outcome of each market that has a key, of each bookmaker of each
    event, with the columns of the event, the bookmaker, the market key and
    the outcome, and no other record; the markets without a key are skipped,
    so a payload whose markets all lack their key gives an empty frame. The
    quota metadata is passed through. *)
Theorem fetch_flattens_payload
  (py_int : string -> option Z) (settings : Settings)
  (net : nat -> string -> gmap string string -> HttpOutcome)
  (regions : string) (markets : option (list string)) (odds_format date_format : string)
  (include_links : option bool) (sport_key : option string) (tr : list IOEvent) :
  let run :=
    AllArguments.fetch_champions_league_odds py_int settings net regions markets
      odds_format date_format include_links sport_key tr in
  let got :=
    _get py_int settings net (AllArguments.request_path settings sport_key)
      (AllArguments.request_params regions markets odds_format date_format include_links)
      (tr ++ [CallFetch (default [] markets)]) in
  run.2 = got.2 /\
  match got.1 with
  | Raised e => run.1 = Raised e
  | Returned (payload, meta) =>
      exists records,
        run.1 = Returned (records, meta) /\
        (forall q, In q records <->
           exists event bookmaker market key outcome,
             In event payload /\ In bookmaker (e_bookmakers event) /\
             In market (b_markets bookmaker) /\ m_key market = Some key /\
             In outcome (m_outcomes market) /\
             q = record_of event bookmaker key outcome) /\
        length records = list_sum (List.map outcomes_with_key payload) /\
        ((forall event bookmaker market,
            In event payload -> In bookmaker (e_bookmakers event) ->
            In market (b_markets bookmaker) -> m_key market = None) ->
         records = [])
  end.
Proof.
  intros run got. subst run. rewrite fetch_all_unfold. fold got.
  destruct got as [[[payload meta]|e] tr']; cbn [fst snd]; [|split; reflexivity].
  split; [reflexivity|]. eexists. split; [reflexivity|].
  assert (Hin : forall q, In q (payload ≫= records_of_event) <->
     exists event bookmaker market key outcome,
       In event payload /\ In bookmaker (e_bookmakers event) /\
       In market (b_markets bookmaker) /\ m_key market = Some key /\
       In outcome (m_outcomes market) /\
       q = record_of event bookmaker key outcome).
  { intros q. rewrite <- list_elem_of_In, list_elem_of_bind. split.
    - intros (event & Hq & He). apply list_elem_of_In, records_of_event_In in Hq
        as (bookmaker & market & key & outcome & H).
      exists event, bookmaker, market, key, outcome. split; [now apply list_elem_of_In|exact H].
    - intros (event & bookmaker & market & key & outcome & He & H).
      exists event. split; [|now apply list_elem_of_In].
      apply list_elem_of_In, records_of_event_In. now exists bookmaker, market, key, outcome. }
  split; [exact Hin|]. split.
  - rewrite length_bind. f_equal. apply List.map_ext. intros event.
    apply records_of_event_length.
  - intros Hnone. destruct (payload ≫= records_of_event) as [|q rest] eqn:E; [reflexivity|].
    destruct (proj1 (Hin q)) as (event & bookmaker & market & key & outcome
                                  & He & Hb & Hm & Hk & _); [now left|].
    rewrite (Hnone event bookmaker market He Hb Hm) in Hk. discriminate.
Qed.

(** X5. What [fetch_champions_league_odds] puts on the wire when the API
    key is set: every request of the call, the retries included, goes to the
    base URL without its trailing slashes followed by /sports/<key>/odds/,
    the key being the argument unless it is missing or empty, and then the
    configured one; it carries the API key, the regions, the markets joined
    by commas (h2h when none is given), the two formats, includeLinks as
    true or false when the argument is given, and no other parameter. *)
Theorem fetch_request_on_the_wire
  (py_int : string -> option Z) (settings : Settings)
  (net : nat -> string -> gmap string string -> HttpOutcome)
  (regions : string) (markets : option (list string)) (odds_format date_format : string)
  (include_links : option bool) (sport_key : option string) (tr : list IOEvent) :
  let run :=
    AllArguments.fetch_champions_league_odds py_int settings net regions markets
      odds_format date_format include_links sport_key tr in
  let key :=
    match sport_key with
    | Some (String c k) => String c k
    | _ => ODDS_API_SPORT_KEY settings
    end in
  let url := (BASE_URL settings ++ "/sports/" ++ key ++ "/odds/")%string in
  ODDS_API_KEY settings <> "" ->
  exists sent n,
    requested run.2 = requested tr ++ replicate (S n) (url, sent) /\
    (n <= MAX_RETRIES)%nat /\
    sent !! "apiKey" = Some (ODDS_API_KEY settings) /\
    sent !! "regions" = Some regions /\
    sent !! "markets"
      = Some match markets with
             | Some (m :: ms) => String.concat "," (m :: ms)
             | _ => "h2h"
             end /\
    sent !! "oddsFormat" = Some odds_format /\
    sent !! "dateFormat" = Some date_format /\
    sent !! "includeLinks" = (fun b : bool => if b then "true" else "false") <$> include_links /\
    (forall k, k ∉ ["apiKey"; "regions"; "markets"; "oddsFormat"; "dateFormat"; "includeLinks"] ->
       sent !! k = None) /\
    ends_with_slash (BASE_URL settings) = false /\
    exists m, ODDS_API_BASE_URL settings = (BASE_URL settings ++ slashes m)%string.
Proof.
  intros run key url Hkey. subst run. rewrite fetch_all_unfold.
  set (path := AllArguments.request_path settings sport_key).
  set (params := AllArguments.request_params regions markets odds_format date_format
                   include_links).
  destruct (_get_events py_int settings net path params (tr ++ [CallFetch (default [] markets)]))
    as (evs & Htr & _ & _ & Hev).
  cbv zeta in Hev. destruct (Hev Hkey) as (Hreq & _ & _). clear Hev.
  assert (Hpath : path = ("/sports/" ++ key ++ "/odds/")%string).
  { unfold path, AllArguments.request_path, key, str_or.
    destruct sport_key as [[|c k]|]; reflexivity. }
  exists (with_api_key settings params),
    (retries net (BASE_URL settings ++ path)%string (with_api_key settings params) MAX_RETRIES
       (requests_made (tr ++ [CallFetch (default [] markets)]))).
  split.
  { destruct (_get py_int settings net path params _) as [[r|e] tr'];
      cbn [snd] in *; subst tr'; rewrite !requested_app, Hreq, Hpath, app_nil_r; reflexivity. }
  split; [apply retries_bound|].
  unfold with_api_key, params, AllArguments.request_params, AllArguments.markets_param,
    AllArguments.str_lower_bool.
  destruct (rstrip_slash_spec (ODDS_API_BASE_URL settings)) as [Hs Hm].
  destruct include_links as [b|]; cbn [fmap option_fmap option_map];
    (do 6 (split; [now simplify_map_eq|]));
    (split; [|split; [exact Hs|exact Hm]]).
  all: intros k Hk;
    repeat (rewrite lookup_insert_ne;
              [|intros <-; apply Hk, list_elem_of_In; simpl; auto 10]);
    apply lookup_empty.
Qed.

(** The call of the loader against the server that refuses the totals
    market: one request, with the five parameters. *)
Lemma fetch_request_of_the_loader :
  exists sent,
    requested
      (AllArguments.fetch_champions_league_odds no_int sample_settings rejects_totals
         "eu" (Some ["h2h"; "totals"]) "decimal" "iso" None None []).2
    = [("https://api.the-odds-api.com/v4/sports/soccer_uefa_champions_league/odds/", sent)] /\
    sent !! "apiKey" = Some "k3y" /\ sent !! "markets" = Some "h2h,totals" /\
    sent !! "includeLinks" = None.
Proof.
  destruct (fetch_request_on_the_wire no_int sample_settings rejects_totals
              "eu" (Some ["h2h"; "totals"]) "decimal" "iso" None None [])
    as (sent & n & Hreq & Hn & Hkey & _ & Hmarkets & _ & _ & Hlinks & _).
  - discriminate.
  - exists sent.
    assert (E : n = 0%nat).
    { apply (f_equal length) in Hreq. rewrite length_app, length_replicate in Hreq.
      vm_compute in Hreq. lia. }
    subst n. split; [exact Hreq|]. split; [exact Hkey|]. split; [exact Hmarkets|exact Hlinks].
Defined.


(* ===================================================================== *)
(** * The odds section of the page *)
(* ===================================================================== *)

Section PageFacts.
Context `{U : Unicodedata}.
Variable strftime : string -> string -> timestamp -> string.
Variable py_int : string -> option Z.
Variable settings : Settings.
Variable net : nat -> string -> gmap string string -> HttpOutcome.

Let loader := get_cl_odds_data py_int settings net.

(** [load_odds] by the outcome of the loader. *)
Lemma load_odds_unfold utcnow p :
  load_odds strftime py_int settings net utcnow p
  = match loader (io p) with
    | (Returned r, tr') =>
        (Returned r,
         {| io := tr';
            odds_cache := Some {| cache_df := r.1.1; cache_meta := r.1.2;
                                  cache_markets := r.2; captured_at := Some utcnow |};
            shown := shown p |})
    | (Raised exc, tr') =>
        if is_OddsAPIError exc then
          match odds_cache p with
          | Some c =>
              (Returned (cache_df c, cache_meta c, cache_markets c),
               {| io := tr'; odds_cache := Some c;
                  shown := shown p
                    ++ [Warning ("Nao foi possivel consultar a Odds API: " ++ message exc
                                   ++ ". Usando o ultimo cache valido ("
                                   ++ update_display strftime (captured_at c) ++ " UTC).")] |})
          | None =>
              (Returned ([], no_meta, []),
               {| io := tr'; odds_cache := None;
                  shown := shown p
                    ++ [Warning ("Nao foi possivel consultar a Odds API: " ++ message exc)] |})
          end
        else (Raised exc, {| io := tr'; odds_cache := odds_cache p; shown := shown p |})
    end.
Proof.
  unfold load_odds, try_except, bind, lift_io, session_set, session_get, show, ret, raise.
  fold loader. destruct (loader (io p)) as [[r|exc] tr']; cbn [fst snd io odds_cache shown];
    [reflexivity|].
  destruct (is_OddsAPIError exc); [|reflexivity].
  destruct (odds_cache p) as [c|] eqn:Ec; cbn [io odds_cache shown]; rewrite ?Ec; reflexivity.
Qed.


Lemma load_odds_safe utcnow p e :
  (load_odds strftime py_int settings net utcnow p).1 = Raised e ->
  is_OddsAPIError e = false /\ (loader (io p)).1 = Raised e.
Proof.
  rewrite load_odds_unfold. destruct (loader (io p)) as [[r|exc] tr']; [discriminate|].
  destruct (is_OddsAPIError exc) eqn:E.
  - destruct (odds_cache p); discriminate.
  - cbn [fst]. intros [= <-]. now split.
Qed.

Lemma totals_section_raises used_markets selected_fixture_df odds_raw_df e :
  totals_section strftime used_markets selected_fixture_df odds_raw_df = Raised e ->
  exists msg, e = KeyError msg.
Proof.
  unfold totals_section. destruct (negb _); [discriminate|].
  rewrite build_totals_table_joined. unfold totals_table_of.
  destruct (joined "totals" selected_fixture_df odds_raw_df) as [|m M]; [discriminate|].
  destruct (pivot_lines _); [discriminate|].
  destruct (titled "Over" _), (titled "Under" _);
    try (intros [= <-]; eexists; reflexivity).
  destruct (sort_by _ _); discriminate.
Qed.

End PageFacts.

(** X8. The odds section lets no [OddsAPIError] out. What it raises is
    what the loader raised and the page does not handle, the [KeyError] of
    the totals table, or, with the debug view on, the [IndexError] of an empty
    selection. *)
Theorem odds_section_lets_no_api_error_out `{U : Unicodedata}
  (strftime : string -> string -> timestamp -> string)
  (py_int : string -> option Z) (settings : Settings)
  (net : nat -> string -> gmap string string -> HttpOutcome)
  (DEBUG_ODDS : bool) (utcnow : timestamp) (selected_fixture_df : list Fixture)
  (p : Page) (e : PyExn) :
  (odds_section strftime py_int settings net DEBUG_ODDS utcnow selected_fixture_df p).1
    = Raised e ->
  is_OddsAPIError e = false /\
  ((get_cl_odds_data py_int settings net (io p)).1 = Raised e \/
   (exists msg, e = KeyError msg) \/
   (DEBUG_ODDS = true /\ selected_fixture_df = [] /\ exists msg, e = IndexError msg)).
Proof.
  unfold odds_section. unfold bind at 1.
  destruct (load_odds strftime py_int settings net utcnow p) as [[r|exc] p1] eqn:Eload.
  2:{ cbn [fst]. intros [= <-].
      destruct (load_odds_safe strftime py_int settings net utcnow p exc) as [H1 H2];
        [now rewrite Eload|]. split; [exact H1|now left]. }
  set (odds_overview := _build_odds_overview r.1.1).
  unfold bind, show, ret, raise.
  destruct DEBUG_ODDS; cbn [andb].
  - destruct (negb (is_nil odds_overview)); cbn [fst snd].
    + destruct selected_fixture_df as [|fixture_row rest]; cbn [fst snd].
      * intros [= <-]. split; [reflexivity|]. right. right. eauto.
      * destruct (debug_odds_matching fixture_row odds_overview); cbn [fst snd];
          destruct (build_moneyline_summary strftime (fixture_row :: rest) r.1.1);
          cbn [fst snd];
          destruct (totals_section strftime r.2 (fixture_row :: rest) r.1.1) as [s|e'] eqn:Et;
          cbn [fst snd];
          try (destruct (requests_remaining r.1.2); discriminate);
          intros [= <-]; destruct (totals_section_raises strftime _ _ _ _ Et) as [msg ->];
          (split; [reflexivity|right; left; eauto]).
    + destruct (build_moneyline_summary strftime selected_fixture_df r.1.1);
        cbn [fst snd];
        destruct (totals_section strftime r.2 selected_fixture_df r.1.1) as [s|e'] eqn:Et;
        cbn [fst snd];
        try (destruct (requests_remaining r.1.2); discriminate);
        intros [= <-]; destruct (totals_section_raises strftime _ _ _ _ Et) as [msg ->];
        (split; [reflexivity|right; left; eauto]).
  - destruct (build_moneyline_summary strftime selected_fixture_df r.1.1);
      cbn [fst snd];
      destruct (totals_section strftime r.2 selected_fixture_df r.1.1) as [s|e'] eqn:Et;
      cbn [fst snd];
      try (destruct (requests_remaining r.1.2); discriminate);
      intros [= <-]; destruct (totals_section_raises strftime _ _ _ _ Et) as [msg ->];
      (split; [reflexivity|right; left; eauto]).
Qed.

(** The server whose answer is no JSON: the decoding error of the first
    response leaves the section, and it is no [OddsAPIError]. *)
Lemma odds_section_invalid_json_is_no_api_error :
  (odds_section (U := Latin1Laws.latin1_db) strftime_count no_int sample_settings
     answers_html false 0%Z [barcelona_milan] first_run).1
  = Raised (JSONDecodeError "<html>") /\
  is_OddsAPIError (JSONDecodeError "<html>") = false.
Proof.
  split; [reflexivity|].
  apply (odds_section_lets_no_api_error_out (U := Latin1Laws.latin1_db) strftime_count
           no_int sample_settings answers_html false 0%Z [barcelona_milan] first_run).
  reflexivity.
Defined.

(** X6. The session cache serves the last success: when a run of the page
    loads the odds and a later run fails with an [OddsAPIError] (an HTTP
    error included), the later run works on the frame, the quota and the
    markets of the earlier one, keeps the cache as it is and shows one
    warning with the text of the error and the time of the capture. *)
Theorem odds_cache_serves_last_success
  (strftime : string -> string -> timestamp -> string)
  (py_int : string -> option Z) (settings : Settings)
  (net : nat -> string -> gmap string string -> HttpOutcome)
  (utcnow later : timestamp) (p : Page)
  (r : list OddsQuote * OddsAPIMeta * list string) (e : PyExn) :
  let first := load_odds strftime py_int settings net utcnow p in
  let second := load_odds strftime py_int settings net later first.2 in
  (get_cl_odds_data py_int settings net (io p)).1 = Returned r ->
  (get_cl_odds_data py_int settings net (io first.2)).1 = Raised e ->
  is_OddsAPIError e = true ->
  first.1 = Returned r /\ second.1 = Returned r /\
  odds_cache first.2
    = Some {| cache_df := r.1.1; cache_meta := r.1.2; cache_markets := r.2;
              captured_at := Some utcnow |} /\
  odds_cache second.2 = odds_cache first.2 /\
  shown first.2 = shown p /\
  shown second.2
    = shown p ++ [Warning ("Nao foi possivel consultar a Odds API: " ++ message e
                             ++ ". Usando o ultimo cache valido ("
                             ++ strftime "UTC" "%d/%m %H:%M" utcnow ++ " UTC).")].
Proof.
  intros first second Hfirst Hsecond He.
  assert (E1 := load_odds_unfold strftime py_int settings net utcnow p). fold first in E1.
  destruct (get_cl_odds_data py_int settings net (io p)) as [[r'|exc] tr'] eqn:El;
    cbn [fst] in Hfirst; [|discriminate].
  injection Hfirst as ->.
  assert (E2 := load_odds_unfold strftime py_int settings net later first.2).
  fold second in E2.
  destruct (get_cl_odds_data py_int settings net (io first.2)) as [[r'|exc] tr''] eqn:El2;
    cbn [fst] in Hsecond; [discriminate|].
  injection Hsecond as ->. rewrite He in E2.
  rewrite E1 in E2 |- *. cbn [fst snd odds_cache shown] in E2 |- *. rewrite E2.
  cbn [fst snd odds_cache shown captured_at cache_df cache_meta cache_markets update_display].
  destruct r as [[df meta] markets]. repeat split.
Qed.

(** The key is revoked after a first run: the second run shows the frame of
    the first. *)
Lemma odds_cache_after_revoked_key :
  let first := load_odds strftime_count no_int sample_settings
                 key_revoked 100%Z first_run in
  let second := load_odds strftime_count no_int sample_settings
                  key_revoked 200%Z first.2 in
  second.1 = first.1 /\
  length (requested (io second.2)) = 2%nat /\
  shown second.2
  = [Warning "Nao foi possivel consultar a Odds API: Falha ao consultar a Odds API: Unauthorized. Usando o ultimo cache valido (100 UTC)."].
Proof.
  intros first second.
  destruct (odds_cache_serves_last_success strftime_count no_int
              sample_settings key_revoked 100%Z 200%Z first_run
              (records_of_event sample_event, _build_meta no_int (ok_response [sample_event]),
               ["h2h"; "totals"])
              (OddsAPIHTTPError "Falha ao consultar a Odds API: Unauthorized" (Some 401%Z)))
    as (H1 & H2 & _ & _ & _ & H3).
  - vm_compute. reflexivity.
  - vm_compute. reflexivity.
  - reflexivity.
  - subst first second. cbv zeta in H1, H2, H3. rewrite H2, H1. split; [reflexivity|].
    split; [vm_compute; reflexivity|]. rewrite H3. reflexivity.
Defined.

(** X7. Without a cache an [OddsAPIError] of the loader does not stop the
    page: the section shows the warning with the text of the error, then no
    moneyline odds and the totals market as unavailable, shows no quota,
    leaves the session without a cache and returns. *)
Theorem odds_section_without_cache `{U : Unicodedata}
  (strftime : string -> string -> timestamp -> string)
  (py_int : string -> option Z) (settings : Settings)
  (net : nat -> string -> gmap string string -> HttpOutcome)
  (DEBUG_ODDS : bool) (utcnow : timestamp) (selected_fixture_df : list Fixture)
  (p : Page) (e : PyExn) :
  let loaded := get_cl_odds_data py_int settings net (io p) in
  let run := odds_section strftime py_int settings net DEBUG_ODDS utcnow
               selected_fixture_df p in
  odds_cache p = None ->
  loaded.1 = Raised e ->
  is_OddsAPIError e = true ->
  run.1 = Returned tt /\
  io run.2 = loaded.2 /\
  odds_cache run.2 = None /\
  shown run.2
  = shown p
      ++ [Warning ("Nao foi possivel consultar a Odds API: " ++ message e)]
      ++ (if DEBUG_ODDS then [DebugCounts 0 0 []] else [])
      ++ [MoneylineMissing; TotalsShown MarketUnavailable].
Proof.
  intros loaded run Hcache Hloaded He.
  assert (E : run
    = (Returned tt,
       {| io := loaded.2; odds_cache := None;
          shown := shown p
            ++ [Warning ("Nao foi possivel consultar a Odds API: " ++ message e)]
            ++ (if DEBUG_ODDS then [DebugCounts 0 0 []] else [])
            ++ [MoneylineMissing; TotalsShown MarketUnavailable] |})).
  { subst run. unfold odds_section. unfold bind at 1. rewrite load_odds_unfold. fold loaded.
    destruct loaded as [[r|exc] tr']; cbn [fst snd] in *; [discriminate|].
    injection Hloaded as ->. rewrite He, Hcache.
    cbn [fst snd]. change (_build_odds_overview []) with (@nil OverviewRow).
    assert (Hm : build_moneyline_summary strftime selected_fixture_df [] = [])
      by now destruct selected_fixture_df.
    assert (Ht : totals_section strftime [] selected_fixture_df [] = Returned MarketUnavailable)
      by reflexivity.
    rewrite Hm, Ht.
    destruct DEBUG_ODDS; cbn; rewrite <- ?app_assoc; reflexivity. }
  rewrite E. repeat split.
Qed.

(** With the settings of config.py, which hold no key, the first run sends
    nothing and shows the warning, no odds and no totals. *)
Lemma odds_section_with_default_settings :
  let run := odds_section (U := Latin1Laws.latin1_db) strftime_count no_int default_settings
               answers_html false 0%Z [barcelona_milan] first_run in
  run.1 = Returned tt /\
  io run.2 = [CallFetch ["h2h"; "totals"]] /\
  shown run.2
  = [Warning "Nao foi possivel consultar a Odds API: ODDS_API_KEY n?o configurada. Atualize o arquivo .env.";
     MoneylineMissing; TotalsShown MarketUnavailable].
Proof.
  intros run.
  destruct (odds_section_without_cache (U := Latin1Laws.latin1_db) strftime_count no_int
              default_settings answers_html false 0%Z [barcelona_milan] first_run
              (OddsAPIError "ODDS_API_KEY n?o configurada. Atualize o arquivo .env."))
    as (H1 & H2 & _ & H3); [reflexivity..|].
  subst run. cbv zeta in H1, H2, H3. split; [exact H1|].
  split; [rewrite H2|rewrite H3]; reflexivity.
Defined.
(** X9. A response of the odds provider that has no error status and
    whose body is not JSON stops the page: the decoding error is raised by
    [_get] outside its [try], is no [OddsAPIError], and so passes the loader
    and the section, after one request, with nothing shown and the cache
    untouched. *)
Theorem odds_section_stops_on_invalid_json `{U : Unicodedata}
  (strftime : string -> string -> timestamp -> string)
  (py_int : string -> option Z) (settings : Settings)
  (net : nat -> string -> gmap string string -> HttpOutcome)
  (DEBUG_ODDS : bool) (utcnow : timestamp) (selected_fixture_df : list Fixture)
  (p : Page) (resp : Response) :
  let url := (BASE_URL settings ++ odds_path settings)%string in
  let sent := with_api_key settings (odds_params "eu" ["h2h"; "totals"]) in
  let run := odds_section strftime py_int settings net DEBUG_ODDS utcnow
               selected_fixture_df p in
  ODDS_API_KEY settings <> "" ->
  net (requests_made (io p)) url sent = Responded resp ->
  (status_code resp < 400 \/ 600 <= status_code resp)%Z ->
  json resp = JInvalid ->
  run.1 = Raised (JSONDecodeError (text resp)) /\
  io run.2 = io p ++ [CallFetch ["h2h"; "totals"]; HttpGet url sent] /\
  odds_cache run.2 = odds_cache p /\
  shown run.2 = shown p.
Proof.
  intros url sent run Hkey Hnet Hstatus Hjson.
  assert (Hnot : ((400 <=? status_code resp) && (status_code resp <? 600))%Z = false).
  { apply andb_false_iff. destruct Hstatus; [left; apply Z.leb_gt | right; apply Z.ltb_ge]; lia. }
  assert (Hload : get_cl_odds_data py_int settings net (io p)
                  = (Raised (JSONDecodeError (text resp)),
                     io p ++ [CallFetch ["h2h"; "totals"]; HttpGet url sent])).
  { rewrite get_cl_odds_data_unfold, fetch_unfold.
    rewrite _get_first_final; [|exact Hkey|];
      rewrite requests_made_app, Nat.add_0_r; fold url sent; rewrite Hnet; cbn [transient final].
    - rewrite Hnot, Hjson, <- app_assoc. reflexivity.
    - now rewrite Hnot. }
  assert (E : run = (Raised (JSONDecodeError (text resp)),
                     {| io := io p ++ [CallFetch ["h2h"; "totals"]; HttpGet url sent];
                        odds_cache := odds_cache p; shown := shown p |})).
  { subst run. unfold odds_section. unfold bind at 1.
    rewrite load_odds_unfold, Hload. reflexivity. }
  rewrite E. repeat split.
Qed.

(** The server whose answer is no JSON, at the first run of the page. *)
Lemma odds_section_stops_on_html :
  let run := odds_section (U := Latin1Laws.latin1_db) strftime_count no_int sample_settings
               answers_html false 0%Z [barcelona_milan] first_run in
  run.1 = Raised (JSONDecodeError "<html>") /\ length (io run.2) = 2%nat /\
  shown run.2 = [].
Proof.
  intros run.
  destruct (odds_section_stops_on_invalid_json (U := Latin1Laws.latin1_db) strftime_count
              no_int sample_settings answers_html false 0%Z [barcelona_milan] first_run
              {| status_code := 200; text := "<html>"; json := JInvalid; error_line := "";
                 x_requests_remaining := None; x_requests_used := None;
                 x_requests_last := None |})
    as (H1 & H2 & _ & H3).
  - discriminate.
  - reflexivity.
  - left. reflexivity.
  - reflexivity.
  - subst run. cbv zeta in H1, H2, H3. split; [exact H1|]. split; [now rewrite H2|exact H3].
Defined.

(* ===================================================================== *)
(** * The overview of the odds by event *)
(* ===================================================================== *)

Lemma ascii_compare_trans_le (a b c : ascii) :
  Ascii.compare a b <> Gt -> Ascii.compare b c <> Gt -> Ascii.compare a c <> Gt.
Proof.
  unfold Ascii.compare. rewrite !N.compare_ngt_iff. lia.
Qed.





(* ===================================================================== *)
(** * More on the reconcilers and on the selection *)
(* ===================================================================== *)

Lemma filter_filter_same {A} (f : A -> bool) (l : list A) :
  List.filter f (List.filter f l) = List.filter f l.
Proof.
  induction l as [|x l IH]; [reflexivity|]. cbn. destruct (f x) eqn:E; cbn; rewrite ?E, IH;
    reflexivity.
Qed.

Lemma filter_other_market market (extra : list OddsQuote) :
  Forall (fun q => market_key q <> market) extra ->
  List.filter (is_market market) extra = [].
Proof.
  induction 1 as [|q extra Hq _ IH]; [reflexivity|].
  cbn. unfold is_market at 1. now rewrite bool_decide_eq_false_2.
Qed.

Section MarketFacts.
Context `{U : Unicodedata}.
Variable strftime : string -> string -> timestamp -> string.

Lemma joined_market_only market fixtures_df odds_df :
  joined market fixtures_df (List.filter (is_market market) odds_df)
  = joined market fixtures_df odds_df.
Proof. unfold joined. now rewrite filter_filter_same. Qed.

Lemma joined_other_market market fixtures_df odds_df before after :
  Forall (fun q => market_key q <> market) before ->
  Forall (fun q => market_key q <> market) after ->
  joined market fixtures_df (before ++ odds_df ++ after) = joined market fixtures_df odds_df.
Proof.
  intros Hb Ha. unfold joined.
  now rewrite !List.filter_app, (filter_other_market _ _ Hb), (filter_other_market _ _ Ha),
    app_nil_r.
Qed.

(** [build_totals_table] raises exactly for a pivot that is not empty and
    lacks a column. *)
Lemma build_totals_table_raises fixtures_df odds_df e :
  let keyed := omap point_and_name (joined "totals" fixtures_df odds_df) in
  let no_over := is_nil (titled "Over" (pivot_names keyed)) in
  let no_under := is_nil (titled "Under" (pivot_names keyed)) in
  build_totals_table strftime fixtures_df odds_df = Raised e <->
  keyed <> [] /\ (no_over || no_under = true) /\
  e = KeyError (if no_over
                then if no_under then "['Over', 'Under'] not in index"
                     else "['Over'] not in index"
                else "['Under'] not in index").
Proof.
  intros keyed no_over no_under. rewrite build_totals_table_joined. unfold totals_table_of.
  fold keyed. subst no_over no_under.
  destruct (joined "totals" fixtures_df odds_df) as [|m M] eqn:EM.
  { subst keyed. cbn. split; [discriminate|]. intros [H _]. now destruct H. }
  rewrite <- EM in *. clear EM.
  destruct (pivot_lines keyed) as [|p ps] eqn:Elines.
  { split; [discriminate|]. intros [H _]. exfalso. apply H.
    destruct keyed as [|k ks] eqn:Ek; [reflexivity|].
    destruct (pivot_lines_covers (k :: ks) k) as (p & Hp & _); [now left|].
    rewrite Elines in Hp. destruct Hp. }
  assert (Hk : keyed <> []).
  { intros Hk. rewrite Hk in Elines. discriminate. }
  destruct (titled "Over" (pivot_names keyed)), (titled "Under" (pivot_names keyed));
    cbn [is_nil orb]; split;
    try (intros [= <-]; auto);
    try (intros (_ & _ & ->); reflexivity);
    try discriminate.
  intros (_ & H & _). discriminate.
Qed.

End MarketFacts.

(** X11. Each reconciler reads the quotes of its own market and no other:
    the moneyline summary is the same when every quote of another market is
    taken out of the odds frame or put into it, anywhere, and so is the
    totals table for the quotes that are not totals; a frame with the quotes
    of the other market alone gives an empty table. *)
Theorem reconcilers_read_their_market_only `{U : Unicodedata}
  (strftime : string -> string -> timestamp -> string)
  (fixtures_df : list Fixture) (odds_df : list OddsQuote) :
  build_moneyline_summary strftime fixtures_df (List.filter (is_market "h2h") odds_df)
    = build_moneyline_summary strftime fixtures_df odds_df /\
  build_totals_table strftime fixtures_df (List.filter (is_market "totals") odds_df)
    = build_totals_table strftime fixtures_df odds_df /\
  (forall before after,
     Forall (fun q => market_key q <> "h2h") before ->
     Forall (fun q => market_key q <> "h2h") after ->
     build_moneyline_summary strftime fixtures_df (before ++ odds_df ++ after)
     = build_moneyline_summary strftime fixtures_df odds_df) /\
  (forall before after,
     Forall (fun q => market_key q <> "totals") before ->
     Forall (fun q => market_key q <> "totals") after ->
     build_totals_table strftime fixtures_df (before ++ odds_df ++ after)
     = build_totals_table strftime fixtures_df odds_df) /\
  build_moneyline_summary strftime fixtures_df (List.filter (is_market "totals") odds_df) = [] /\
  build_totals_table strftime fixtures_df (List.filter (is_market "h2h") odds_df) = Returned [].
Proof.
  rewrite !build_moneyline_summary_joined, !build_totals_table_joined, !joined_market_only.
  split; [reflexivity|]. split; [reflexivity|].
  split.
  { intros before after Hb Ha.
    now rewrite build_moneyline_summary_joined, joined_other_market. }
  split.
  { intros before after Hb Ha.
    now rewrite build_totals_table_joined, joined_other_market. }
  assert (Hother : forall m m', m <> m' ->
            joined m fixtures_df (List.filter (is_market m') odds_df) = []).
  { intros m m' Hm. apply joined_no_quotes.
    induction odds_df as [|q qs IH]; [reflexivity|]. cbn [List.filter].
    destruct (is_market m' q) eqn:E; [|exact IH]. cbn [List.filter].
    unfold is_market in E |- *. apply bool_decide_eq_true_1 in E.
    rewrite bool_decide_eq_false_2 by congruence. exact IH. }
  rewrite !Hother by discriminate. split; reflexivity.
Qed.

(** X12. [build_totals_table] raises in one case only: some joined totals
    quote has a goal line and an outcome name, and among the names of these
    quotes none is titled Over or none is titled Under. It then raises the
    [KeyError] of the columns missing; in every other case it returns. *)
Theorem totals_table_raises_exactly_without_a_column `{U : Unicodedata}
  (strftime : string -> string -> timestamp -> string)
  (fixtures_df : list Fixture) (odds_df : list OddsQuote) :
  let keyed := omap point_and_name (joined "totals" fixtures_df odds_df) in
  let no_over := is_nil (titled "Over" (pivot_names keyed)) in
  let no_under := is_nil (titled "Under" (pivot_names keyed)) in
  (forall e,
     build_totals_table strftime fixtures_df odds_df = Raised e <->
     keyed <> [] /\ (no_over || no_under = true) /\
     e = KeyError (if no_over
                   then if no_under then "['Over', 'Under'] not in index"
                        else "['Over'] not in index"
                   else "['Under'] not in index")) /\
  (no_over = true <-> forall k, In k keyed -> title k.1.2 <> py "Over") /\
  (no_under = true <-> forall k, In k keyed -> title k.1.2 <> py "Under") /\
  (keyed = [] \/ (no_over = false /\ no_under = false) ->
   exists rows, build_totals_table strftime fixtures_df odds_df = Returned rows).
Proof.
  intros keyed no_over no_under.
  assert (Hlabel : forall label,
            is_nil (titled label (pivot_names keyed)) = true <->
            forall k, In k keyed -> title k.1.2 <> py label).
  { intros label. split.
    - intros Hnil k Hk Ht.
      assert (Hin : In k.1.2 (titled label (pivot_names keyed)))
        by (apply titled_In; split; [exact Ht|now exists k]).
      destruct (titled label (pivot_names keyed)); [destruct Hin|discriminate].
    - intros Hall. destruct (titled label (pivot_names keyed)) as [|n ns] eqn:E; [reflexivity|].
      assert (Hin : In n (titled label (pivot_names keyed))) by (rewrite E; now left).
      apply titled_In in Hin as (Ht & k & Hk & <-). now destruct (Hall k Hk). }
  split; [intros e; apply build_totals_table_raises|].
  split; [apply Hlabel|]. split; [apply Hlabel|].
  intros H. destruct (build_totals_table strftime fixtures_df odds_df) as [rows|e] eqn:E;
    [now exists rows|].
  apply build_totals_table_raises in E as (Hk & Hc & _). fold keyed no_over no_under in Hk, Hc.
  destruct H as [H|[H1 H2]]; [now destruct Hk|]. rewrite H1, H2 in Hc. discriminate.
Qed.


Lemma list_filter_Forall {A} (f : A -> bool) (l : list A) :
  Forall (fun x => f x = true) (List.filter f l).
Proof. apply Forall_forall. intros x Hx. apply list_elem_of_In, filter_In in Hx. tauto. Qed.



(* ===================================================================== *)
(** * The key of a key *)
(* ===================================================================== *)

Section KeyOfKey.
Context `{U : Unicodedata}.

(** Words of a key: over [a-z0-9], not empty, none of the tokens. *)
Let good (ws : list pystr) : Prop := Forall (fun w => is_word w /\ w ∉ tokens) ws.

(** Text in which the word characters are those of [a-z0-9]. *)
Let plain (t : pystr) : Prop := Forall (fun c => isword c = is_az09 c) t.

Lemma nf_inside_word w rest :
  forallb is_az09 w = true -> nf NfWord (w ++ rest) = w ++ nf NfWord rest.
Proof.
  induction w as [|c w IH]; [reflexivity|]. intros H.
  apply andb_true_iff in H as [Hc Hw]. cbn [app nf]. rewrite Hc. f_equal. now apply IH.
Qed.

Lemma nf_word w rest :
  is_word w ->
  nf NfStart (w ++ rest) = w ++ nf NfWord rest /\
  nf NfGap (w ++ rest) = SP :: w ++ nf NfWord rest.
Proof.
  intros [Hne Hw]. destruct w as [|c w]; [now destruct Hne|].
  apply andb_true_iff in Hw as [Hc Hw]. cbn [app nf]. rewrite Hc.
  rewrite (nf_inside_word w rest Hw). split; reflexivity.
Qed.

Lemma isword_SP : isword SP = false.
Proof. now rewrite isword_ascii. Qed.

Lemma keys_of_plain n t :
  (length t <= n)%nat -> plain t ->
  exists ws, good ws /\
    nf NfStart (remove_whole_words [] t) = join_words ws /\
    nf NfGap (remove_whole_words [] t) = List.flat_map (cons SP) ws.
Proof.
  revert t. induction n as [|n IH]; intros t Hn Hp.
  { destruct t; [|simpl in Hn; lia]. exists []. split; [constructor|]. split; reflexivity. }
  destruct t as [|c r].
  { exists []. split; [constructor|]. split; reflexivity. }
  destruct (isword c) eqn:Hc.
  - pose proof (word_split (c :: r)) as Hs.
    pose proof (word_prefix_all (c :: r)) as Hw.
    pose proof (word_suffix_head (c :: r)) as Hr.
    cbn [word_prefix] in Hs, Hw. rewrite Hc in Hs, Hw.
    set (w := word_prefix r) in *. set (r0 := word_suffix (c :: r)) in *.
    assert (Hlen : (length r0 <= n)%nat).
    { apply (f_equal length) in Hs. rewrite length_app in Hs. simpl in Hs, Hn. lia. }
    assert (Hp0 : plain ((c :: w) ++ r0)) by (rewrite <- Hs; exact Hp).
    apply Forall_app in Hp0 as [Hpw Hpr].
    assert (Haz : forallb is_az09 (c :: w) = true).
    { apply forallb_forall. intros x Hx.
      assert (Hx1 : isword x = true) by (eapply forallb_forall in Hw; eauto).
      apply list_elem_of_In in Hx. rewrite Forall_forall in Hpw. now rewrite <- (Hpw x Hx). }
    rewrite Hs, (remove_whole_words_word (c :: w) r0 [] Hw). cbn [app].
    rewrite (remove_whole_words_end r0 (c :: w) Hr). unfold flush_word.
    destruct (decide ((c :: w) ∈ tokens)) as [Hin|Hin].
    + rewrite bool_decide_eq_true_2 by exact Hin. cbn [app]. now apply IH.
    + rewrite bool_decide_eq_false_2 by exact Hin.
      assert (Hword : is_word (c :: w)) by (split; [discriminate|exact Haz]).
      destruct (nf_word (c :: w) (remove_whole_words [] r0) Hword) as [E1 E2].
      rewrite E1, E2.
      assert (Hrest : exists ws, good ws /\
                nf NfWord (remove_whole_words [] r0) = List.flat_map (cons SP) ws).
      { destruct r0 as [|d r1]; [exists []; split; [constructor|reflexivity]|].
        cbn [head isword_opt] in Hr. cbn [remove_whole_words]. rewrite Hr, flush_word_nil.
        cbn [app nf]. rewrite (isword_false_az09 d Hr). cbn [nf_sep].
        inversion Hpr; subst.
        destruct (IH r1) as (ws & Hg & _ & E); [simpl in Hlen; lia|assumption|].
        now exists ws. }
      destruct Hrest as (ws & Hg & E). rewrite E.
      exists ((c :: w) :: ws). split; [constructor; auto|]. split; reflexivity.
  - cbn [remove_whole_words]. rewrite Hc, flush_word_nil. cbn [app nf].
    rewrite (isword_false_az09 c Hc). cbn [nf_sep].
    inversion Hp; subst. apply IH; [simpl in Hn; lia|assumption].
Qed.

Lemma good_words_isword w : is_word w -> forallb isword w = true.
Proof.
  intros [_ H]. apply forallb_forall. intros x Hx.
  apply is_az09_isword. eapply forallb_forall in H; eauto.
Qed.

Lemma remove_whole_words_key ws :
  good ws ->
  remove_whole_words [] (List.flat_map (cons SP) ws) = List.flat_map (cons SP) ws /\
  forall w, is_word w -> w ∉ tokens ->
    remove_whole_words [] (w ++ List.flat_map (cons SP) ws) = w ++ List.flat_map (cons SP) ws.
Proof.
  induction 1 as [|w0 ws [Hw0 Ht0] Hg [IH1 IH2]].
  - split; [reflexivity|]. intros w Hw Ht. rewrite app_nil_r.
    rewrite <- (app_nil_r w) at 1.
    rewrite (remove_whole_words_word w [] [] (good_words_isword w Hw)). cbn.
    unfold flush_word. now rewrite bool_decide_eq_false_2.
  - assert (E : remove_whole_words [] (List.flat_map (cons SP) (w0 :: ws))
                = List.flat_map (cons SP) (w0 :: ws)).
    { cbn [List.flat_map app remove_whole_words]. rewrite isword_SP, flush_word_nil.
      cbn [app]. f_equal. now apply IH2. }
    split; [exact E|]. intros w Hw Ht.
    rewrite (remove_whole_words_word w _ [] (good_words_isword w Hw)). cbn [app].
    rewrite remove_whole_words_end by (cbn; apply isword_SP).
    unfold flush_word. rewrite bool_decide_eq_false_2 by exact Ht. now rewrite E.
Qed.

Lemma nf_key ws :
  good ws ->
  nf NfWord (List.flat_map (cons SP) ws) = List.flat_map (cons SP) ws /\
  nf NfStart (join_words ws) = join_words ws.
Proof.
  induction 1 as [|w0 ws [Hw0 Ht0] Hg [IH1 IH2]]; [split; reflexivity|].
  assert (E : nf NfWord (List.flat_map (cons SP) (w0 :: ws))
              = List.flat_map (cons SP) (w0 :: ws)).
  { cbn [List.flat_map app nf]. change (is_az09 SP) with false. cbn [nf_sep].
    rewrite (proj2 (nf_word w0 _ Hw0)), IH1. reflexivity. }
  split; [exact E|]. cbn [join_words]. now rewrite (proj1 (nf_word w0 _ Hw0)), IH1.
Qed.

Lemma key_text ws :
  good ws ->
  forallb is_ascii (join_words ws) = true /\
  List.map ascii_lower (join_words ws) = join_words ws.
Proof.
  intros Hg.
  assert (Hall : Forall (fun c => is_az09 c = true \/ c = SP) (join_words ws)).
  { destruct Hg as [|w ws [[_ Hw] _] Hg]; [constructor|]. cbn [join_words].
    apply Forall_app. split.
    - apply Forall_forall. intros x Hx. left. apply list_elem_of_In in Hx.
      eapply forallb_forall in Hw; eauto.
    - induction Hg as [|w' ws' [[_ Hw'] _] Hg IH]; [constructor|].
      cbn [List.flat_map app]. constructor; [now right|]. apply Forall_app. split; [|exact IH].
      apply Forall_forall. intros x Hx. left. apply list_elem_of_In in Hx.
      eapply forallb_forall in Hw'; eauto. }
  induction Hall as [|c r Hc _ [IH1 IH2]]; [split; reflexivity|].
  cbn [forallb List.map]. rewrite IH1, IH2, andb_true_r.
  destruct Hc as [Hc| ->]; [|split; reflexivity].
  split; [now apply is_az09_ascii_word|].
  f_equal. unfold ascii_lower. unfold is_az09, is_az, is_digit, is_AZ in *.
  destruct (N.leb_spec 65 c), (N.leb_spec c 90); cbn [andb]; try reflexivity.
  exfalso. destruct (N.leb_spec 97 c), (N.leb_spec c 122), (N.leb_spec 48 c), (N.leb_spec c 57);
    cbn in Hc; try discriminate; lia.
Qed.

(** The key of a key whose words are no tokens is the key. *)
Lemma normalize_key ws :
  good ws -> _normalize_team_name (Some (join_words ws)) = join_words ws.
Proof.
  intros Hg. destruct (join_words ws) as [|c s] eqn:E; [reflexivity|].
  rewrite normalize_nf. rewrite <- E. destruct (key_text ws Hg) as [Ha Hl].
  rewrite (nfkd_ascii _ Ha), (strip_marks_ascii _ Ha), (lower_ascii _ Ha), Hl.
  destruct ws as [|w ws']; [discriminate|]. cbn [join_words].
  inversion Hg as [|? ? [Hw Ht] Hg']; subst.
  rewrite (proj2 (remove_whole_words_key ws' Hg') w Hw Ht).
  apply (proj2 (nf_key (w :: ws') Hg)).
Qed.

(** The key of an ASCII name without underscore. *)
Lemma normalize_plain_name s :
  forallb (fun c => is_ascii c && negb (c =? 95)) s = true ->
  exists ws, good ws /\ _normalize_team_name (Some s) = join_words ws.
Proof.
  intros Hs. destruct s as [|c s]; [exists []; split; [constructor|reflexivity]|].
  assert (Ha : forallb is_ascii (c :: s) = true).
  { apply forallb_forall. intros x Hx. eapply forallb_forall in Hs; eauto.
    now apply andb_true_iff in Hs as [Hs _]. }
  rewrite normalize_nf, (nfkd_ascii _ Ha), (strip_marks_ascii _ Ha), (lower_ascii _ Ha).
  destruct (keys_of_plain (length (List.map ascii_lower (c :: s)))
              (List.map ascii_lower (c :: s)) (Nat.le_refl _)) as (ws & Hg & E & _).
  - apply Forall_forall. intros x Hx. apply list_elem_of_In, in_map_iff in Hx as (y & <- & Hy).
    eapply forallb_forall in Hs; eauto. apply andb_true_iff in Hs as [Hy1 Hy2].
    assert (Hl : is_ascii (ascii_lower y) = true).
    { assert (H := ascii_lower_ascii [y]). cbn in H. rewrite Hy1 in H.
      specialize (H eq_refl). now rewrite andb_true_r in H. }
    rewrite (isword_ascii _ Hl). unfold ascii_word, is_az09.
    apply negb_true_iff, N.eqb_neq in Hy2.
    unfold ascii_lower, is_AZ, is_az, is_digit in *. unfold is_ascii in Hy1.
    apply N.ltb_lt in Hy1.
    destruct (N.leb_spec 65 y), (N.leb_spec y 90); cbn [andb];
      repeat match goal with
             | |- context [N.leb ?a ?b] => destruct (N.leb_spec a b)
             | |- context [N.eqb ?a ?b] => destruct (N.eqb_spec a b)
             end; cbn; try reflexivity; lia.
  - now exists ws.
Qed.

End KeyOfKey.

(** X14. Normalising a key again changes nothing, for names of ASCII
    characters without underscore: the key of such a name is made of words
    over [a-z0-9] none of which is one of the tokens fc, cf, ac, club and
    the, and the key of such a key is the key itself. *)
Theorem normalize_team_name_idempotent `{U : Unicodedata} (s : pystr) :
  forallb (fun c => is_ascii c && negb (c =? 95)) s = true ->
  _normalize_team_name (Some (_normalize_team_name (Some s)))
  = _normalize_team_name (Some s).
Proof.
  intros Hs. destruct (normalize_plain_name s Hs) as (ws & Hg & E).
  change (_normalize_team_name (Some s) = join_words ws) in E.
  rewrite E. now apply normalize_key.
Qed.

Lemma normalize_team_name_idempotent_on_club_name :
  forallb (fun c => is_ascii c && negb (c =? 95)) (py "Club Brugge KV") = true /\
  @_normalize_team_name Latin1Laws.latin1_db
    (Some (@_normalize_team_name Latin1Laws.latin1_db (Some (py "Club Brugge KV"))))
  = @_normalize_team_name Latin1Laws.latin1_db (Some (py "Club Brugge KV")).
Proof.
  split; [reflexivity|].
  apply (@normalize_team_name_idempotent Latin1Laws.latin1_db (py "Club Brugge KV")).
  reflexivity.
Defined.

(** The underscore is a word character of the token pattern and a
    separator of the second pattern: the key of "the_fc" is "the fc", whose
    own key is empty. *)
Lemma normalize_team_name_underscore `{U : Unicodedata} :
  _normalize_team_name (Some (py "the_fc")) = py "the fc" /\
  _normalize_team_name (Some (py "the fc")) = [].
Proof.
  split; rewrite (normalize_ascii U Latin1Laws.latin1_db) by reflexivity; reflexivity.
Qed.
(* ===================================================================== *)
(** * The date windows of the football-data client *)
(* ===================================================================== *)

Module FootballDataFacts.
Import FootballDataApi.
Local Open Scope Z_scope.

Lemma timedelta_small (n : Z) : Z.abs n <= 999999999 -> timedelta n = Some n.
Proof. intros H. unfold timedelta. now rewrite (proj2 (Z.leb_le _ _) H). Qed.

Lemma date_add_in_range (d delta : Z) :
  date_min <= d + delta <= date_max -> date_add d delta = Some (d + delta).
Proof.
  intros [H1 H2]. unfold date_add.
  now rewrite (proj2 (Z.leb_le _ _) H1), (proj2 (Z.leb_le _ _) H2).
Qed.

Lemma date_add_out_of_range (d delta : Z) :
  date_max < d + delta -> date_add d delta = None.
Proof.
  intros H. unfold date_add.
  rewrite (proj2 (Z.leb_gt _ _) H). now rewrite andb_false_r.
Qed.

(** The windows of a loop that meets no end of the calendar. *)
Lemma chunk_loop_windows (fuel : nat) (w current end_ : Z) :
  1 <= w -> date_min <= current -> current <= end_ + 1 -> end_ + w <= date_max ->
  (Z.to_nat (end_ - current + 1) <= fuel)%nat ->
  exists chunks,
    chunk_loop fuel w current end_ = (chunks, StopIteration) /\
    concat (days_of <$> chunks) = seqZ current (end_ - current + 1) /\
    Forall (fun c => c.1 <= c.2 < c.1 + w) chunks /\
    length chunks = Z.to_nat ((end_ - current + w) / w) /\
    (forall i c, chunks !! i = Some c -> (S i < length chunks)%nat -> c.2 = c.1 + w - 1).
Proof.
  revert current. induction fuel as [|fuel IH]; intros current Hw Hlo Hle Hhi Hfuel.
  - assert (current = end_ + 1) as -> by lia.
    exists []. cbn [chunk_loop]. rewrite (proj2 (Z.leb_gt _ _)) by lia.
    repeat split; [now rewrite seqZ_nil by lia|constructor| |intros i c H; discriminate].
    cbn. rewrite Z.div_small by lia. reflexivity.
  - cbn [chunk_loop]. destruct (Z.leb_spec current end_) as [Hin|Hout].
    + unfold date_min, date_max in *.
      rewrite timedelta_small by lia. cbn [mbind option_bind].
      rewrite date_add_in_range by (unfold date_min, date_max; lia).
      rewrite timedelta_small by lia. cbn [mbind option_bind].
      set (chunk_end := Z.min (current + (w - 1)) end_).
      rewrite date_add_in_range by (unfold date_min, date_max; lia).
      destruct (IH (chunk_end + 1)) as (rest & E & Hdays & Hsize & Hlen & Hfull);
        [lia|lia|lia|lia|lia|].
      rewrite E. cbn [fst snd]. exists ((current, chunk_end) :: rest).
      split; [reflexivity|]. split; [|split; [|split]].
      * cbn [fmap list_fmap concat]. rewrite Hdays. unfold days_of. cbn [fst snd].
        replace (end_ - current + 1)
          with ((chunk_end - current + 1) + (end_ - (chunk_end + 1) + 1)) by lia.
        rewrite (seqZ_app current (chunk_end - current + 1) (end_ - (chunk_end + 1) + 1)) by lia.
        do 2 f_equal; lia.
      * constructor; [cbn; lia|exact Hsize].
      * cbn [length]. rewrite Hlen.
        destruct (Z.le_gt_cases (current + (w - 1)) end_) as [Hfullw|Hlast].
        -- replace (end_ - (chunk_end + 1) + w) with (end_ - current) by lia.
           replace (end_ - current + w) with ((end_ - current) + 1 * w) by lia.
           rewrite Z.div_add by lia.
           assert (0 <= (end_ - current) / w) by (apply Z.div_pos; lia). lia.
        -- replace (end_ - (chunk_end + 1) + w) with (w - 1) by lia.
           rewrite (Z.div_small (w - 1)) by lia.
           replace (end_ - current + w) with ((end_ - current) + 1 * w) by lia.
           rewrite Z.div_add by lia. rewrite (Z.div_small (end_ - current)) by lia.
           reflexivity.
      * intros [|i] c Hc Hi.
        -- injection Hc as <-. cbn [fst snd]. cbn [length] in Hi.
           destruct rest as [|c' rest']; [cbn in Hi; lia|].
           destruct (Z.le_gt_cases (current + (w - 1)) end_) as [Hfullw|Hlast]; [lia|].
           exfalso. cbn [length] in Hlen.
           replace (end_ - (chunk_end + 1) + w) with (w - 1) in Hlen by lia.
           rewrite (Z.div_small (w - 1)) in Hlen by lia. discriminate.
        -- cbn in Hc. apply (Hfull i c Hc). cbn [length] in Hi. lia.
    + assert (current = end_ + 1) as -> by lia.
      exists [].
      repeat split; [now rewrite seqZ_nil by lia|constructor| |intros i c H; discriminate].
      cbn. rewrite Z.div_small by lia. reflexivity.
Qed.

(** The fuel given is enough, whatever the inputs. *)
Lemma chunk_loop_ends (fuel : nat) (w current end_ : Z) :
  1 <= w -> (Z.to_nat (end_ - current + 1) <= fuel)%nat ->
  (chunk_loop fuel w current end_).2 <> Unfinished.
Proof.
  revert current. induction fuel as [|fuel IH]; intros current Hw Hfuel.
  - cbn [chunk_loop]. rewrite (proj2 (Z.leb_gt _ _)) by lia. discriminate.
  - cbn [chunk_loop]. destruct (Z.leb_spec current end_) as [Hin|Hout]; [|discriminate].
    destruct (timedelta (w - 1)) as [delta|] eqn:Ed; cbn [mbind option_bind]; [|discriminate].
    assert (delta = w - 1) as ->.
    { unfold timedelta in Ed. destruct (Z.abs (w - 1) <=? 999999999); congruence. }
    destruct (date_add current (w - 1)) as [reach|] eqn:Er; [|discriminate].
    assert (reach = current + (w - 1)) as ->.
    { unfold date_add in Er. destruct (_ && _); congruence. }
    destruct (timedelta 1) as [one|] eqn:E1; cbn [mbind option_bind]; [|discriminate].
    assert (one = 1) as -> by (vm_compute in E1; congruence).
    destruct (date_add _ 1) as [next|] eqn:En; [|discriminate].
    assert (next = Z.min (current + (w - 1)) end_ + 1) as ->.
    { unfold date_add in En. destruct (_ && _); congruence. }
    cbn [snd]. apply IH; lia.
Qed.

Lemma chunk_date_range_sorted (start end_ w : Z) :
  _chunk_date_range start end_ w
  = if w <? 1 then ([], Raises (ValueError "window_days must be >= 1"))
    else chunk_loop (Z.to_nat (Z.max start end_ - Z.min start end_ + 1)) w
           (Z.min start end_) (Z.max start end_).
Proof.
  unfold _chunk_date_range. destruct (w <? 1); [reflexivity|].
  destruct (Z.ltb_spec end_ start).
  - now rewrite Z.min_r, Z.max_l by lia.
  - now rewrite Z.min_l, Z.max_r by lia.
Qed.


End FootballDataFacts.

(** X15. The windows of [_chunk_date_range] partition the range: for two
    dates, in either order, and a window of at least one day that reaches
    no further than [date.max], the iteration ends normally; the days of the
    windows yielded, in order, are the days from the earlier date to the
    later one, each once; every window has between one and [window_days]
    days and every window but the last has [window_days] days; there are
    ceil(days / window_days) windows. *)
Theorem chunk_date_range_partitions (start end_ window_days : Z) :
  FootballDataApi.is_date start -> FootballDataApi.is_date end_ ->
  (1 <= window_days)%Z ->
  (Z.max start end_ + window_days <= FootballDataApi.date_max)%Z ->
  exists chunks,
    FootballDataApi._chunk_date_range start end_ window_days = (chunks, StopIteration) /\
    concat (FootballDataApi.days_of <$> chunks)
      = seqZ (Z.min start end_) (Z.abs (end_ - start) + 1) /\
    Forall (fun c => c.1 <= c.2 < c.1 + window_days)%Z chunks /\
    length chunks = Z.to_nat ((Z.abs (end_ - start) + window_days) / window_days) /\
    (forall i c, chunks !! i = Some c -> (S i < length chunks)%nat ->
                 c.2 = (c.1 + window_days - 1)%Z).
Proof.
  intros [Hs1 Hs2] [He1 He2] Hw Hhi.
  unfold FootballDataApi.date_min, FootballDataApi.date_max in *.
  rewrite FootballDataFacts.chunk_date_range_sorted.
  rewrite (proj2 (Z.ltb_ge _ _)) by lia.
  replace (Z.abs (end_ - start)) with (Z.max start end_ - Z.min start end_)%Z by lia.
  apply FootballDataFacts.chunk_loop_windows;
    unfold FootballDataApi.date_min, FootballDataApi.date_max; lia.
Qed.

Lemma chunk_date_range_partitions_thirty_days :
  exists chunks,
    FootballDataApi._chunk_date_range 739495%Z 739524%Z 7%Z = (chunks, StopIteration) /\
    concat (FootballDataApi.days_of <$> chunks) = seqZ 739495%Z 30%Z /\
    Forall (fun c => c.1 <= c.2 < c.1 + 7)%Z chunks /\
    length chunks = 5%nat /\
    (forall i c, chunks !! i = Some c -> (S i < length chunks)%nat -> c.2 = (c.1 + 7 - 1)%Z).
Proof.
  apply (chunk_date_range_partitions 739495%Z 739524%Z 7%Z);
    unfold FootballDataApi.is_date, FootballDataApi.date_min, FootballDataApi.date_max; lia.
Defined.

(** X16. [_chunk_date_range] at its edges: the iteration always ends; the
    order of the two dates does not matter; a window of less than one day
    raises ValueError before anything is yielded; and a window so long that
    the first one would reach beyond [date.max] raises OverflowError before
    anything is yielded, although the range itself is short. *)
Theorem chunk_date_range_edges (start end_ window_days : Z) :
  let r := FootballDataApi._chunk_date_range start end_ window_days in
  r.2 <> Unfinished /\
  r = FootballDataApi._chunk_date_range end_ start window_days /\
  ((window_days < 1)%Z ->
     r = ([], Raises (FootballDataApi.ValueError "window_days must be >= 1"))) /\
  ((1 <= window_days)%Z ->
   (FootballDataApi.date_max < Z.min start end_ + (window_days - 1))%Z ->
     r = ([], Raises FootballDataApi.OverflowError)).
Proof.
  cbv zeta. rewrite !FootballDataFacts.chunk_date_range_sorted.
  split; [|split; [|split]].
  - destruct (Z.ltb_spec window_days 1); [discriminate|].
    apply FootballDataFacts.chunk_loop_ends; lia.
  - now rewrite (Z.min_comm end_ start), (Z.max_comm end_ start).
  - intros H. now rewrite (proj2 (Z.ltb_lt _ _) H).
  - intros Hw Hover. rewrite (proj2 (Z.ltb_ge _ _)) by lia.
    destruct (Z.to_nat _) as [|fuel] eqn:Ef; [lia|].
    cbn [FootballDataApi.chunk_loop]. rewrite (proj2 (Z.leb_le _ _)) by lia.
    destruct (FootballDataApi.timedelta (window_days - 1)) as [delta|] eqn:Ed;
      cbn [mbind option_bind]; [|reflexivity].
    assert (delta = window_days - 1)%Z as ->.
    { unfold FootballDataApi.timedelta in Ed.
      destruct (Z.abs (window_days - 1) <=? 999999999)%Z; congruence. }
    now rewrite FootballDataFacts.date_add_out_of_range.
Qed.

(* ===================================================================== *)
(** * The matches feed *)
(* ===================================================================== *)

Module FeedFacts.
Import FootballDataApi.
Local Open Scope Z_scope.

Lemma gets_app tr tr' : gets (tr ++ tr') = gets tr ++ gets tr'.
Proof. apply omap_app. Qed.

Lemma sleeps_app tr tr' : sleeps (tr ++ tr') = sleeps tr ++ sleeps tr'.
Proof. apply omap_app. Qed.

Lemma length_gets tr : length (List.filter is_get tr) = length (gets tr).
Proof.
  induction tr as [|ev tr IH]; [reflexivity|].
  destruct ev; cbn; try rewrite IH; reflexivity.
Qed.

Section Feed.

Variable Match : Type.
Variable settings : Settings.
Variable isoformat : date -> string.
Variable net : nat -> string -> gmap string string -> gmap string string -> HttpOutcome Match.
Variable clock : list Event -> Z.
Variable utcnow : datetime.

(** The request of a window. *)
Definition request (competitions : option (list string)) (chunk : date * date)
    : string * gmap string string * gmap string string :=
  (matches_url settings, _headers settings, chunk_params isoformat competitions chunk).

(** The status of an answer, when there is one. *)
Definition status_of (o : HttpOutcome Match) : option Z :=
  match o with Responded r => Some (status_code r) | Failed _ => None end.

(** The matches of an answer. *)
Definition matches_of (o : HttpOutcome Match) : list Match :=
  match o with
  | Responded r => match json r with JsonObject ms => ms | _ => [] end
  | Failed _ => []
  end.

(** An answer that is no error and carries an object. *)
Definition answers (o : HttpOutcome Match) : Prop :=
  exists r ms, o = Responded r /\ ~ (400 <= status_code r < 600) /\ json r = JsonObject ms.

Local Ltac shape :=
  split; [reflexivity|]; split; [discriminate|]; split; [reflexivity|]; split; [reflexivity|].

Lemma requests_get_run u p tr :
  requests_get Match settings net u p tr
  = (match net (length (gets tr)) u (_headers settings) p with
     | Responded r => Returns r
     | Failed str_exc => Throws (RequestException str_exc)
     end, tr ++ [Get u (_headers settings) p]).
Proof.
  unfold requests_get. rewrite length_gets.
  now destruct (net (length (gets tr)) u (_headers settings) p).
Qed.

(** One window: one request, or two around a pause of 60 seconds when the
    first answer is a 429. *)
Lemma fetch_chunk_events competitions chunk tr :
  exists out evs,
    fetch_chunk Match settings isoformat net clock competitions chunk tr = (out, tr ++ evs) /\
    out <> OutOfFuel /\
    let first := net (length (gets tr)) (matches_url settings) (_headers settings)
                   (chunk_params isoformat competitions chunk) in
    if bool_decide (status_of first = Some 429) then
      gets evs = [request competitions chunk; request competitions chunk] /\
      sleeps evs = [60] /\
      (status_of (net (S (length (gets tr))) (matches_url settings) (_headers settings)
                    (chunk_params isoformat competitions chunk)) = Some 429 ->
       out = Throws (HTTPError 429) /\
       evs = [Get (matches_url settings) (_headers settings)
                (chunk_params isoformat competitions chunk);
              Sleep 60;
              Get (matches_url settings) (_headers settings)
                (chunk_params isoformat competitions chunk)])
    else
      gets evs = [request competitions chunk] /\ sleeps evs = [] /\
      (answers first ->
       exists frame, out = Returns frame /\
         row_match <$> default [] frame = matches_of first /\
         Forall (fun r => source r = "football-data.org") (default [] frame)).
Proof.
  unfold FootballDataApi.fetch_chunk, request.
  set (p := chunk_params isoformat competitions chunk).
  set (u := matches_url settings). set (h := _headers settings).
  unfold bind at 1. rewrite requests_get_run. fold u h.
  destruct (net (length (gets tr)) u h p) as [r|exc] eqn:E1.
  2:{ exists (Throws (RequestException exc)), [Get u h p].
      cbn [status_of]. rewrite bool_decide_eq_false_2 by discriminate.
      repeat split; try discriminate. intros (r & ms & H & _); discriminate. }
  cbn [status_of]. destruct (Z.eqb_spec (status_code r) 429) as [H429|H429].
  - rewrite bool_decide_eq_true_2 by (now f_equal).
    set (twice := [Get u h p; Sleep 60; Get u h p]).
    unfold bind at 1. unfold bind at 1. unfold sleep at 1. rewrite requests_get_run. fold u h.
    replace (length (gets ((tr ++ [Get u h p]) ++ [Sleep 60])))
      with (S (length (gets tr))) by (rewrite !gets_app, !length_app; cbn; lia).
    rewrite <- !app_assoc. cbn [app].
    destruct (net (S (length (gets tr))) u h p) as [r2|exc] eqn:E2.
    2:{ exists (Throws (RequestException exc)), twice.
        shape. discriminate. }
    cbn [status_of].
    destruct ((400 <=? status_code r2) && (status_code r2 <? 600)) eqn:Es.
    { exists (Throws (HTTPError (status_code r2))), twice.
      shape. intros [= Hst]. rewrite Hst. split; reflexivity. }
    assert (Hno : status_code r2 <> 429) by (intros H; rewrite H in Es; discriminate).
    destruct (json r2) as [[|m ms]| |] eqn:Ej.
    + exists (Returns None), twice.
      shape. intros [= Hst]. contradiction.
    + unfold bind, timestamp_utcnow, ret. rewrite <- !app_assoc. cbn [app].
      eexists (Returns (Some _)), (twice ++ [Now]).
      shape. intros [= Hst]. contradiction.
    + exists (Throws AttributeError), twice.
      shape. intros [= Hst]. contradiction.
    + exists (Throws JSONDecodeError), twice.
      shape. intros [= Hst]. contradiction.
  - rewrite bool_decide_eq_false_2 by (intros [= H]; contradiction).
    unfold bind at 1. unfold ret at 1.
    destruct ((400 <=? status_code r) && (status_code r <? 600)) eqn:Es.
    { exists (Throws (HTTPError (status_code r))), [Get u h p].
      repeat split; try discriminate.
      intros (r' & ms & [= <-] & Hst & _). exfalso. apply Hst.
      apply andb_true_iff in Es as [H1 H2]. apply Z.leb_le in H1. apply Z.ltb_lt in H2. lia. }
    destruct (json r) as [[|m ms]| |] eqn:Ej.
    + exists (Returns None), [Get u h p]. repeat split; try discriminate.
      intros _. exists None. cbn [matches_of]. rewrite Ej. repeat split. constructor.
    + unfold bind, timestamp_utcnow, ret. rewrite <- !app_assoc. cbn [app].
      eexists (Returns (Some _)), [Get u h p; Now].
      repeat split; try discriminate.
      intros _. eexists. split; [reflexivity|]. cbn [matches_of]. rewrite Ej. cbn [default]. split.
      * generalize (m :: ms). intros l.
        induction l as [|x l IH]; [reflexivity|]. cbn in *. now f_equal.
      * generalize (m :: ms). intros l.
        induction l as [|x l IH]; constructor; auto.
    + exists (Throws AttributeError), [Get u h p]. repeat split; try discriminate.
      intros (r' & ms & [= <-] & _ & Hj). congruence.
    + exists (Throws JSONDecodeError), [Get u h p]. repeat split; try discriminate.
      intros (r' & ms & [= <-] & _ & Hj). congruence.
Qed.

(** The requests and pauses of a run of the loop: [ks] holds, for each
    window reached, the number of requests sent for it. *)
Lemma fetch_chunks_budget competitions chunks all_frames tr :
  exists out evs ks,
    fetch_chunks Match settings isoformat net clock competitions chunks all_frames tr
    = (out, tr ++ evs) /\
    out <> OutOfFuel /\
    Forall (fun k => k = 1%nat \/ k = 2%nat) ks /\
    (length ks <= length chunks)%nat /\
    gets evs = concat (zip_with (fun k c => replicate k (request competitions c)) ks chunks) /\
    sleeps evs = List.flat_map (fun k => replicate (k - 1) 60) ks.
Proof.
  revert all_frames tr. induction chunks as [|c chunks IH]; intros all_frames tr.
  - exists (Returns all_frames), [], []. rewrite app_nil_r.
    repeat split; try discriminate; auto.
  - cbn [FootballDataApi.fetch_chunks]. unfold bind at 1.
    destruct (fetch_chunk_events competitions c tr) as (out & evs & E & Hout & Hev).
    rewrite E. cbv zeta in Hev.
    assert (Hk : exists k, (k = 1%nat \/ k = 2%nat) /\
                   gets evs = replicate k (request competitions c) /\
                   sleeps evs = replicate (k - 1) 60).
    { destruct (bool_decide _); destruct Hev as (Hg & Hs & _);
        [exists 2%nat|exists 1%nat]; rewrite Hg, Hs; auto. }
    destruct Hk as (k & Hk & Hg & Hs).
    destruct out as [frame| e |]; [|clear IH|contradiction].
    +       destruct (IH (match frame with None => all_frames | Some df => all_frames ++ [df] end)
                  (tr ++ evs)) as (out' & evs' & ks & E' & Hout' & Hks & Hlen & Hg' & Hs').
      rewrite E'. exists out', (evs ++ evs'), (k :: ks). rewrite app_assoc.
      split; [reflexivity|]. split; [exact Hout'|]. split; [constructor; auto|].
      split; [cbn; lia|]. rewrite gets_app, sleeps_app, Hg, Hs, Hg', Hs'. split; reflexivity.
    + exists (Throws e), evs, [k]. split; [reflexivity|]. split; [discriminate|].
      split; [constructor; auto|]. split; [cbn; lia|].
      rewrite Hg, Hs. cbn. rewrite !app_nil_r. destruct chunks; split; reflexivity.
Qed.



(** [fetch_matches_since] from the end date on. *)
Lemma fetch_matches_since_from competitions since until end_date tr :
  match until with
  | Some u => end_date = the_date u
  | None => end_date = the_date utcnow + 1 /\ end_date <= date_max /\ date_min <= end_date
  end ->
  fetch_matches_since Match settings isoformat net clock utcnow since competitions until tr
  = let windows := _chunk_date_range (the_date since) end_date MAX_WINDOW_DAYS in
    match fetch_chunks Match settings isoformat net clock competitions windows.1 [] tr with
    | (Returns all_frames, tr') =>
        match windows.2 with
        | Raises e => (Throws e, tr')
        | Unfinished => (OutOfFuel, tr')
        | StopIteration => (Returns (concat all_frames), tr')
        end
    | (Throws e, tr') => (Throws e, tr')
    | (OutOfFuel, tr') => (OutOfFuel, tr')
    end.
Proof.
  intros Hend. unfold fetch_matches_since. unfold bind at 1.
  assert (E : match until with
              | Some u => ret (the_date u)
              | None =>
                  match delta ← timedelta 1; date_add (the_date utcnow) delta with
                  | Some d => ret d
                  | None => raise OverflowError
                  end
              end tr = (Returns end_date, tr)).
  { destruct until as [u|]; [now rewrite Hend|]. destruct Hend as (-> & H1 & H2).
    change (timedelta 1) with (Some 1). cbn [mbind option_bind].
    now rewrite FootballDataFacts.date_add_in_range by lia. }
  rewrite E. cbv zeta. unfold bind at 1.
  destruct (fetch_chunks Match settings isoformat net clock competitions _ [] tr)
    as [[frames|e|] tr']; try reflexivity.
  now destruct (_chunk_date_range _ _ _).2.
Qed.

End Feed.
End FeedFacts.



(** X18. Whatever the feed answers, [fetch_matches_since] sends at most
    two requests for a window and none for a window it has passed: the
    requests are those of a first part of the windows, in order, each once or
    twice, and the pauses are of 60 seconds, one for each window requested
    twice. *)
Theorem fetch_matches_since_request_budget (Match : Type)
  (settings : FootballDataApi.Settings) (isoformat : Z -> string)
  (net : nat -> string -> gmap string string -> gmap string string
         -> FootballDataApi.HttpOutcome Match)
  (clock : list FootballDataApi.Event -> Z) (utcnow since : FootballDataApi.datetime)
  (competitions : option (list string)) (until : option FootballDataApi.datetime) :
  let end_date := match until with
                  | Some u => FootballDataApi.the_date u
                  | None => (FootballDataApi.the_date utcnow + 1)%Z
                  end in
  let windows := (FootballDataApi._chunk_date_range (FootballDataApi.the_date since)
                    end_date FootballDataApi.MAX_WINDOW_DAYS).1 in
  let request c := (FootballDataApi.matches_url settings,
                    FootballDataApi._headers settings,
                    FootballDataApi.chunk_params isoformat competitions c) in
  let run := FootballDataApi.fetch_matches_since Match settings isoformat net clock utcnow
               since competitions until [] in
  exists ks,
    Forall (fun k => k = 1%nat \/ k = 2%nat) ks /\
    (length ks <= length windows)%nat /\
    FootballDataApi.gets run.2
    = concat (zip_with (fun k c => replicate k (request c)) ks windows) /\
    FootballDataApi.sleeps run.2 = List.flat_map (fun k => replicate (k - 1) 60%Z) ks /\
    (length (FootballDataApi.gets run.2) <= 2 * length windows)%nat.
Proof.
  intros end_date windows request run.
  assert (Hcount : forall ks (ws : list (Z * Z)),
            Forall (fun k => k = 1%nat \/ k = 2%nat) ks -> (length ks <= length ws)%nat ->
            (length (concat (zip_with (fun k c => replicate k (request c)) ks ws))
             <= 2 * length ws)%nat).
  { induction ks as [|k ks IH]; intros ws Hks Hlen; [cbn; lia|].
    destruct ws as [|c ws]; [cbn in Hlen; lia|]. inversion Hks; subst.
    cbn [zip_with concat length]. rewrite length_app, length_replicate.
    specialize (IH ws ltac:(assumption) ltac:(cbn in Hlen; lia)). lia. }
  assert (Hrun : (exists ks,
            Forall (fun k => k = 1%nat \/ k = 2%nat) ks /\
            (length ks <= length windows)%nat /\
            FootballDataApi.gets run.2
              = concat (zip_with (fun k c => replicate k (request c)) ks windows) /\
            FootballDataApi.sleeps run.2 = List.flat_map (fun k => replicate (k - 1) 60%Z) ks)).
  { assert (Hcase : (match until with
                     | Some u => end_date = FootballDataApi.the_date u
                     | None => end_date = (FootballDataApi.the_date utcnow + 1)%Z /\
                               (end_date <= FootballDataApi.date_max)%Z /\
                               (FootballDataApi.date_min <= end_date)%Z
                     end) \/ run = (Throws FootballDataApi.OverflowError, [])).
    { subst end_date run. destruct until as [u|]; [now left|].
      destruct (FootballDataApi.date_add (FootballDataApi.the_date utcnow) 1) as [d|] eqn:Ed.
      - left. unfold FootballDataApi.date_add in Ed.
        destruct (_ && _) eqn:Eb; [|discriminate].
        apply andb_true_iff in Eb as [H1 H2]. apply Z.leb_le in H1, H2. auto.
      - right. unfold FootballDataApi.fetch_matches_since, FootballDataApi.bind.
        change (FootballDataApi.timedelta 1) with (Some 1%Z). cbn [mbind option_bind].
        now rewrite Ed. }
    destruct Hcase as [Hend| ->].
    2:{ exists []. repeat split; [constructor|cbn; lia]. }
    subst run.
    rewrite (FeedFacts.fetch_matches_since_from Match settings isoformat net clock utcnow
               competitions since until end_date [] Hend).
    cbv zeta. fold windows.
    destruct (FeedFacts.fetch_chunks_budget Match settings isoformat net clock competitions
                windows [] []) as (out & evs & ks & E & _ & Hks & Hlen & Hg & Hs).
    rewrite E. cbn [app]. exists ks.
    assert (Htr : forall A (o : Outcome FootballDataApi.Exn A),
              (let (o0, tr') := (out, evs) in
               match o0 with
               | Returns all_frames =>
                   match (FootballDataApi._chunk_date_range (FootballDataApi.the_date since)
                            end_date FootballDataApi.MAX_WINDOW_DAYS).2 with
                   | StopIteration => (Returns (concat all_frames), tr')
                   | Raises e => (Throws e, tr')
                   | Unfinished => (OutOfFuel, tr')
                   end
               | Throws e => (Throws e, tr')
               | OutOfFuel => (OutOfFuel, tr')
               end).2 = evs).
    { intros _ _. destruct out; [|reflexivity|reflexivity].
      now destruct (FootballDataApi._chunk_date_range _ _ _).2. }
    rewrite (Htr unit OutOfFuel). auto. }
  destruct Hrun as (ks & Hks & Hlen & Hg & Hs). exists ks.
  split; [exact Hks|]. split; [exact Hlen|]. split; [exact Hg|]. split; [exact Hs|].
  rewrite Hg. now apply Hcount.
Qed.



(* ===================================================================== *)
(** * The ingestion watermarks *)
(* ===================================================================== *)

Module IdempotencyFacts.
Import Idempotency.

Lemma get_value_after_set source entity key lsa hw now db column s e k :
  (_get_value s e k column (set_watermarks source entity key lsa hw now db)).1
  = if bool_decide ((s, e, k) = (source, entity, key)) then
      match column with
      | col_last_success_at => coalesce lsa (_get_value s e k column db).1
      | col_high_watermark => coalesce hw (_get_value s e k column db).1
      end
    else (_get_value s e k column db).1.
Proof.
  unfold _get_value, set_watermarks, _ensure_table, Warehouse, Table in *.
  unfold default, from_option, id.
  cbn [fst]. set (t := match db with Some t => t | None => ∅ end).
  destruct (decide ((s, e, k) = (source, entity, key))) as [->|Hne].
  - rewrite bool_decide_eq_true_2 by reflexivity. rewrite lookup_insert_eq.
    destruct (t !! (source, entity, key)) as [old|]; destruct column; cbn;
      try reflexivity; now destruct lsa, hw.
  - rewrite bool_decide_eq_false_2 by exact Hne. now rewrite lookup_insert_ne.
Qed.

End IdempotencyFacts.

(** X20. A watermark written is the watermark read: after
    [set_high_watermark] with a value, [get_high_watermark] of the same
    key gives that value whatever the default and whatever was stored; the
    last success of that key and both values of every other key read as
    before. *)
Theorem high_watermark_round_trip (source entity key : string) (value now : Z)
  (db : Idempotency.Warehouse) :
  let db' := Idempotency.set_high_watermark source entity key (Some value) now db in
  (forall default, (Idempotency.get_high_watermark source entity key default db').1 = value) /\
  (forall default,
     (Idempotency.get_last_success_at source entity key default db').1
     = (Idempotency.get_last_success_at source entity key default db).1) /\
  (forall s e k default, (s, e, k) <> (source, entity, key) ->
     (Idempotency.get_high_watermark s e k default db').1
     = (Idempotency.get_high_watermark s e k default db).1 /\
     (Idempotency.get_last_success_at s e k default db').1
     = (Idempotency.get_last_success_at s e k default db).1).
Proof.
  cbv zeta. unfold Idempotency.set_high_watermark.
  assert (Hhw : forall s e k default d,
            (Idempotency.get_high_watermark s e k default d).1
            = match (Idempotency._get_value s e k Idempotency.col_high_watermark d).1 with
              | Some v => v | None => Idempotency.or_epoch default end).
  { intros. unfold Idempotency.get_high_watermark.
    now destruct (Idempotency._get_value _ _ _ _ _). }
  assert (Hls : forall s e k default d,
            (Idempotency.get_last_success_at s e k default d).1
            = match (Idempotency._get_value s e k Idempotency.col_last_success_at d).1 with
              | Some v => v | None => Idempotency.or_epoch default end).
  { intros. unfold Idempotency.get_last_success_at.
    now destruct (Idempotency._get_value _ _ _ _ _). }
  split; [|split].
  - intros default. rewrite Hhw, IdempotencyFacts.get_value_after_set.
    now rewrite bool_decide_eq_true_2.
  - intros default. rewrite !Hls, IdempotencyFacts.get_value_after_set.
    now rewrite bool_decide_eq_true_2.
  - intros s e k default Hne. rewrite !Hhw, !Hls, !IdempotencyFacts.get_value_after_set.
    now rewrite bool_decide_eq_false_2.
Qed.

(** X21. A call that leaves a column out keeps it: after
    [set_watermarks] with no high watermark, the high watermark reads as
    before for every key and every default, so that a value once stored
    cannot be cleared; and reading, which creates the table when it is
    missing, changes no value. *)
Theorem watermarks_kept_without_value (source entity key : string)
  (last_success_at : option Z) (now : Z) (db : Idempotency.Warehouse) :
  let db' := Idempotency.set_watermarks source entity key last_success_at None now db in
  (forall s e k default,
     (Idempotency.get_high_watermark s e k default db').1
     = (Idempotency.get_high_watermark s e k default db).1) /\
  (forall s e k default default',
     (Idempotency.get_high_watermark s e k default
        (Idempotency.get_high_watermark s e k default' db).2).1
     = (Idempotency.get_high_watermark s e k default db).1 /\
     (Idempotency.get_last_success_at s e k default
        (Idempotency.get_high_watermark s e k default' db).2).1
     = (Idempotency.get_last_success_at s e k default db).1).
Proof.
  cbv zeta. split.
  - intros s e k default. unfold Idempotency.get_high_watermark.
    pose proof (IdempotencyFacts.get_value_after_set source entity key last_success_at None
                  now db Idempotency.col_high_watermark s e k) as H.
    destruct (Idempotency._get_value s e k _ (Idempotency.set_watermarks _ _ _ _ _ _ _))
      as [v' d'].
    destruct (Idempotency._get_value s e k _ db) as [v d]. cbn [fst] in *.
    rewrite H. now destruct (bool_decide _).
  - intros s e k default default'.
    unfold Idempotency.get_high_watermark, Idempotency.get_last_success_at,
      Idempotency._get_value, Idempotency._ensure_table.
    cbn. split; reflexivity.
Qed.

(* ===================================================================== *)
(** * The export script: requests and retries *)
(* ===================================================================== *)

Module FetchScriptFacts.
Import FetchScript.
Local Open Scope Z_scope.

Lemma requests_app tr tr' : requests (tr ++ tr') = requests tr ++ requests tr'.
Proof. apply omap_app. Qed.

Lemma pauses_app tr tr' : pauses (tr ++ tr') = pauses tr ++ pauses tr'.
Proof. apply omap_app. Qed.

Lemma written_app tr tr' : written (tr ++ tr') = written tr ++ written tr'.
Proof. apply omap_app. Qed.

Lemma length_requests tr : length (List.filter is_request tr) = length (requests tr).
Proof.
  induction tr as [|ev tr IH]; [reflexivity|].
  destruct ev; cbn; try rewrite IH; reflexivity.
Qed.

Section Http.

Variable json_loads : string -> option Json.
Variable urlopen : nat -> string -> gmap string string -> UrlOutcome.

Lemma http_get_loop_pass url headers attempts tr :
  http_get_loop json_loads urlopen url headers attempts tr =
  match attempt json_loads urlopen url headers (S attempts) tr with
  | (Fine Again, tr') => http_get_loop json_loads urlopen url headers (S attempts) tr'
  | (Fine (Result payload), tr') => (Fine payload, tr')
  | (Raise e, tr') => (Raise e, tr')
  end.
Proof.
  rewrite http_get_loop_equation_1.
  destruct (inspect (attempt json_loads urlopen url headers (S attempts) tr))
    as [[[[|r]|e] tr'] H];
    rewrite ?http_get_loop_clause_1_equation_1, ?http_get_loop_clause_1_equation_2,
      ?http_get_loop_clause_1_equation_3; now rewrite H.
Qed.

Lemma script_attempt_transient url headers a tr :
  transient (urlopen (length (requests tr)) url headers) = true -> (a < 5)%nat ->
  attempt json_loads urlopen url headers a tr
  = (Fine Again, tr ++ [Request url headers; Sleep (backoff a)]).
Proof.
  intros Ht Ha. unfold attempt. rewrite length_requests.
  apply Nat.ltb_lt in Ha.
  destruct (urlopen (length (requests tr)) url headers) as [data|status body|e|e];
    cbn [transient] in Ht; try discriminate.
  - rewrite Ht, Ha. cbn [andb]. now rewrite <- app_assoc.
  - rewrite Ha. now rewrite <- app_assoc.
Qed.

Lemma script_attempt_final url headers a tr :
  transient (urlopen (length (requests tr)) url headers) = false \/ (5 <= a)%nat ->
  attempt json_loads urlopen url headers a tr
  = (match final json_loads url (urlopen (length (requests tr)) url headers) with
     | Fine payload => Fine (Result payload)
     | Raise e => Raise e
     end, tr ++ [Request url headers]).
Proof.
  intros H. unfold attempt. rewrite length_requests.
  destruct (urlopen (length (requests tr)) url headers) as [data|status body|e|e];
    cbn [transient final] in *.
  - now destruct (json_loads data).
  - destruct H as [-> | H]; [reflexivity|].
    apply Nat.ltb_ge in H. rewrite H. now rewrite andb_false_r.
  - destruct H as [H|H]; [discriminate|]. apply Nat.ltb_ge in H. now rewrite H.
  - reflexivity.
Qed.

(** The loop from [a] passes on, with [b] repetitions left. *)
Lemma http_get_loop_closed url headers b a tr :
  (a + b)%nat = 4%nat ->
  let n := length (requests tr) in
  let k := retries urlopen url headers b n in
  http_get_loop json_loads urlopen url headers a tr
  = (final json_loads url (urlopen (n + k)%nat url headers),
     tr ++ retries_trace url headers a k ++ [Request url headers]).
Proof.
  revert a tr. induction b as [|b IH]; intros a tr Hab n k; subst n k;
    rewrite http_get_loop_pass.
  - rewrite script_attempt_final by (right; lia). cbn [retries retries_trace app].
    rewrite Nat.add_0_r. now destruct (final json_loads url _).
  - cbn [retries]. destruct (transient (urlopen (length (requests tr)) url headers)) eqn:Et.
    + rewrite script_attempt_transient by (auto; lia).
      rewrite IH by lia. rewrite requests_app, length_app.
      replace (length (requests [Request url headers; Sleep (backoff (S a))])) with 1%nat
        by reflexivity.
      replace (length (requests tr) + 1)%nat with (S (length (requests tr))) by lia.
      replace (S (length (requests tr))
               + retries urlopen url headers b (S (length (requests tr))))%nat
        with (length (requests tr)
              + S (retries urlopen url headers b (S (length (requests tr)))))%nat by lia.
      cbn [retries_trace]. now rewrite <- app_assoc.
    + rewrite script_attempt_final by (left; exact Et). cbn [retries_trace app].
      rewrite Nat.add_0_r. now destruct (final json_loads url _).
Qed.

Lemma script_retries_bound url headers b n : (retries urlopen url headers b n <= b)%nat.
Proof.
  revert n. induction b as [|b IH]; intros n; cbn [retries]; [lia|].
  destruct (transient _); [|lia]. specialize (IH (S n)). lia.
Qed.

Lemma script_retries_transient url headers b n i :
  (i < retries urlopen url headers b n)%nat ->
  transient (urlopen (n + i)%nat url headers) = true.
Proof.
  revert n i. induction b as [|b IH]; intros n i; cbn [retries]; [lia|].
  destruct (transient (urlopen n url headers)) eqn:Et; [|lia].
  destruct i as [|i]; [now rewrite Nat.add_0_r|].
  intros H. replace (n + S i)%nat with (S n + i)%nat by lia. apply IH. lia.
Qed.

Lemma script_retries_stop url headers b n :
  (retries urlopen url headers b n < b)%nat ->
  transient (urlopen (n + retries urlopen url headers b n)%nat url headers) = false.
Proof.
  revert n. induction b as [|b IH]; intros n; cbn [retries]; [lia|].
  destruct (transient (urlopen n url headers)) eqn:Et.
  - intros H. replace (n + S (retries urlopen url headers b (S n)))%nat
      with (S n + retries urlopen url headers b (S n))%nat by lia. apply IH. lia.
  - intros _. now rewrite Nat.add_0_r.
Qed.

Lemma script_retries_all url headers b n :
  (forall i, (i < b)%nat -> transient (urlopen (n + i)%nat url headers) = true) ->
  retries urlopen url headers b n = b.
Proof.
  revert n. induction b as [|b IH]; intros n H; cbn [retries]; [reflexivity|].
  rewrite <- (Nat.add_0_r n) at 1. rewrite (H 0%nat) by lia. f_equal. apply IH.
  intros i Hi. replace (S n + i)%nat with (n + S i)%nat by lia. apply H. lia.
Qed.

Lemma script_retries_until url headers b n k :
  (k <= b)%nat ->
  (forall i, (i < k)%nat -> transient (urlopen (n + i)%nat url headers) = true) ->
  (k < b)%nat -> transient (urlopen (n + k)%nat url headers) = false ->
  retries urlopen url headers b n = k.
Proof.
  revert n k. induction b as [|b IH]; intros n k Hk Ht Hlt Hf; [lia|].
  cbn [retries]. destruct k as [|k].
  - rewrite Nat.add_0_r in Hf. now rewrite Hf.
  - rewrite <- (Nat.add_0_r n) at 1. rewrite (Ht 0%nat) by lia. f_equal.
    apply IH; [lia| |lia|].
    + intros i Hi. replace (S n + i)%nat with (n + S i)%nat by lia. apply Ht. lia.
    + now replace (S n + k)%nat with (n + S k)%nat by lia.
Qed.

Lemma requests_retries_trace url headers a k :
  requests (retries_trace url headers a k) = replicate k (url, headers).
Proof.
  revert a. induction k as [|k IH]; intros a; [reflexivity|]. cbn. f_equal. apply IH.
Qed.

Lemma pauses_retries_trace url headers a k :
  pauses (retries_trace url headers a k) = (fun i => backoff (a + S i)) <$> seq 0 k.
Proof.
  revert a. induction k as [|k IH]; intros a; [reflexivity|]. cbn [retries_trace].
  change (pauses (Request url headers :: Sleep (backoff (S a))
                  :: retries_trace url headers (S a) k))
    with (backoff (S a) :: pauses (retries_trace url headers (S a) k)).
  rewrite IH. cbn [seq fmap list_fmap]. rewrite Nat.add_1_r. f_equal.
  rewrite <- fmap_S_seq, <- list_fmap_compose. apply list_fmap_ext. intros _ i _. cbn.
  f_equal. lia.
Qed.

Lemma written_retries_trace url headers a k : written (retries_trace url headers a k) = [].
Proof. revert a. induction k as [|k IH]; intros a; [reflexivity|]. cbn. apply IH. Qed.

(** [http_get] in closed form. *)
Lemma http_get_closed urlencode path params token tr :
  let url := url_of urlencode path params in
  let headers := headers_of token in
  let n := length (requests tr) in
  let k := retries urlopen url headers 4 n in
  http_get urlencode json_loads urlopen path params token tr
  = (final json_loads url (urlopen (n + k)%nat url headers),
     tr ++ retries_trace url headers 0 k ++ [Request url headers]).
Proof. cbv zeta. unfold http_get. now rewrite (http_get_loop_closed _ _ 4 0 tr). Qed.

(** A call whose first outcome is not transient ends with it. *)
Lemma http_get_at_once urlencode path params token tr :
  let url := url_of urlencode path params in
  let headers := headers_of token in
  transient (urlopen (length (requests tr)) url headers) = false ->
  http_get urlencode json_loads urlopen path params token tr
  = (final json_loads url (urlopen (length (requests tr)) url headers),
     tr ++ [Request url headers]).
Proof.
  intros url headers Ht. rewrite http_get_closed. cbv zeta. fold url headers.
  cbn [retries]. rewrite Ht. cbn [retries_trace app]. now rewrite Nat.add_0_r.
Qed.

End Http.
End FetchScriptFacts.

(** X22. Whatever the network does, one call of [http_get] of the export
    script sends at most five requests, all to the same URL with the same
    headers; it sleeps only between two requests, for 2, 4, 8 and 16 seconds
    in this order (30 seconds at most in all); and it writes no file and
    prints nothing. *)
Theorem script_http_get_budget
  (urlencode : list (string * string) -> string)
  (json_loads : string -> option FetchScript.Json)
  (urlopen : nat -> string -> gmap string string -> FetchScript.UrlOutcome)
  (path : string) (params : list (string * string)) (token : option string)
  (tr : list FetchScript.Event) :
  let url := FetchScript.url_of urlencode path params in
  let headers := FetchScript.headers_of token in
  exists evs,
    (FetchScript.http_get urlencode json_loads urlopen path params token tr).2 = tr ++ evs /\
    (length (FetchScript.requests evs) <= 5)%nat /\
    Forall (eq (url, headers)) (FetchScript.requests evs) /\
    FetchScript.pauses evs = take (length (FetchScript.requests evs) - 1) [2; 4; 8; 16]%Z /\
    (fold_right Z.add 0 (FetchScript.pauses evs) <= 30)%Z /\
    (forall s, last evs <> Some (FetchScript.Sleep s)) /\
    Forall (fun ev => match ev with
                      | FetchScript.Request _ _ | FetchScript.Sleep _ => True
                      | _ => False
                      end) evs.
Proof.
  intros url headers.
  rewrite (FetchScriptFacts.http_get_closed json_loads urlopen urlencode path params token tr).
  cbv zeta. fold url headers. cbn [snd].
  set (k := FetchScript.retries urlopen url headers 4 _).
  assert (Hk : (k <= 4)%nat) by apply FetchScriptFacts.script_retries_bound.
  exists (FetchScript.retries_trace url headers 0 k ++ [FetchScript.Request url headers]).
  split; [reflexivity|].
  rewrite FetchScriptFacts.requests_app, FetchScriptFacts.pauses_app,
    FetchScriptFacts.requests_retries_trace, FetchScriptFacts.pauses_retries_trace.
  change (FetchScript.requests [FetchScript.Request url headers]) with [(url, headers)].
  change (FetchScript.pauses [FetchScript.Request url headers]) with (@nil Z).
  rewrite app_nil_r, length_app, length_replicate. cbn [length].
  replace (k + 1 - 1)%nat with k by lia.
  split; [lia|]. split.
  { apply Forall_app. split; [|now constructor].
    apply Forall_forall. intros x Hx. apply elem_of_replicate in Hx as [-> _]. reflexivity. }
  split.
  { destruct k as [|[|[|[|[|k']]]]]; try lia; reflexivity. }
  split.
  { destruct k as [|[|[|[|[|k']]]]]; try lia; apply Z.leb_le; reflexivity. }
  split.
  { intros s. rewrite last_snoc. discriminate. }
  apply Forall_app. split; [|now constructor].
  generalize 0%nat. induction k as [|k IH]; intros a; [constructor|].
  cbn [FetchScript.retries_trace]. constructor; [exact I|]. constructor; [exact I|].
  apply IH. lia.
Qed.

(** X23. What a call of [http_get] of the export script ends with: when
    the first [j] outcomes ([j] at most 4) are HTTP errors 429 or 503 or
    other URL errors, and the next one is none of these or [j] is 4, the call
    ends with that outcome after [j + 1] requests and sleeps of 2, 4, ...
    seconds: the decoded body, a ValueError when the body does not decode, or
    a RuntimeError with the status, the URL and the body of an HTTP error
    (or the text of a URL error). So an HTTP error other than 429 and 503 is
    raised at once, and a fifth failure in a row is raised. *)
Theorem script_http_get_outcome
  (urlencode : list (string * string) -> string)
  (json_loads : string -> option FetchScript.Json)
  (urlopen : nat -> string -> gmap string string -> FetchScript.UrlOutcome)
  (path : string) (params : list (string * string)) (token : option string)
  (tr : list FetchScript.Event) (j : nat) :
  let url := FetchScript.url_of urlencode path params in
  let headers := FetchScript.headers_of token in
  let n := length (FetchScript.requests tr) in
  (j <= 4)%nat ->
  (forall i, (i < j)%nat -> FetchScript.transient (urlopen (n + i)%nat url headers) = true) ->
  ((j < 4)%nat -> FetchScript.transient (urlopen (n + j)%nat url headers) = false) ->
  exists evs,
    FetchScript.http_get urlencode json_loads urlopen path params token tr
    = (match urlopen (n + j)%nat url headers with
       | FetchScript.Read data =>
           match json_loads data with
           | Some payload => FetchScript.Fine payload
           | None => FetchScript.Raise FetchScript.ValueError
           end
       | FetchScript.HTTPError status body =>
           FetchScript.Raise
             (FetchScript.RuntimeError
                ("HTTP " ++ pretty status ++ " for " ++ url ++ ": " ++ body))
       | FetchScript.URLError str_exc =>
           FetchScript.Raise
             (FetchScript.RuntimeError ("Network error for " ++ url ++ ": " ++ str_exc))
       | FetchScript.Broken str_exc => FetchScript.Raise (FetchScript.OtherException str_exc)
       end, tr ++ evs) /\
    FetchScript.requests evs = replicate (S j) (url, headers) /\
    FetchScript.pauses evs = take j [2; 4; 8; 16]%Z.
Proof.
  intros url headers n Hj Htrans Hstop.
  assert (Hk : FetchScript.retries urlopen url headers 4 n = j).
  { destruct (decide (j = 4%nat)) as [->|Hne].
    - now apply FetchScriptFacts.script_retries_all.
    - apply FetchScriptFacts.script_retries_until; [exact Hj|exact Htrans|lia|apply Hstop; lia]. }
  rewrite (FetchScriptFacts.http_get_closed json_loads urlopen urlencode path params token tr).
  cbv zeta. fold url headers n. rewrite Hk.
  exists (FetchScript.retries_trace url headers 0 j ++ [FetchScript.Request url headers]).
  split; [reflexivity|].
  rewrite FetchScriptFacts.requests_app, FetchScriptFacts.pauses_app,
    FetchScriptFacts.requests_retries_trace, FetchScriptFacts.pauses_retries_trace.
  change (FetchScript.requests [FetchScript.Request url headers]) with [(url, headers)].
  change (FetchScript.pauses [FetchScript.Request url headers]) with (@nil Z).
  rewrite app_nil_r. split.
  - change [(url, headers)] with (replicate 1 (url, headers)).
    rewrite <- replicate_add. f_equal. lia.
  - destruct j as [|[|[|[|[|j']]]]]; try lia; reflexivity.
Qed.

Lemma script_http_get_after_two_limits :
  exists evs,
    FetchScript.http_get (fun _ => "season=2025") loads_empty_object limited_twice
      "competitions/CL/teams" [("season", "2025")] (Some "token") []
    = (FetchScript.Fine (FetchScript.JObject []), evs) /\
    length (FetchScript.requests evs) = 3%nat /\
    FetchScript.pauses evs = [2; 4]%Z.
Proof.
  destruct (script_http_get_outcome (fun _ => "season=2025") loads_empty_object limited_twice
              "competitions/CL/teams" [("season", "2025")] (Some "token") [] 2)
    as (evs & Hrun & Hreq & Hp).
  - lia.
  - intros [|[|i]] Hi; [reflexivity|reflexivity|lia].
  - intros _. reflexivity.
  - exists evs. split; [exact Hrun|]. split; [now rewrite Hreq|exact Hp].
Defined.

(* ===================================================================== *)
(** * The export script: rows and files *)
(* ===================================================================== *)

Module FlattenFacts.
Import FetchScript.

(** The columns of the four exports. *)
Definition standings_columns : list string :=
  ["stage"; "group"; "type"; "position"; "team_id"; "team_name"; "playedGames"; "won";
   "draw"; "lost"; "goalsFor"; "goalsAgainst"; "goalDifference"; "points"].

Definition teams_columns : list string :=
  ["id"; "name"; "shortName"; "tla"; "area_id"; "area_name"; "founded"; "clubColors";
   "venue"; "website"].

Definition matches_columns : list string :=
  ["id"; "utcDate"; "status"; "matchday"; "stage"; "group"; "competition";
   "season_startDate"; "season_endDate"; "homeTeam_id"; "homeTeam_name"; "awayTeam_id";
   "awayTeam_name"; "score_winner"; "score_duration"; "ft_home"; "ft_away"; "ht_home";
   "ht_away"; "et_home"; "et_away"; "p_home"; "p_away"].

Definition scorers_columns : list string :=
  ["player_id"; "player_name"; "nationality"; "team_id"; "team_name"; "goals"; "assists";
   "penalties"].

(** An exception of the lookups and loops on decoded values. *)
Definition shape_error (e : Exn) : Prop := e = AttributeError \/ e = TypeError.

(** A computation on decoded values: it returns something that satisfies
    [P] or raises a [shape_error]. *)
Definition shaped {A} (P : A -> Prop) (c : Try A) : Prop :=
  match c with
  | Fine a => P a
  | Raise e => shape_error e
  end.

Lemma shaped_bind {A B} (P : A -> Prop) (Q : B -> Prop) (c : Try A) (k : A -> Try B) :
  shaped P c -> (forall a, P a -> shaped Q (k a)) -> shaped Q (try_bind c k).
Proof. destruct c as [a|e]; cbn; auto. Qed.

Lemma shaped_weaken {A} (P Q : A -> Prop) (c : Try A) :
  shaped P c -> (forall a, P a -> Q a) -> shaped Q c.
Proof. destruct c; cbn; auto. Qed.

Lemma shaped_py_get value key default : shaped (fun _ => True) (py_get value key default).
Proof. destruct value; cbn; auto; now left. Qed.

Lemma shaped_py_iter value : shaped (fun _ => True) (py_iter value).
Proof. destruct value; cbn; auto; now right. Qed.

Lemma shaped_entries fields :
  shaped (fun row => row.*1 = (fun f => f.1.1) <$> fields) (entries fields).
Proof.
  induction fields as [|[[key source] name] fields IH]; [reflexivity|].
  cbn [entries]. eapply shaped_bind; [apply shaped_py_get|]. intros v _.
  eapply shaped_bind; [exact IH|]. intros more Hmore. cbn. now rewrite Hmore.
Qed.

Lemma shaped_for_each {A B} (P : B -> Prop) (items : list A) (body : A -> Try (list B)) :
  (forall x, shaped (Forall P) (body x)) -> shaped (Forall P) (for_each items body).
Proof.
  intros Hbody. induction items as [|x items IH]; [constructor|].
  cbn [for_each]. eapply shaped_bind; [apply Hbody|]. intros rows Hrows.
  eapply shaped_bind; [exact IH|]. intros more Hmore. cbn. now apply Forall_app.
Qed.

Local Ltac lookups :=
  repeat (eapply shaped_bind; [first [apply shaped_py_get | apply shaped_py_iter]|];
          intros ? _).

Local Ltac one_row :=
  eapply shaped_bind; [apply shaped_entries|];
  intros row Hrow; cbn; constructor; [exact Hrow|constructor].

Lemma flatten_standings_shaped data :
  shaped (Forall (fun row => row.*1 = standings_columns)) (flatten_standings data).
Proof.
  unfold flatten_standings. lookups. apply shaped_for_each. intros table.
  lookups. apply shaped_for_each. intros position. lookups.
  eapply shaped_bind; [apply shaped_entries|].
  intros row Hrow. cbn. constructor; [|constructor]. cbn. now rewrite Hrow.
Qed.

Lemma flatten_teams_shaped data :
  shaped (Forall (fun row => row.*1 = teams_columns)) (flatten_teams data).
Proof.
  unfold flatten_teams. lookups. apply shaped_for_each. intros t. lookups. one_row.
Qed.

Lemma flatten_matches_shaped data :
  shaped (Forall (fun row => row.*1 = matches_columns)) (flatten_matches data).
Proof.
  unfold flatten_matches. lookups. apply shaped_for_each. intros m. lookups. one_row.
Qed.

Lemma flatten_scorers_shaped data :
  shaped (Forall (fun row => row.*1 = scorers_columns)) (flatten_scorers data).
Proof.
  unfold flatten_scorers. lookups. apply shaped_for_each. intros s. lookups. one_row.
Qed.

(** ** The file of rows that have the same columns *)

Lemma keys_spec_aux {A} (members : list (string * A)) (acc : list string) :
  NoDup (acc ++ members.*1) ->
  foldl (fun acc kv => if bool_decide (kv.1 ∈ acc) then acc else acc ++ [kv.1]) acc members
  = acc ++ members.*1.
Proof.
  revert acc. induction members as [|[k v] members IH]; intros acc Hnd.
  - now rewrite app_nil_r.
  - cbn [foldl fmap list_fmap fst] in *.
    apply NoDup_app in Hnd as (Hacc & Hdis & Hm).
    rewrite bool_decide_eq_false_2.
    + rewrite IH; [now rewrite <- app_assoc|]. rewrite <- app_assoc. cbn [app].
      apply NoDup_app. repeat split; assumption.
    + intros Hin. apply (Hdis k Hin). now left.
Qed.

Lemma keys_distinct {A} (members : list (string * A)) :
  NoDup members.*1 -> keys members = members.*1.
Proof. intros H. unfold keys. now rewrite keys_spec_aux. Qed.

Lemma member_distinct (members : list (string * Json)) k v :
  NoDup members.*1 -> (k, v) ∈ members -> member k members = Some v.
Proof.
  induction members as [|[k' v'] members IH]; intros Hnd Hin; [inversion Hin|].
  cbn [fmap list_fmap fst] in Hnd. apply NoDup_cons in Hnd as [Hk' Hnd].
  cbn [member]. apply elem_of_cons in Hin as [[= <- <-]|Hin].
  - destruct (member k members) as [later|] eqn:E.
    + exfalso. apply Hk'. clear - E. induction members as [|[k2 v2] members IH]; [discriminate|].
      cbn [member] in E. cbn. destruct (member k members); [right; auto|].
      destruct (decide (k2 = k)) as [->|Hne]; [now left|].
      rewrite bool_decide_eq_false_2 in E by exact Hne. discriminate.
    + now rewrite bool_decide_eq_true_2.
  - now rewrite (IH Hnd Hin).
Qed.

Lemma cells_distinct (row : Row) :
  NoDup row.*1 -> cell row <$> row.*1 = row.*2.
Proof.
  intros Hnd.
  assert (H : forall sub : Row, sub ⊆ row -> cell row <$> sub.*1 = sub.*2).
  { induction sub as [|[k v] sub IH]; intros Hsub; [reflexivity|].
    cbn [fmap list_fmap fst snd]. f_equal.
    - unfold cell. rewrite (member_distinct row k v Hnd); [reflexivity|].
      apply Hsub. now left.
    - apply IH. intros x Hx. apply Hsub. now right. }
  now apply H.
Qed.

(** The file of rows that all have the columns [columns]. *)
Lemma write_csv_same_columns (columns : list string) (rows : list Row) :
  NoDup columns -> Forall (fun row => row.*1 = columns) rows ->
  write_csv rows None
  = match rows with
    | [] => {| header := None; records := [] |}
    | _ => {| header := Some columns; records := (fun row => row.*2) <$> rows |}
    end.
Proof.
  intros Hnd Hrows. destruct rows as [|first rest]; [reflexivity|].
  unfold write_csv. cbn [default from_option id].
  pose proof (Forall_inv Hrows) as Hfirst. cbn beta in Hfirst.
  rewrite keys_distinct by (now rewrite Hfirst). rewrite Hfirst. f_equal.
  apply Forall_fmap_ext. eapply Forall_impl; [exact Hrows|].
  intros row Hrow. cbn beta in *. rewrite <- Hrow. apply cells_distinct. now rewrite Hrow.
Qed.

(** The rows of a loop whose passes give one row each. *)
Lemma for_each_one_row {A B} (items : list A) (body : A -> Try (list B)) (f : A -> B) :
  Forall (fun x => body x = Fine [f x]) items -> for_each items body = Fine (f <$> items).
Proof.
  induction 1 as [|x items Hx _ IH]; [reflexivity|].
  cbn [for_each]. rewrite Hx. cbn [try_bind]. now rewrite IH.
Qed.

Lemma member_last key value (members : list (string * Json)) :
  member key (members ++ [(key, value)]) = Some value.
Proof.
  induction members as [|[k v] members IH]; cbn [app member].
  - now rewrite bool_decide_eq_true_2.
  - now rewrite IH.
Qed.

End FlattenFacts.

(** X24. Each of the four flatten functions of the export script either
    returns rows that all have the columns of its export, in the order of
    the dict literal, or raises AttributeError or TypeError; none of them
    raises the RuntimeError that [main] catches. *)
Theorem flatten_rows_have_the_columns (data : FetchScript.Json) :
  FlattenFacts.shaped (Forall (fun row => row.*1 = FlattenFacts.standings_columns))
    (FetchScript.flatten_standings data) /\
  FlattenFacts.shaped (Forall (fun row => row.*1 = FlattenFacts.teams_columns))
    (FetchScript.flatten_teams data) /\
  FlattenFacts.shaped (Forall (fun row => row.*1 = FlattenFacts.matches_columns))
    (FetchScript.flatten_matches data) /\
  FlattenFacts.shaped (Forall (fun row => row.*1 = FlattenFacts.scorers_columns))
    (FetchScript.flatten_scorers data).
Proof.
  split; [apply FlattenFacts.flatten_standings_shaped|].
  split; [apply FlattenFacts.flatten_teams_shaped|].
  split; [apply FlattenFacts.flatten_matches_shaped|apply FlattenFacts.flatten_scorers_shaped].
Qed.

(** X25. What [write_csv] makes of the rows of a flatten function: with at
    least one row, the header of the columns of the export and one record
    per row that holds the values of the row in the order of the columns;
    with no row, an empty file without a header. *)
Theorem export_file_has_header_and_values (data : FetchScript.Json) :
  let file_of (columns : list string) (rows : list FetchScript.Row) :=
    match rows with
    | [] => {| FetchScript.header := None; FetchScript.records := [] |}
    | _ => {| FetchScript.header := Some columns;
              FetchScript.records := (fun row => row.*2) <$> rows |}
    end in
  let written (columns : list string) (flattened : FetchScript.Try (list FetchScript.Row)) :=
    match flattened with
    | FetchScript.Fine rows => FetchScript.write_csv rows None = file_of columns rows
    | FetchScript.Raise _ => True
    end in
  written FlattenFacts.standings_columns (FetchScript.flatten_standings data) /\
  written FlattenFacts.teams_columns (FetchScript.flatten_teams data) /\
  written FlattenFacts.matches_columns (FetchScript.flatten_matches data) /\
  written FlattenFacts.scorers_columns (FetchScript.flatten_scorers data).
Proof.
  cbv zeta.
  assert (H : forall columns (c : FetchScript.Try (list FetchScript.Row)),
            NoDup columns ->
            FlattenFacts.shaped (Forall (fun row => row.*1 = columns)) c ->
            match c with
            | FetchScript.Fine rows =>
                FetchScript.write_csv rows None
                = match rows with
                  | [] => {| FetchScript.header := None; FetchScript.records := [] |}
                  | _ => {| FetchScript.header := Some columns;
                            FetchScript.records := (fun row => row.*2) <$> rows |}
                  end
            | FetchScript.Raise _ => True
            end).
  { intros columns [rows|e] Hnd Hc; [|exact I].
    now apply FlattenFacts.write_csv_same_columns. }
  split; [|split; [|split]]; apply H;
    first [ apply FlattenFacts.flatten_standings_shaped
          | apply FlattenFacts.flatten_teams_shaped
          | apply FlattenFacts.flatten_matches_shaped
          | apply FlattenFacts.flatten_scorers_shaped
          | apply (bool_decide_unpack _); vm_compute; exact I ].
Qed.

(** X26. A list entry that is null or absent: [flatten_standings]
    iterates over a null entry and raises TypeError, while [flatten_teams],
    [flatten_matches] and [flatten_scorers] read it as an empty list; an
    object without the entry gives no rows in all four; and a nested entry
    that is present and null (the area of a team) raises AttributeError. *)
Theorem flatten_null_entries (members team : list (string * FetchScript.Json)) :
  let absent key (flattened : FetchScript.Try (list FetchScript.Row)) :=
    match FetchScript.member key members with
    | None => flattened = FetchScript.Fine []
    | Some _ => True
    end in
  FetchScript.flatten_standings
    (FetchScript.JObject (members ++ [("standings", FetchScript.JNull)]))
    = FetchScript.Raise FetchScript.TypeError /\
  FetchScript.flatten_teams (FetchScript.JObject (members ++ [("teams", FetchScript.JNull)]))
    = FetchScript.Fine [] /\
  FetchScript.flatten_matches (FetchScript.JObject (members ++ [("matches", FetchScript.JNull)]))
    = FetchScript.Fine [] /\
  FetchScript.flatten_scorers (FetchScript.JObject (members ++ [("scorers", FetchScript.JNull)]))
    = FetchScript.Fine [] /\
  absent "standings" (FetchScript.flatten_standings (FetchScript.JObject members)) /\
  absent "teams" (FetchScript.flatten_teams (FetchScript.JObject members)) /\
  absent "matches" (FetchScript.flatten_matches (FetchScript.JObject members)) /\
  absent "scorers" (FetchScript.flatten_scorers (FetchScript.JObject members)) /\
  FetchScript.flatten_teams
    (FetchScript.JObject
       (members ++ [("teams", FetchScript.JArray
                                [FetchScript.JObject (team ++ [("area", FetchScript.JNull)])])]))
    = FetchScript.Raise FetchScript.AttributeError.
Proof.
  cbv zeta.
  unfold FetchScript.flatten_standings, FetchScript.flatten_teams,
    FetchScript.flatten_matches, FetchScript.flatten_scorers, FetchScript.py_get.
  rewrite !FlattenFacts.member_last.
  do 4 (split; [reflexivity|]).
  do 4 (split; [match goal with
                | |- match ?m with _ => _ end => destruct m eqn:E; [exact I|reflexivity]
                end|]).
  cbn. now rewrite FlattenFacts.member_last.
Qed.

Module MatchRows.
Import FetchScript.

(** The entry of a dict, None when it is absent. *)
Definition field (value : Json) (key : string) : Json :=
  match value with
  | JObject members => default JNull (member key members)
  | _ => JNull
  end.

(** The nested dict of a dict, empty when it is absent. *)
Definition sub (value : Json) (key : string) : Json :=
  match value with
  | JObject members => default (JObject []) (member key members)
  | _ => JObject []
  end.

Definition is_object (value : Json) : Prop := exists members, value = JObject members.

(** A match whose nested entries are objects or absent. *)
Definition well_formed_match (m : Json) : Prop :=
  is_object m /\
  Forall (fun key => is_object (sub m key)) ["competition"; "season"; "score"; "homeTeam";
                                              "awayTeam"] /\
  Forall (fun key => is_object (sub (sub m "score") key)) ["fullTime"; "halfTime";
                                                             "extraTime"; "penalties"].

(** The row of a match. *)
Definition match_row (m : Json) : Row :=
  let score := sub m "score" in
  [ ("id", field m "id");
    ("utcDate", field m "utcDate");
    ("status", field m "status");
    ("matchday", field m "matchday");
    ("stage", field m "stage");
    ("group", field m "group");
    ("competition", field (sub m "competition") "name");
    ("season_startDate", field (sub m "season") "startDate");
    ("season_endDate", field (sub m "season") "endDate");
    ("homeTeam_id", field (sub m "homeTeam") "id");
    ("homeTeam_name", field (sub m "homeTeam") "name");
    ("awayTeam_id", field (sub m "awayTeam") "id");
    ("awayTeam_name", field (sub m "awayTeam") "name");
    ("score_winner", field score "winner");
    ("score_duration", field score "duration");
    ("ft_home", field (sub score "fullTime") "home");
    ("ft_away", field (sub score "fullTime") "away");
    ("ht_home", field (sub score "halfTime") "home");
    ("ht_away", field (sub score "halfTime") "away");
    ("et_home", field (sub score "extraTime") "home");
    ("et_away", field (sub score "extraTime") "away");
    ("p_home", field (sub score "penalties") "home");
    ("p_away", field (sub score "penalties") "away") ].

Lemma py_get_sub value key :
  is_object value -> py_get value key (JObject []) = Fine (sub value key).
Proof. intros [members ->]. cbn. now destruct (member key members). Qed.

Lemma get_field value key : is_object value -> get value key = Fine (field value key).
Proof. intros [members ->]. cbn. now destruct (member key members). Qed.

Lemma entries_fields (fields : list (string * Json * string)) :
  Forall (fun f => is_object f.1.2) fields ->
  entries fields = Fine ((fun f => (f.1.1, field f.1.2 f.2)) <$> fields).
Proof.
  induction 1 as [|[[key source] name] fields Hf _ IH]; [reflexivity|].
  cbn [entries]. rewrite (get_field source name Hf). cbn [try_bind]. now rewrite IH.
Qed.

Lemma flatten_match m :
  well_formed_match m ->
  (comp <- py_get m "competition" (JObject []) ;;
   season <- py_get m "season" (JObject []) ;;
   score <- py_get m "score" (JObject []) ;;
   full <- py_get score "fullTime" (JObject []) ;;
   half <- py_get score "halfTime" (JObject []) ;;
   extra <- py_get score "extraTime" (JObject []) ;;
   pens <- py_get score "penalties" (JObject []) ;;
   home <- py_get m "homeTeam" (JObject []) ;;
   away <- py_get m "awayTeam" (JObject []) ;;
   row <- entries [ ("id", m, "id");
                    ("utcDate", m, "utcDate");
                    ("status", m, "status");
                    ("matchday", m, "matchday");
                    ("stage", m, "stage");
                    ("group", m, "group");
                    ("competition", comp, "name");
                    ("season_startDate", season, "startDate");
                    ("season_endDate", season, "endDate");
                    ("homeTeam_id", home, "id");
                    ("homeTeam_name", home, "name");
                    ("awayTeam_id", away, "id");
                    ("awayTeam_name", away, "name");
                    ("score_winner", score, "winner");
                    ("score_duration", score, "duration");
                    ("ft_home", full, "home");
                    ("ft_away", full, "away");
                    ("ht_home", half, "home");
                    ("ht_away", half, "away");
                    ("et_home", extra, "home");
                    ("et_away", extra, "away");
                    ("p_home", pens, "home");
                    ("p_away", pens, "away") ] ;;
   Fine [row])%try = Fine [match_row m].
Proof.
  intros (Hm & Hsub & Hscore).
  repeat match goal with
         | H : Forall _ (_ :: _) |- _ => apply Forall_cons in H as [? H]
         end.
  repeat (rewrite py_get_sub by assumption; cbn [try_bind]).
  rewrite entries_fields; [reflexivity|]. repeat constructor; assumption.
Qed.

End MatchRows.

(** X27. [flatten_matches] on a well-formed answer: when the matches entry
    is a list of objects whose nested entries (competition, season,
    homeTeam, awayTeam, score and, in the score, fullTime, halfTime,
    extraTime and penalties) are objects or absent, the function returns one
    row per match, in order, with the 23 columns filled from the match and
    its nested objects, None where an entry is absent. *)
Theorem flatten_matches_one_row_per_match
  (members : list (string * FetchScript.Json)) (ms : list FetchScript.Json) :
  FetchScript.member "matches" members = Some (FetchScript.JArray ms) ->
  Forall MatchRows.well_formed_match ms ->
  FetchScript.flatten_matches (FetchScript.JObject members)
  = FetchScript.Fine (MatchRows.match_row <$> ms).
Proof.
  intros Hms Hwf. unfold FetchScript.flatten_matches. cbn [FetchScript.py_get].
  rewrite Hms. cbn [FetchScript.try_bind].
  assert (E : FetchScript.or_empty_list (FetchScript.JArray ms) = FetchScript.JArray ms).
  { unfold FetchScript.or_empty_list. cbn [FetchScript.truthy]. destruct ms; reflexivity. }
  rewrite E. cbn [FetchScript.py_iter FetchScript.try_bind].
  apply FlattenFacts.for_each_one_row. eapply Forall_impl; [exact Hwf|].
  intros m Hm. now apply MatchRows.flatten_match.
Qed.

Lemma flatten_matches_of_sample_match :
  FetchScript.flatten_matches
    (FetchScript.JObject [("matches", FetchScript.JArray [sample_match; sample_match])])
  = FetchScript.Fine [MatchRows.match_row sample_match; MatchRows.match_row sample_match].
Proof.
  apply (flatten_matches_one_row_per_match
           [("matches", FetchScript.JArray [sample_match; sample_match])]
           [sample_match; sample_match]); [reflexivity|].
  assert (H : MatchRows.well_formed_match sample_match).
  { split; [now eexists|]. split; repeat constructor; now eexists. }
  constructor; [exact H|]. constructor; [exact H|constructor].
Defined.

(* ===================================================================== *)
(** * The export script: [main] *)
(* ===================================================================== *)

Module MainFacts.
Import FetchScript.

(** The paths written so far. *)
Definition paths (tr : list Event) : list string := (written tr).*1.

Lemma paths_app tr tr' : paths (tr ++ tr') = paths tr ++ paths tr'.
Proof. unfold paths. now rewrite FetchScriptFacts.written_app, fmap_app. Qed.

(** A computation that writes the files [fs] in order when it returns, a
    first part of them when it raises, and raises no RuntimeError. *)
Definition safe_writes {A} (c : Script A) (fs : list string) : Prop :=
  forall tr,
    match c tr with
    | (Fine _, tr') => paths tr' = paths tr ++ fs
    | (Raise e, tr') =>
        (forall msg, e <> RuntimeError msg) /\
        exists k, paths tr' = paths tr ++ take k fs
    end.

Lemma safe_writes_bind {A B} (c : Script A) (k : A -> Script B) fs1 fs2 :
  safe_writes c fs1 -> (forall a, safe_writes (k a) fs2) ->
  safe_writes (bind c k) (fs1 ++ fs2).
Proof.
  intros Hc Hk tr. unfold bind. specialize (Hc tr).
  destruct (c tr) as [[a|e] tr'].
  - specialize (Hk a tr'). destruct (k a tr') as [[b|e] tr''].
    + now rewrite Hk, Hc, app_assoc.
    + destruct Hk as (Hno & j & Hj). split; [exact Hno|].
      exists (length fs1 + j)%nat. rewrite Hj, Hc, <- app_assoc. f_equal.
      now rewrite take_app_add.
  - destruct Hc as (Hno & j & Hj). split; [exact Hno|].
    exists (min j (length fs1)). rewrite Hj. f_equal.
    rewrite take_app_le by lia.
    destruct (Nat.min_spec j (length fs1)) as [[H ->]|[H ->]]; [reflexivity|].
    now rewrite !take_ge by lia.
Qed.

Lemma safe_writes_emit ev :
  safe_writes (emit ev) match ev with WriteFile p _ => [p] | _ => [] end.
Proof.
  intros tr. unfold emit. rewrite paths_app. destruct ev; cbn; now rewrite ?app_nil_r.
Qed.

Lemma safe_writes_ret {A} (a : A) : safe_writes (ret a) [].
Proof. intros tr. cbn. now rewrite app_nil_r. Qed.

Lemma safe_writes_lift {A} (P : A -> Prop) (c : Try A) :
  FlattenFacts.shaped P c -> safe_writes (lift c) [].
Proof.
  intros Hc tr. unfold lift. destruct c as [a|e]; [now rewrite app_nil_r|].
  split; [|exists 0%nat; now rewrite app_nil_r].
  intros msg ->. destruct Hc; discriminate.
Qed.

Section Main.

Variable environ : gmap string string.
Variable strip : string -> string.
Variable urlencode : list (string * string) -> string.
Variable json_loads : string -> option Json.
Variable urlopen : nat -> string -> gmap string string -> UrlOutcome.
Variable path_join : string -> string -> string.
Variable utcnow_isoformat : string.

(** [http_get] writes nothing. *)
Lemma http_get_paths path params token tr :
  paths (http_get urlencode json_loads urlopen path params token tr).2 = paths tr.
Proof.
  rewrite (FetchScriptFacts.http_get_closed json_loads urlopen urlencode path params token tr).
  cbn [snd]. unfold paths.
  rewrite !FetchScriptFacts.written_app, FetchScriptFacts.written_retries_trace.
  cbn. now rewrite app_nil_r.
Qed.

Lemma safe_writes_export path params token flatten warning file :
  (forall data, FlattenFacts.shaped (fun _ => True) (flatten data)) ->
  safe_writes (export urlencode json_loads urlopen path params token flatten warning file)
    [file].
Proof.
  intros Hflat.
  change [file] with ([] ++ [file]). apply safe_writes_bind.
  - intros tr. unfold except_RuntimeError, bind.
    pose proof (http_get_paths path params (Some token) tr) as Hp.
    destruct (http_get urlencode json_loads urlopen path params (Some token) tr)
      as [[data|e] tr'] eqn:E; cbn [snd] in Hp.
    + unfold lift. specialize (Hflat data). destruct (flatten data) as [rows|e].
      * now rewrite Hp, app_nil_r.
      * assert (He : forall msg, e <> RuntimeError msg)
          by (intros msg ->; destruct Hflat; discriminate).
        destruct e; try (split; [exact He|exists 0%nat; now rewrite Hp, app_nil_r]).
        now destruct (He msg).
    + destruct e; try (split; [discriminate|exists 0%nat; now rewrite Hp, app_nil_r]).
      unfold emit, ret. rewrite paths_app, Hp. cbn. now rewrite !app_nil_r.
  - intros rows. change [file] with ([file] ++ []). apply safe_writes_bind.
    + apply (safe_writes_emit (WriteFile file _)).
    + intros _. apply safe_writes_ret.
Qed.

Lemma main_with_token token tr :
  get_token environ strip = Some token -> token <> "" ->
  main environ strip urlencode json_loads urlopen path_join utcnow_isoformat tr
  = match http_get urlencode json_loads urlopen ("competitions/" ++ COMPETITION_CODE) []
            (Some token) (tr ++ [MakeDirs "output"]) with
    | (Fine comp, tr') =>
        after_competition urlencode json_loads urlopen path_join utcnow_isoformat
          token "output" comp tr'
    | (Raise e, tr') => (Raise e, tr')
    end.
Proof.
  intros Ht Hne. unfold main. rewrite Ht.
  destruct token as [|a s]; [now destruct Hne|]. reflexivity.
Qed.

Lemma safe_writes_after_competition token outdir comp :
  safe_writes (after_competition urlencode json_loads urlopen path_join utcnow_isoformat
                 token outdir comp)
    [path_join outdir "cl_2025_standings.csv"; path_join outdir "cl_2025_teams.csv";
     path_join outdir "cl_2025_matches.csv"; path_join outdir "cl_2025_scorers.csv";
     path_join outdir "cl_2025_summary.json"].
Proof.
  unfold after_competition.
  assert (Hshape : forall (P : list Row -> Prop) c,
            FlattenFacts.shaped P c -> FlattenFacts.shaped (fun _ => True) c).
  { intros P c H. eapply FlattenFacts.shaped_weaken; [exact H|auto]. }
  change [path_join outdir "cl_2025_standings.csv"; path_join outdir "cl_2025_teams.csv";
          path_join outdir "cl_2025_matches.csv"; path_join outdir "cl_2025_scorers.csv";
          path_join outdir "cl_2025_summary.json"]
    with ([path_join outdir "cl_2025_standings.csv"] ++ [path_join outdir "cl_2025_teams.csv"]
          ++ [path_join outdir "cl_2025_matches.csv"] ++ [path_join outdir "cl_2025_scorers.csv"]
          ++ [] ++ [path_join outdir "cl_2025_summary.json"] ++ [] ++ [] ++ []).
  apply safe_writes_bind.
  { apply safe_writes_export. intros data.
    eapply Hshape, FlattenFacts.flatten_standings_shaped. }
  intros standings_rows. apply safe_writes_bind.
  { apply safe_writes_export. intros data. eapply Hshape, FlattenFacts.flatten_teams_shaped. }
  intros teams_rows. apply safe_writes_bind.
  { apply safe_writes_export. intros data. eapply Hshape, FlattenFacts.flatten_matches_shaped. }
  intros matches_rows. apply safe_writes_bind.
  { apply safe_writes_export. intros data. eapply Hshape, FlattenFacts.flatten_scorers_shaped. }
  intros scorers_rows. cbv zeta. apply safe_writes_bind.
  { eapply safe_writes_lift, FlattenFacts.shaped_entries. }
  intros competition_. apply safe_writes_bind.
  { apply (safe_writes_emit (WriteFile _ _)). }
  intros _. apply safe_writes_bind.
  { apply (safe_writes_emit (Stdout _)). }
  intros _. apply safe_writes_bind; [|intros _; apply safe_writes_ret].
  cbn [foldr].
  change (@nil string) with (@nil string ++ [] ++ [] ++ [] ++ []).
  repeat (apply safe_writes_bind; [apply (safe_writes_emit (Stdout _))|intros _]).
  apply safe_writes_ret.
Qed.

End Main.
End MainFacts.

(** X28. The files of a run of [main] of the export script. Without a
    token in the environment (no variable, an empty one, or one that is
    empty once stripped) it returns 2 after two lines on stderr, with no
    request and no file. With a token, a RuntimeError gets out of [main] only
    from the first call, the one for the competition, and then no file has
    been written; otherwise the four CSV files and the summary are written
    in this order, all five when [main] returns, which it does with 0, and a
    first part of them when another exception ends it: the RuntimeError of
    the calls for the standings, teams, matches and scorers never gets out. *)
Theorem main_files_and_errors
  (environ : gmap string string) (strip : string -> string)
  (urlencode : list (string * string) -> string)
  (json_loads : string -> option FetchScript.Json)
  (urlopen : nat -> string -> gmap string string -> FetchScript.UrlOutcome)
  (path_join : string -> string -> string) (utcnow_isoformat : string)
  (tr : list FetchScript.Event) :
  let run := FetchScript.main environ strip urlencode json_loads urlopen path_join
               utcnow_isoformat tr in
  let files := [path_join "output" "cl_2025_standings.csv";
                path_join "output" "cl_2025_teams.csv";
                path_join "output" "cl_2025_matches.csv";
                path_join "output" "cl_2025_scorers.csv";
                path_join "output" "cl_2025_summary.json"] in
  match FetchScript.get_token environ strip with
  | None | Some "" =>
      exists line1 line2,
        run = (FetchScript.Fine 2%Z,
               tr ++ [FetchScript.Stderr line1; FetchScript.Stderr line2])
  | Some token =>
      let competition_call :=
        FetchScript.http_get urlencode json_loads urlopen "competitions/CL" [] (Some token)
          (tr ++ [FetchScript.MakeDirs "output"]) in
      match run.1 with
      | FetchScript.Fine code =>
          code = 0%Z /\ MainFacts.paths run.2 = MainFacts.paths tr ++ files
      | FetchScript.Raise e =>
          (exists k, MainFacts.paths run.2 = MainFacts.paths tr ++ take k files) /\
          (forall msg, e = FetchScript.RuntimeError msg ->
             competition_call.1 = FetchScript.Raise e /\
             MainFacts.paths run.2 = MainFacts.paths tr)
      end
  end.
Proof.
  intros run files.
  destruct (FetchScript.get_token environ strip) as [token|] eqn:Et.
  2:{ subst run. unfold FetchScript.main. rewrite Et.
      unfold FetchScript.bind, FetchScript.emit, FetchScript.ret. rewrite <- app_assoc.
      eexists _, _. reflexivity. }
  destruct (decide (token = "")) as [->|Hne].
  { subst run. unfold FetchScript.main. rewrite Et.
    unfold FetchScript.bind, FetchScript.emit, FetchScript.ret. rewrite <- app_assoc.
    eexists _, _. reflexivity. }
  assert (Hrun := MainFacts.main_with_token environ strip urlencode json_loads urlopen
                    path_join utcnow_isoformat token tr Et Hne).
  fold run in Hrun.
  change ("competitions/" ++ FetchScript.COMPETITION_CODE)%string with "competitions/CL" in Hrun.
  pose proof (MainFacts.http_get_paths urlencode json_loads urlopen "competitions/CL" []
                (Some token) (tr ++ [FetchScript.MakeDirs "output"])) as Hp.
  rewrite MainFacts.paths_app in Hp. change (MainFacts.paths [FetchScript.MakeDirs "output"])
    with (@nil string) in Hp. rewrite app_nil_r in Hp.
  destruct token as [|a s]; [now destruct Hne|]. cbv zeta.
  destruct (FetchScript.http_get urlencode json_loads urlopen "competitions/CL" []
              (Some (String a s)) (tr ++ [FetchScript.MakeDirs "output"]))
    as [[comp|e] tr'] eqn:Ec; cbn [fst snd] in *.
  - pose proof (MainFacts.safe_writes_after_competition urlencode json_loads urlopen
                  path_join utcnow_isoformat (String a s) "output" comp tr') as Hsafe.
    rewrite <- Hrun in Hsafe. destruct run as [[code|e] tr'']; cbn [fst snd].
    + rewrite Hsafe, Hp. split; [|reflexivity].
      (* the value returned *)
      clear - Hrun. unfold FetchScript.after_competition, FetchScript.bind in Hrun.
      repeat match type of Hrun with
             | context [match ?c ?t with _ => _ end] =>
                 destruct (c t) as [[? | ?] ?]; try discriminate
             end.
      revert Hrun. unfold FetchScript.ret. intros [= <- _]. reflexivity.
    + destruct Hsafe as (Hno & k & Hk). rewrite Hk, Hp. split; [now exists k|].
      intros msg ->. now destruct (Hno msg).
  - rewrite Hrun. cbn [fst snd]. split; [exists 0%nat; now rewrite Hp, app_nil_r|].
    intros msg _. split; [reflexivity|exact Hp].
Qed.

Module RefusedFacts.
Import FetchScript.

Lemma export_refused urlencode json_loads urlopen path params token flatten warning file tr
    body :
  let url := url_of urlencode path params in
  let headers := headers_of (Some token) in
  urlopen (length (requests tr)) url headers = HTTPError 403 body ->
  export urlencode json_loads urlopen path params token flatten warning file tr
  = (Fine [],
     tr ++ [Request url headers;
            Stderr (warning ("HTTP 403 for " ++ url ++ ": " ++ body)%string);
            WriteFile file (CsvContent {| header := None; records := [] |})]).
Proof.
  intros url headers Hnet. unfold export, bind at 1, except_RuntimeError, bind at 1.
  rewrite (FetchScriptFacts.http_get_at_once json_loads urlopen urlencode path params
             (Some token) tr) by (fold url headers; now rewrite Hnet).
  fold url headers. rewrite Hnet. cbn [final].
  unfold bind, emit, ret. rewrite <- !app_assoc. reflexivity.
Qed.

End RefusedFacts.

(** X29. A run of [main] in which the competition is fetched and every
    later request is refused with the status 403: [main] returns 0 after
    five requests and no pause; four warnings go to stderr; each of the
    four CSV files is empty, without a header; and the summary holds the
    six entries of the competition, None where the answer lacks one, the
    four paths and four counts of zero. *)
Theorem main_with_refused_exports
  (environ : gmap string string) (strip : string -> string)
  (urlencode : list (string * string) -> string)
  (json_loads : string -> option FetchScript.Json)
  (urlopen : nat -> string -> gmap string string -> FetchScript.UrlOutcome)
  (path_join : string -> string -> string) (utcnow_isoformat : string)
  (tr : list FetchScript.Event)
  (token data body : string) (comp : list (string * FetchScript.Json)) :
  let n := length (FetchScript.requests tr) in
  let headers := FetchScript.headers_of (Some token) in
  let empty := FetchScript.CsvContent
                 {| FetchScript.header := None; FetchScript.records := [] |} in
  let file name := path_join "output" name in
  let entry key := (key, default FetchScript.JNull (FetchScript.member key comp)) in
  FetchScript.get_token environ strip = Some token -> token <> "" ->
  urlopen n (FetchScript.url_of urlencode "competitions/CL" []) headers
    = FetchScript.Read data ->
  json_loads data = Some (FetchScript.JObject comp) ->
  (forall i url, (n < i)%nat -> urlopen i url headers = FetchScript.HTTPError 403 body) ->
  exists evs,
    FetchScript.main environ strip urlencode json_loads urlopen path_join utcnow_isoformat tr
    = (FetchScript.Fine 0%Z, tr ++ evs) /\
    length (FetchScript.requests evs) = 5%nat /\
    FetchScript.pauses evs = [] /\
    length (List.filter (fun ev => match ev with FetchScript.Stderr _ => true | _ => false end)
              evs) = 4%nat /\
    FetchScript.written evs
    = [ (file "cl_2025_standings.csv", empty);
        (file "cl_2025_teams.csv", empty);
        (file "cl_2025_matches.csv", empty);
        (file "cl_2025_scorers.csv", empty);
        (file "cl_2025_summary.json",
         FetchScript.JsonContent
           {| FetchScript.fetched_at := (utcnow_isoformat ++ "Z")%string;
              FetchScript.competition :=
                [entry "id"; entry "name"; entry "code"; entry "type"; entry "emblem";
                 entry "area"];
              FetchScript.season := 2025;
              FetchScript.counts := [("standings_rows", 0%nat); ("teams", 0%nat);
                                     ("matches_2025", 0%nat); ("scorers", 0%nat)];
              FetchScript.files :=
                [("standings_csv", file "cl_2025_standings.csv");
                 ("teams_csv", file "cl_2025_teams.csv");
                 ("matches_csv", file "cl_2025_matches.csv");
                 ("scorers_csv", file "cl_2025_scorers.csv")] |}) ].
Proof.
  intros n headers empty file entry Ht Hne Hcomp Hjson Hrefused.
  rewrite (MainFacts.main_with_token environ strip urlencode json_loads urlopen path_join
             utcnow_isoformat token tr Ht Hne).
  change ("competitions/" ++ FetchScript.COMPETITION_CODE)%string with "competitions/CL".
  assert (Hn : length (FetchScript.requests (tr ++ [FetchScript.MakeDirs "output"])) = n).
  { rewrite FetchScriptFacts.requests_app, length_app. cbn. subst n. lia. }
  rewrite (FetchScriptFacts.http_get_at_once json_loads urlopen urlencode "competitions/CL" []
             (Some token) (tr ++ [FetchScript.MakeDirs "output"]));
    fold headers; rewrite Hn, Hcomp; [|reflexivity].
  cbn [FetchScript.final]. rewrite Hjson.
  unfold FetchScript.after_competition.
  repeat (unfold FetchScript.bind at 1;
          erewrite RefusedFacts.export_refused;
          [|fold headers; apply Hrefused;
            rewrite <- ?app_assoc, !FetchScriptFacts.requests_app, !length_app; cbn; fold n; lia]).
  cbn [length].
  unfold FetchScript.bind, FetchScript.lift, FetchScript.emit, FetchScript.ret.
  cbn [FetchScript.entries FetchScript.get FetchScript.py_get FetchScript.try_bind foldr fst snd].
  rewrite <- !app_assoc. cbn [app].
  eexists. split; [reflexivity|].
  split; [reflexivity|]. split; [reflexivity|]. split; [reflexivity|].
  unfold entry. cbn. repeat f_equal; now destruct (FetchScript.member _ comp).
Qed.

Lemma main_with_refused_exports_sample :
  exists evs,
    FetchScript.main {[ "FOOTBALL_DATA_API_TOKEN" := "token" ]} id (fun _ => "season=2025")
      loads_empty_object refused_after_first posix_join "2025-11-04T12:00:00" []
    = (FetchScript.Fine 0%Z, evs) /\
    length (FetchScript.requests evs) = 5%nat /\
    FetchScript.pauses evs = [] /\
    length (FetchScript.written evs) = 5%nat.
Proof.
  destruct (main_with_refused_exports {[ "FOOTBALL_DATA_API_TOKEN" := "token" ]} id
              (fun _ => "season=2025") loads_empty_object refused_after_first posix_join
              "2025-11-04T12:00:00" [] "token" "{}" "Forbidden" [])
    as (evs & Hrun & Hreq & Hp & _ & Hw).
  - reflexivity.
  - discriminate.
  - reflexivity.
  - reflexivity.
  - intros [|i] url Hi; [cbn in Hi; lia|reflexivity].
  - exists evs. split; [exact Hrun|]. split; [exact Hreq|]. split; [exact Hp|].
    now rewrite Hw.
Defined.
